(** * failure-uploader: key derivation, ticket issuance, upload completion

    A shallow embedding of the Go packages [keys], [s3client], [validation],
    [email] and [handlers], and the properties of the two-phase upload
    protocol proved about them.

    Go strings are byte strings; they are modelled by [string] (a list of
    8-bit [ascii]).  Calls that leave the process (S3, SES, the clock, the
    UUID source, the logger) are modelled by an environment of oracles and a
    trace of events written by a small writer monad.  Within the handling
    of one request an oracle answers as a function of its arguments: the
    bucket does not change while it is being checked. *)

From Stdlib Require Import String Ascii List ZArith Lia Bool Arith.
Import ListNotations.
Open Scope string_scope.
Open Scope list_scope.

(* ================================================================== *)
(** * Byte strings *)
(* ================================================================== *)

Module Str.

Definition slash : ascii := "/"%char.

(** [strings.Contains(s, string(c))] on bytes. *)
Fixpoint mem (c : ascii) (s : string) : bool :=
  match s with
  | EmptyString => false
  | String a s' => Ascii.eqb a c || mem c s'
  end.

Fixpoint forallb (p : ascii -> bool) (s : string) : bool :=
  match s with
  | EmptyString => true
  | String a s' => p a && forallb p s'
  end.

(** The path elements of [s]: the maximal runs of bytes between
    occurrences of [c].  Never the empty list. *)
Fixpoint split_on (c : ascii) (s : string) : list string :=
  match s with
  | EmptyString => [EmptyString]
  | String a s' =>
      if Ascii.eqb a c then EmptyString :: split_on c s'
      else match split_on c s' with
           | seg :: rest => String a seg :: rest
           | [] => [String a EmptyString]
           end
  end.

(** [strings.Join(elems, "/")]. *)
Fixpoint join_slash (elems : list string) : string :=
  match elems with
  | [] => EmptyString
  | [e] => e
  | e :: rest => e ++ String slash (join_slash rest)
  end.

(** [strings.HasPrefix(s, p)]. *)
Definition HasPrefix (s p : string) : bool := String.prefix p s.

End Str.

(* ================================================================== *)
(** * Package [path] of the Go standard library: [Clean] and [Join] *)
(* ================================================================== *)

Module path.

(** One element of the path being cleaned, against the elements kept so
    far ([out], most recent first):
    - an empty element or [.] is dropped;
    - [..] removes the last kept element when there is one to backtrack
      over; otherwise it is dropped on a rooted path and kept on a
      relative one (a leading [../..] run);
    - any other element is kept. *)
Definition clean_step (rooted : bool) (out : list string) (seg : string)
  : list string :=
  if String.eqb seg "" then out
  else if String.eqb seg "." then out
  else if String.eqb seg ".." then
    match out with
    | top :: rest =>
        if String.eqb top ".." then (if rooted then out else seg :: out)
        else rest
    | [] => if rooted then out else [seg]
    end
  else seg :: out.

(** [path.Clean]: the shortest path equivalent to [p] by purely lexical
    processing. *)
Definition Clean (p : string) : string :=
  if String.eqb p "" then "."
  else
    let rooted := Str.HasPrefix p "/" in
    let out := fold_left (clean_step rooted) (Str.split_on Str.slash p) [] in
    let body := Str.join_slash (rev out) in
    let res := if rooted then String Str.slash body else body in
    if String.eqb res "" then "." else res.

(** The buffer [path.Join] builds: leading empty elements are skipped,
    every later element is appended after a slash. *)
Fixpoint join_buf (buf : string) (elem : list string) : string :=
  match elem with
  | [] => buf
  | e :: rest =>
      if negb (String.eqb buf "") then
        join_buf (buf ++ String Str.slash e) rest
      else if negb (String.eqb e "") then join_buf e rest
      else join_buf buf rest
  end.

(** [path.Join]. *)
Definition Join (elem : list string) : string :=
  if Nat.eqb (fold_right (fun e n => String.length e + n) 0 elem) 0 then ""
  else Clean (join_buf "" elem).

(** A path element that [Clean] keeps as it is: not empty, without a
    slash, and neither [.] nor [..]. *)
Definition plain (seg : string) : bool :=
  negb (String.eqb seg "") && negb (Str.mem Str.slash seg)
  && negb (String.eqb seg ".") && negb (String.eqb seg "..").

Definition nonempty (seg : string) : bool := negb (String.eqb seg "").

(** The shape of the elements [Clean] has kept (most recent first): plain
    elements on top of a run of [..] elements. *)
Fixpoint kept_shape (out : list string) : bool :=
  match out with
  | [] => true
  | top :: rest =>
      if String.eqb top ".." then List.forallb (String.eqb "..") rest
      else plain top && kept_shape rest
  end.

End path.

(* ================================================================== *)
(** * Decimal printing ([strconv], [fmt] verb [%d], [time.appendInt]) *)
(* ================================================================== *)

Module strconv.

Definition digit_char (d : Z) : ascii := ascii_of_nat (48 + Z.to_nat d).

(** Decimal digits of [u], least significant first into [acc]. *)
Fixpoint utoa_fuel (fuel : nat) (u : Z) (acc : string) : string :=
  match fuel with
  | O => acc
  | S f =>
      let acc' := String (digit_char (u mod 10)) acc in
      if (u <? 10)%Z then acc' else utoa_fuel f (u / 10) acc'
  end.

Definition utoa (u : Z) : string :=
  utoa_fuel (S (Z.to_nat (Z.log2 u))) u "".

(** [strconv.FormatInt(x, 10)], also what [fmt] prints for [%d]. *)
Definition Itoa (x : Z) : string :=
  (if (x <? 0)%Z then "-" else "") ++ utoa (Z.abs x).

End strconv.

(* ================================================================== *)
(** * Package [time]: the fields [Format] reads, and layout ["2006/01/02"] *)
(* ================================================================== *)

Module time.

(** A UTC instant by its civil fields, as [Time.Date] and [Time.Clock]
    report them. *)
Record Time := mkTime {
  Year : Z; Month : Z; Day : Z;
  Hour : Z; Minute : Z; Second : Z
}.

Fixpoint zeros (n : nat) : string :=
  match n with O => "" | S k => String "0"%char (zeros k) end.

(** [appendInt(b, x, width)]: the decimal form of [x], a minus sign first
    when negative, left-padded with zeros to [width] digits. *)
Definition appendInt (x : Z) (width : nat) : string :=
  let u := Z.abs x in
  let ds := strconv.utoa u in
  (if (x <? 0)%Z then "-" else "")
    ++ zeros (width - String.length ds) ++ ds.

(** [t.Format("2006/01/02")]. *)
Definition Format_2006_01_02 (t : Time) : string :=
  appendInt (Year t) 4 ++ "/" ++ appendInt (Month t) 2 ++ "/"
    ++ appendInt (Day t) 2.

End time.

(* ================================================================== *)
(** * Package [keys] *)
(* ================================================================== *)

Module keys.

Record Builder := mkBuilder {
  project : string;
  env : string;
  failureID : string;
  date : time.Time
}.

(** [NewBuilder]; [now] is the reading of [time.Now().UTC()]. *)
Definition NewBuilder (now : time.Time) (project env failureID : string)
  : Builder :=
  mkBuilder project env failureID now.

Definition WithDate (b : Builder) (t : time.Time) : Builder :=
  mkBuilder (project b) (env b) (failureID b) t.

(** [fmt.Sprintf("failures/%s/%s/%s/%s/", ...)]. *)
Definition Prefix (b : Builder) : string :=
  "failures/" ++ project b ++ "/" ++ env b ++ "/"
    ++ time.Format_2006_01_02 (date b) ++ "/" ++ failureID b ++ "/".

Definition Envelope (b : Builder) : string :=
  path.Join [Prefix b; "envelope.json"].
Definition RequestRaw (b : Builder) : string :=
  path.Join [Prefix b; "request.raw"].
Definition RequestHeaders (b : Builder) : string :=
  path.Join [Prefix b; "request.headers.json"].
Definition ResponseRaw (b : Builder) : string :=
  path.Join [Prefix b; "response.raw"].
Definition Checksums (b : Builder) : string :=
  path.Join [Prefix b; "checksums.json"].
Definition File (b : Builder) (filename : string) : string :=
  path.Join [Prefix b; "files"; filename].

Definition RequiredKeys (b : Builder) : list string :=
  [Envelope b; RequestRaw b; RequestHeaders b; Checksums b].

Definition AllKeys (b : Builder) (filenames : list string) : list string :=
  fold_left (fun keys f => keys ++ [File b f]) filenames
    (RequiredKeys b ++ [ResponseRaw b]).

End keys.

(* ================================================================== *)
(** * Package [models] and [config] *)
(* ================================================================== *)

Module models.

(** Go allows the same field name in several structs; where two structs
    of this package share one, the later struct's field carries a letter
    for its struct ([CProject] of the completion request, [UEnvelope] of
    the upload URLs, [TFailureID] of the ticket response). *)

Record FileInfo := mkFileInfo {
  Name : string;
  Filename : string;
  FileContentType : string;
  Bytes : Z                      (* int64 *)
}.

Record RequestInfo := mkRequestInfo {
  Method : string;
  URL : string;
  ContentType : string;
  BodyBytes : Z;                 (* int64 *)
  Files : list FileInfo
}.

Record ClientInfo := mkClientInfo {
  AppVersion : string;
  Platform : string
}.

Record UploadTicketRequest := mkUploadTicketRequest {
  Project : string;
  Env : string;
  Request : RequestInfo;
  Client : ClientInfo
}.

Record PresignedUpload := mkPresignedUpload {
  Key : string;
  PutURL : string
}.

Record UploadURLs := mkUploadURLs {
  UEnvelope : PresignedUpload;
  URequestRaw : PresignedUpload;
  URequestHeaders : PresignedUpload;
  UResponseRaw : PresignedUpload;
  UFiles : list PresignedUpload;
  UChecksums : PresignedUpload
}.

Record UploadTicketResponse := mkUploadTicketResponse {
  TFailureID : string;
  S3Prefix : string;
  Uploads : UploadURLs;
  ExpiresInSeconds : Z
}.

Record UploadCompleteRequest := mkUploadCompleteRequest {
  FailureID : string;
  CProject : string;
  CEnv : string;
  UploadedKeys : list string;
  SHA256 : list (string * string)   (* map[string]string, never read *)
}.

Record UploadCompleteResponse := mkUploadCompleteResponse {
  Status : string
}.

Record ErrorResponse := mkErrorResponse {
  Error : string;
  Code : string;
  Details : string
}.

(** The zero value [models.UploadURLs{}]. *)
Definition zeroUpload : PresignedUpload := mkPresignedUpload "" "".
Definition zeroUploadURLs : UploadURLs :=
  mkUploadURLs zeroUpload zeroUpload zeroUpload zeroUpload [] zeroUpload.

(** Every write-authorization a ticket carries: the five fixed slots of
    the struct and the [Files] slice. *)
Definition authorizations (u : UploadURLs) : list PresignedUpload :=
  [UEnvelope u; URequestRaw u; URequestHeaders u; UResponseRaw u;
   UChecksums u] ++ UFiles u.

End models.

Module config.

Record Config := mkConfig {
  PresignTTL : Z;                (* time.Duration, nanoseconds *)
  MaxBodyBytes : Z;
  MaxFileBytes : Z;
  MaxTotalBytes : Z
}.

End config.

(* ================================================================== *)
(** * The world outside the repository, and the effect monad *)
(* ================================================================== *)

(** A Go [error] of the AWS SDK: the service's clean "no such object"
    answer, or anything else (transport, credentials, throttling). *)
Inductive error :=
| ErrNotFound
| ErrOther (msg : string).

Module email_types.

(** [email.FailureNotification]. *)
Record FailureNotification := mkFailureNotification {
  NFailureID : string;
  NProject : string;
  NEnv : string;
  NMethod : string;
  NURL : string;
  NAppVersion : string;
  NPlatform : string;
  EnvelopeURL : string
}.

(** What [ses.SendEmailInput] is built from: sender, recipient, subject
    line, and the notification that the text and HTML templates render. *)
Record SendEmailInput := mkSendEmailInput {
  Source : string;
  ToAddress : string;
  Subject : string;
  Rendered : FailureNotification
}.

End email_types.

(** Everything the handlers call that is not code of this repository. *)
Record World := mkWorld {
  (** [s3.Client.HeadObject(bucket, key)]: [None] is success. *)
  HeadObject : string -> string -> option error;
  (** [s3.PresignClient.PresignPutObject(bucket, key, contentType, expires)]. *)
  PresignPutObject : string -> string -> string -> Z -> string + error;
  (** [s3.PresignClient.PresignGetObject(bucket, key, expires)]. *)
  PresignGetObject : string -> string -> Z -> string + error;
  (** [ses.Client.SendEmail]: [None] is success. *)
  SendEmail : email_types.SendEmailInput -> option error;
  (** [time.Now().UTC()]. *)
  Now : time.Time;
  (** [uuid.New().String()]. *)
  NewUUID : string;
  (** [strings.ToUpper] and [strings.ToLower] (Unicode case tables). *)
  ToUpper : string -> string;
  ToLower : string -> string
}.

Module Eff.

(** [zerolog.Level] *)
Inductive Level := InfoLevel | WarnLevel | ErrorLevel.

(** Fields of a zerolog event. *)
Inductive Field :=
| Str (k v : string)
| Strs (k : string) (vs : list string)
| Int (k : string) (v : Z)
| Err (e : error).

Inductive Event :=
| Log (lvl : Level) (fields : list Field) (msg : string)
| CallHeadObject (bucket key : string)
| CallPresignPut (bucket key contentType : string) (expires : Z)
| CallPresignGet (bucket key : string) (expires : Z)
| CallSendEmail (input : email_types.SendEmailInput).

(** A computation returns its value and the events it caused, in order. *)
Definition M (A : Type) : Type := A * list Event.

Definition ret {A} (a : A) : M A := (a, []).
Definition bind {A B} (m : M A) (k : A -> M B) : M B :=
  let '(a, t1) := m in let '(b, t2) := k a in (b, t1 ++ t2).
Definition emit (e : Event) : M unit := (tt, [e]).
Definition log (lvl : Level) (fields : list Field) (msg : string) : M unit :=
  emit (Log lvl fields msg).

Definition value {A} (m : M A) : A := fst m.
Definition trace {A} (m : M A) : list Event := snd m.

End Eff.

Declare Scope eff_scope.
Delimit Scope eff_scope with eff.
Notation "x <- m ;; k" := (Eff.bind m (fun x => k))
  (at level 61, m at next level, right associativity) : eff_scope.
Notation "' p <- m ;; k" := (Eff.bind m (fun x => let p := x in k))
  (at level 61, p pattern, m at next level, right associativity) : eff_scope.
Notation "m ;;; k" := (Eff.bind m (fun _ => k))
  (at level 61, right associativity) : eff_scope.
Open Scope eff_scope.

(* ================================================================== *)
(** * Package [validation] *)
(* ================================================================== *)

Module validation.
Import models.

(** The character class [[a-zA-Z0-9_-]]. *)
Definition tag_char (c : ascii) : bool :=
  let n := nat_of_ascii c in
  ((48 <=? n)%nat && (n <=? 57)%nat) || ((65 <=? n)%nat && (n <=? 90)%nat)
  || ((97 <=? n)%nat && (n <=? 122)%nat) || (n =? 95)%nat || (n =? 45)%nat.

(** [^[a-zA-Z0-9_-]{1,64}$] *)
Definition projectRegex (s : string) : bool :=
  Str.forallb tag_char s && (1 <=? String.length s)%nat
  && (String.length s <=? 64)%nat.

(** [^[a-zA-Z0-9_-]{1,32}$] *)
Definition envRegex (s : string) : bool :=
  Str.forallb tag_char s && (1 <=? String.length s)%nat
  && (String.length s <=? 32)%nat.

(** [^(ios|android|web|desktop)$] *)
Definition platformRegex (s : string) : bool :=
  existsb (String.eqb s) ["ios"; "android"; "web"; "desktop"].

(** [^(GET|POST|PUT|PATCH|DELETE|HEAD|OPTIONS)$] *)
Definition methodRegex (s : string) : bool :=
  existsb (String.eqb s)
    ["GET"; "POST"; "PUT"; "PATCH"; "DELETE"; "HEAD"; "OPTIONS"].

Record ValidationError := mkValidationError {
  Field : string;
  Message : string
}.

Definition Error (e : ValidationError) : string :=
  Field e ++ ": " ++ Message e.

(** Signed 64-bit wrap-around of [int64] addition. *)
Definition wrap64 (z : Z) : Z :=
  ((z + 2 ^ 63) mod 2 ^ 64 - 2 ^ 63)%Z.

Definition required_then (field value : string) (ok : bool) (msg : string)
  : list ValidationError :=
  if String.eqb value "" then [mkValidationError field "required"]
  else if negb ok then [mkValidationError field msg]
  else [].

(** The body of the loop over [req.Request.Files]: the errors appended
    and the running [totalFileBytes]. *)
Fixpoint validate_files (cfg : config.Config) (i : Z) (files : list FileInfo)
    (total : Z) : list ValidationError * Z :=
  match files with
  | [] => ([], total)
  | file :: rest =>
      let idx := ("request.files[" ++ strconv.Itoa i ++ "]")%string in
      let e1 :=
        if String.eqb (Filename file) ""
        then [mkValidationError (idx ++ ".filename")%string "required"] else [] in
      let e2 :=
        if (Bytes file <? 0)%Z
        then [mkValidationError (idx ++ ".bytes")%string "cannot be negative"]
        else if (Bytes file >? config.MaxFileBytes cfg)%Z
        then [mkValidationError (idx ++ ".bytes")%string
                ("exceeds maximum allowed size ("
                   ++ strconv.Itoa (config.MaxFileBytes cfg)
                   ++ " bytes)")%string]
        else [] in
      let '(es, total') :=
        validate_files cfg (i + 1) rest (wrap64 (total + Bytes file)) in
      (e1 ++ e2 ++ es, total')
  end.

Definition ValidateUploadTicketRequest (W : World)
    (req : UploadTicketRequest) (cfg : config.Config)
  : list ValidationError :=
  let r := Request req in
  let eProject :=
    required_then "project" (Project req) (projectRegex (Project req))
      "invalid format (alphanumeric, underscore, hyphen, max 64 chars)" in
  let eEnv :=
    required_then "env" (Env req) (envRegex (Env req))
      "invalid format (alphanumeric, underscore, hyphen, max 32 chars)" in
  let eMethod :=
    required_then "request.method" (Method r)
      (methodRegex (ToUpper W (Method r))) "invalid HTTP method" in
  let eURL :=
    required_then "request.url" (URL r)
      (Str.HasPrefix (URL r) "http://" || Str.HasPrefix (URL r) "https://")
      "must be a valid HTTP(S) URL" in
  let eBody :=
    if (BodyBytes r <? 0)%Z
    then [mkValidationError "request.bodyBytes" "cannot be negative"]
    else if (BodyBytes r >? config.MaxBodyBytes cfg)%Z
    then [mkValidationError "request.bodyBytes"
            ("exceeds maximum allowed size ("
               ++ strconv.Itoa (config.MaxBodyBytes cfg)
               ++ " bytes)")%string]
    else [] in
  let '(eFiles, totalFileBytes) := validate_files cfg 0 (Files r) 0 in
  let totalBytes := wrap64 (BodyBytes r + totalFileBytes) in
  let eTotal :=
    if (totalBytes >? config.MaxTotalBytes cfg)%Z
    then [mkValidationError "totalBytes"
            ("total upload size exceeds maximum ("
               ++ strconv.Itoa (config.MaxTotalBytes cfg)
               ++ " bytes)")%string]
    else [] in
  let ePlatform :=
    if negb (String.eqb (Platform (Client req)) "")
       && negb (platformRegex (ToLower W (Platform (Client req))))
    then [mkValidationError "client.platform"
            "must be one of: ios, android, web, desktop"]
    else [] in
  eProject ++ eEnv ++ eMethod ++ eURL ++ eBody ++ eFiles ++ eTotal
    ++ ePlatform.

Definition ValidateUploadCompleteRequest (req : UploadCompleteRequest)
  : list ValidationError :=
  let eID :=
    if String.eqb (FailureID req) ""
    then [mkValidationError "failureId" "required"] else [] in
  let eProject :=
    required_then "project" (CProject req) (projectRegex (CProject req))
      "invalid format" in
  let eEnv :=
    required_then "env" (CEnv req) (envRegex (CEnv req))
      "invalid format" in
  let eKeys :=
    if Nat.eqb (List.length (UploadedKeys req)) 0
    then [mkValidationError "uploadedKeys" "required"] else [] in
  eID ++ eProject ++ eEnv ++ eKeys.

End validation.

(* ================================================================== *)
(** * Package [s3client] *)
(* ================================================================== *)

Module s3client.
Import Eff.

Record Presigner := mkPresigner {
  bucket : string;
  ttl : Z
}.

Section WithWorld.
Variable W : World.

Definition PresignPut (p : Presigner) (key contentType : string)
  : M (string * option error) :=
  emit (CallPresignPut (bucket p) key contentType (ttl p)) ;;;
  match PresignPutObject W (bucket p) key contentType (ttl p) with
  | inr err =>
      log ErrorLevel [Err err; Str "key" key] "failed to presign PUT URL" ;;;
      ret ("", Some err)
  | inl url => ret (url, None)
  end.

Definition PresignGet (p : Presigner) (key : string)
  : M (string * option error) :=
  emit (CallPresignGet (bucket p) key (ttl p)) ;;;
  match PresignGetObject W (bucket p) key (ttl p) with
  | inr err =>
      log ErrorLevel [Err err; Str "key" key] "failed to presign GET URL" ;;;
      ret ("", Some err)
  | inl url => ret (url, None)
  end.

(** Whatever error [HeadObject] returns, the answer is [(false, nil)]. *)
Definition ObjectExists (p : Presigner) (key : string)
  : M (bool * option error) :=
  emit (CallHeadObject (bucket p) key) ;;;
  match HeadObject W (bucket p) key with
  | Some _ => ret (false, None)
  | None => ret (true, None)
  end.

(** The loop of [VerifyObjectsExist], [missing] being the slice built
    so far. *)
Fixpoint verify_loop (p : Presigner) (keys missing : list string)
  : M (list string * option error) :=
  match keys with
  | [] => ret (missing, None)
  | key :: rest =>
      r <- ObjectExists p key ;;
      match snd r with
      | Some err => ret ([], Some err)
      | None =>
          if negb (fst r) then verify_loop p rest (missing ++ [key])
          else verify_loop p rest missing
      end
  end.

Definition VerifyObjectsExist (p : Presigner) (keys : list string)
  : M (list string * option error) :=
  verify_loop p keys [].

End WithWorld.

End s3client.

(* ================================================================== *)
(** * Package [email] *)
(* ================================================================== *)

Module email.
Import Eff email_types.

Record Sender := mkSender {
  from : string;
  to : string
}.

Section WithWorld.
Variable W : World.

Definition SendFailureNotification (s : Sender) (notif : FailureNotification)
  : M (option error) :=
  let subject :=
    ("[" ++ NProject notif ++ "/" ++ NEnv notif
       ++ "] Failed Request Captured: " ++ NFailureID notif)%string in
  let input := mkSendEmailInput (from s) (to s) subject notif in
  emit (CallSendEmail input) ;;;
  match SendEmail W input with
  | Some err =>
      log ErrorLevel [Err err; Str "failureId" (NFailureID notif)]
        "failed to send email notification" ;;;
      ret (Some err)
  | None =>
      log InfoLevel [Str "failureId" (NFailureID notif); Str "to" (to s)]
        "email notification sent" ;;;
      ret None
  end.

End WithWorld.

End email.

(* ================================================================== *)
(** * Package [handlers] *)
(* ================================================================== *)

Module handlers.
Import Eff models email_types.

Record Handler := mkHandler {
  cfg : config.Config;
  presigner : s3client.Presigner;
  emailer : option email.Sender      (* nil when SES could not be set up *)
}.

(** What [json.NewDecoder(r.Body).Decode(&req)] leaves when it returns: an
    error or the decoded value.  The handlers are modelled from that point
    on.  A [Decode] that does not return normally (a nil [r.Body], a
    reader that never reports the end of a truncated body) is no value of
    this type, and no statement about [UploadTicket] or [UploadComplete]
    speaks of such a request. *)
Inductive Decoded (A : Type) :=
| DecodeFailed (msg : string)
| DecodeOK (req : A).
Arguments DecodeFailed {A} msg.
Arguments DecodeOK {A} req.

Inductive Body :=
| TicketJSON (r : UploadTicketResponse)
| CompleteJSON (r : UploadCompleteResponse)
| ErrorJSON (r : ErrorResponse)
| Recovered.   (* a panic (nil dereference) caught by chi's Recoverer *)

(** What a handler writes to its [http.ResponseWriter]. *)
Record Response := mkResponse {
  StatusCode : Z;
  Payload : Body
}.

Definition writeJSON (status : Z) (data : Body) : M Response :=
  ret (mkResponse status data).

Definition writeError (status : Z) (code message details : string)
  : M Response :=
  writeJSON status (ErrorJSON (mkErrorResponse message code details)).

(** The messages are collected and then not sent. *)
Definition writeValidationErrors (errs : list validation.ValidationError)
  : M Response :=
  let messages := map validation.Error errs in
  writeError 400 "validation_error" "Validation failed" "".

Definition orDefault (contentType : string) : string :=
  if String.eqb contentType "" then "application/octet-stream"
  else contentType.

Section WithWorld.
Variable W : World.

(** The loop over [req.Request.Files] in [generatePresignedURLs]. *)
Fixpoint presign_files (h : Handler) (kb : keys.Builder)
    (files : list FileInfo) (uploads : UploadURLs)
  : M (option UploadURLs * option error) :=
  match files with
  | [] => ret (Some uploads, None)
  | file :: rest =>
      let ct := orDefault (FileContentType file) in
      r <- s3client.PresignPut W (presigner h)
             (keys.File kb (Filename file)) ct ;;
      match snd r with
      | Some err => ret (None, Some err)
      | None =>
          presign_files h kb rest
            (mkUploadURLs (UEnvelope uploads) (URequestRaw uploads)
               (URequestHeaders uploads) (UResponseRaw uploads)
               (UFiles uploads
                  ++ [mkPresignedUpload (keys.File kb (Filename file))
                        (fst r)])
               (UChecksums uploads))
      end
  end.

Definition generatePresignedURLs (h : Handler) (kb : keys.Builder)
    (req : UploadTicketRequest)
  : M (option UploadURLs * option error) :=
  let p := presigner h in
  (* Envelope *)
  r1 <- s3client.PresignPut W p (keys.Envelope kb) "application/json" ;;
  match snd r1 with
  | Some err => ret (None, Some err)
  | None =>
  let envelope := mkPresignedUpload (keys.Envelope kb) (fst r1) in
  (* Request raw *)
  let contentType := orDefault (ContentType (Request req)) in
  r2 <- s3client.PresignPut W p (keys.RequestRaw kb) contentType ;;
  match snd r2 with
  | Some err => ret (None, Some err)
  | None =>
  let requestRaw := mkPresignedUpload (keys.RequestRaw kb) (fst r2) in
  (* Request headers *)
  r3 <- s3client.PresignPut W p (keys.RequestHeaders kb)
          "application/json" ;;
  match snd r3 with
  | Some err => ret (None, Some err)
  | None =>
  let requestHeaders :=
    mkPresignedUpload (keys.RequestHeaders kb) (fst r3) in
  (* Response raw *)
  r4 <- s3client.PresignPut W p (keys.ResponseRaw kb)
          "application/octet-stream" ;;
  match snd r4 with
  | Some err => ret (None, Some err)
  | None =>
  let responseRaw := mkPresignedUpload (keys.ResponseRaw kb) (fst r4) in
  (* Checksums *)
  r5 <- s3client.PresignPut W p (keys.Checksums kb) "application/json" ;;
  match snd r5 with
  | Some err => ret (None, Some err)
  | None =>
  let checksums := mkPresignedUpload (keys.Checksums kb) (fst r5) in
  (* Files *)
  presign_files h kb (Files (Request req))
    (mkUploadURLs envelope requestRaw requestHeaders responseRaw []
       checksums)
  end end end end end.

(** [POST /v1/upload-ticket].  [ExpiresInSeconds] is
    [int(cfg.PresignTTL.Seconds())]: the whole seconds of the duration,
    which [config.Load] builds from a number of seconds.  [Seconds] adds
    the whole seconds and the remaining nanoseconds as [float64]; for a
    duration of whole seconds that sum is exact and is the quotient
    below, while a duration with a fraction of a second and 2^24 seconds
    or more may round up by one, which the quotient does not follow. *)
Definition UploadTicket (h : Handler) (body : Decoded UploadTicketRequest)
  : M Response :=
  match body with
  | DecodeFailed msg =>
      writeError 400 "invalid_json" "Failed to parse request body" msg
  | DecodeOK req =>
      match validation.ValidateUploadTicketRequest W req (cfg h) with
      | _ :: _ as errs => writeValidationErrors errs
      | [] =>
          let failureID := NewUUID W in
          let keyBuilder :=
            keys.NewBuilder (Now W) (Project req) (Env req) failureID in
          log InfoLevel [Str "failureId" failureID; Str "project" (Project req);
                    Str "env" (Env req)] "creating upload ticket" ;;;
          r <- generatePresignedURLs h keyBuilder req ;;
          match snd r, fst r with
          | Some err, _ =>
              writeError 500 "presign_failed"
                "Failed to generate presigned URLs" ""
          | None, Some uploads =>
              writeJSON 200
                (TicketJSON
                   (mkUploadTicketResponse failureID
                      (keys.Prefix keyBuilder) uploads
                      (Z.quot (config.PresignTTL (cfg h)) 1000000000)))
          | None, None => ret (mkResponse 500 Recovered)
          end
      end
  end.

(** [POST /v1/upload-complete] *)
Definition UploadComplete (h : Handler)
    (body : Decoded UploadCompleteRequest) : M Response :=
  match body with
  | DecodeFailed msg =>
      writeError 400 "invalid_json" "Failed to parse request body" msg
  | DecodeOK req =>
      match validation.ValidateUploadCompleteRequest req with
      | _ :: _ as errs => writeValidationErrors errs
      | [] =>
          log InfoLevel [Str "failureId" (FailureID req);
                    Str "project" (CProject req); Str "env" (CEnv req);
                    Int "uploadedKeys"
                      (Z.of_nat (List.length (UploadedKeys req)))]
            "processing upload complete" ;;;
          (* Verify all uploaded keys exist in S3 *)
          v <- s3client.VerifyObjectsExist W (presigner h)
                 (UploadedKeys req) ;;
          match snd v with
          | Some err =>
              log ErrorLevel [Err err] "failed to verify objects" ;;;
              writeError 500 "verification_failed"
                "Failed to verify uploaded objects" ""
          | None =>
              let missing := fst v in
              if Nat.ltb 0 (List.length missing) then
                log WarnLevel [Str "failureId" (FailureID req);
                          Strs "missing" missing]
                  "missing objects in S3" ;;;
                writeError 400 "missing_objects"
                  "Some objects were not found in S3" ""
              else
                (* Generate presigned GET URL for envelope *)
                let keyBuilder :=
                  keys.NewBuilder (Now W) (CProject req) (CEnv req)
                    (FailureID req) in
                g <- s3client.PresignGet W (presigner h)
                       (keys.Envelope keyBuilder) ;;
                u <- match snd g with
                     | Some err =>
                         log ErrorLevel [Err err]
                           "failed to generate envelope URL" ;;;
                         ret ""
                     | None => ret (fst g)
                     end ;;
                (* Send email notification *)
                match emailer h with
                | Some sender =>
                    let notif :=
                      mkFailureNotification (FailureID req) (CProject req)
                        (CEnv req) "" "" "" "" u in
                    e <- email.SendFailureNotification W sender notif ;;
                    match e with
                    | Some err =>
                        log ErrorLevel [Err err]
                          "failed to send email notification"
                    | None => ret tt
                    end
                | None => ret tt
                end ;;;
                log InfoLevel [Str "failureId" (FailureID req)]
                  "upload complete processed successfully" ;;;
                writeJSON 200
                  (CompleteJSON (mkUploadCompleteResponse "ok"))
          end
      end
  end.

End WithWorld.

End handlers.

(* ================================================================== *)
(** * Vocabulary of the specification *)
(* ================================================================== *)

Module Spec.

(** A bundle identifier as the Ticket Issuer generates it (a UUID string)
    or as the tests write it (["abc-123"]): a non-empty run of
    [[a-zA-Z0-9_-]]. *)
Definition valid_bundleID (s : string) : bool :=
  negb (String.eqb s "") && Str.forallb validation.tag_char s.

(** An identity that passed validation. *)
Definition valid_identity (b : keys.Builder) : bool :=
  validation.projectRegex (keys.project b)
  && validation.envRegex (keys.env b)
  && valid_bundleID (keys.failureID b).

(** A calendar date with a four-digit year. *)
Definition valid_date (t : time.Time) : bool :=
  ((0 <=? time.Year t) && (time.Year t <=? 9999)
   && (1 <=? time.Month t) && (time.Month t <=? 12)
   && (1 <=? time.Day t) && (time.Day t <=? 31))%Z.

(** The specification's "zero-padded" number: exactly [width] decimal
    digits, the low-order ones of [n]. *)
Fixpoint zero_padded (width : nat) (n : Z) : string :=
  match width with
  | O => ""
  | S w =>
      zero_padded w (n / 10)
        ++ String (strconv.digit_char (n mod 10)) ""
  end.

(** The number a string of decimal digits denotes, read left to right
    from [acc]. *)
Fixpoint decimal_value (s : string) (acc : Z) : Z :=
  match s with
  | EmptyString => acc
  | String c s' =>
      decimal_value s' (10 * acc + (Z.of_nat (nat_of_ascii c) - 48))
  end.

(** The prefix in the words of the specification's algorithm. *)
Definition derive_prefix (project env bundleID : string) (date : time.Time)
  : string :=
  "failures/" ++ project ++ "/" ++ env ++ "/"
    ++ zero_padded 4 (time.Year date) ++ "/"
    ++ zero_padded 2 (time.Month date) ++ "/"
    ++ zero_padded 2 (time.Day date)
    ++ "/" ++ bundleID ++ "/".

(** The KeySet of an identity: its prefix, the four required slots, the
    response slot and the attachment slot of each file name. *)
Record KeySet := mkKeySet {
  prefix : string;
  required : list string;
  response : string;
  attachment : string -> string
}.

(** [derive], for a builder made while the clock read [now] and then
    given the bundle's creation date. *)
Definition derive (now : time.Time) (project env bundleID : string)
    (date : time.Time) : KeySet :=
  let b := keys.WithDate (keys.NewBuilder now project env bundleID) date in
  mkKeySet (keys.Prefix b) (keys.RequiredKeys b) (keys.ResponseRaw b)
    (keys.File b).

(** The keys of the fixed slots. *)
Definition slot_keys (k : KeySet) : list string := required k ++ [response k].

(** The path elements of a builder's prefix, before its trailing slash. *)
Definition elements (b : keys.Builder) : list string :=
  ["failures"; keys.project b; keys.env b;
   time.appendInt (time.Year (keys.date b)) 4;
   time.appendInt (time.Month (keys.date b)) 2;
   time.appendInt (time.Day (keys.date b)) 2;
   keys.failureID b].

(** [p] is a leading part of [s]. *)
Definition is_prefix_of (p s : string) : Prop :=
  exists rest, s = (p ++ rest)%string.

(** A file name that is a clean relative path: every element between
    slashes is plain. *)
Definition clean_relative (filename : string) : bool :=
  List.forallb path.plain (Str.split_on Str.slash filename).

(** The object is in the bucket: [HeadObject] succeeds. *)
Definition present (W : World) (p : s3client.Presigner) (key : string)
  : bool :=
  match HeadObject W (s3client.bucket p) key with
  | None => true
  | Some _ => false
  end.

(** The object is cleanly reported as not in the bucket. *)
Definition absent (W : World) (p : s3client.Presigner) (key : string)
  : bool :=
  match HeadObject W (s3client.bucket p) key with
  | Some ErrNotFound => true
  | _ => false
  end.

(** The existence check itself failed (transport, credentials, ...). *)
Definition check_errored (W : World) (p : s3client.Presigner)
    (key : string) : bool :=
  match HeadObject W (s3client.bucket p) key with
  | Some (ErrOther _) => true
  | _ => false
  end.

(** The keys of [keys] that [VerifyObjectsExist] does not find. *)
Definition not_found (W : World) (p : s3client.Presigner)
    (keys : list string) : list string :=
  filter (fun k => negb (present W p k)) keys.

Definition is_send (e : Eff.Event) : bool :=
  match e with Eff.CallSendEmail _ => true | _ => false end.

(** How often the Notifier's send operation was invoked. *)
Definition send_attempts (t : list Eff.Event) : nat :=
  List.length (filter is_send t).

Definition is_presign_put (e : Eff.Event) : bool :=
  match e with Eff.CallPresignPut _ _ _ _ => true | _ => false end.

(** How many write-authorizations were requested. *)
Definition presign_put_requests (t : list Eff.Event) : nat :=
  List.length (filter is_presign_put t).

(** The success acknowledgment of [UploadComplete]. *)
Definition acknowledged : handlers.Response :=
  handlers.mkResponse 200
    (handlers.CompleteJSON (models.mkUploadCompleteResponse "ok")).

(** The failure responses. *)
Definition failure (status : Z) (code message : string) : handlers.Response :=
  handlers.mkResponse status
    (handlers.ErrorJSON (models.mkErrorResponse message code "")).

Definition missing_objects : handlers.Response :=
  failure 400 "missing_objects" "Some objects were not found in S3".

Definition verification_failed : handlers.Response :=
  failure 500 "verification_failed" "Failed to verify uploaded objects".

Definition presign_failed : handlers.Response :=
  failure 500 "presign_failed" "Failed to generate presigned URLs".

(** The warning that lists the keys not found. *)
Definition missing_warning (failureID : string) (missing : list string)
  : Eff.Event :=
  Eff.Log Eff.WarnLevel
    [Eff.Str "failureId" failureID; Eff.Strs "missing" missing]
    "missing objects in S3".

(** The first part of a validated completion request's run: the opening
    log line and the existence checks. *)
Definition checked (h : handlers.Handler)
    (req : models.UploadCompleteRequest)
  : list Eff.Event :=
  Eff.Log Eff.InfoLevel
    [Eff.Str "failureId" (models.FailureID req);
     Eff.Str "project" (models.CProject req);
     Eff.Str "env" (models.CEnv req);
     Eff.Int "uploadedKeys"
       (Z.of_nat (List.length (models.UploadedKeys req)))]
    "processing upload complete"
  :: map (Eff.CallHeadObject (s3client.bucket (handlers.presigner h)))
       (models.UploadedKeys req).

(** The world [W] with SES answering every send with [r]. *)
Definition with_mail_answer (W : World) (r : option error) : World :=
  mkWorld (HeadObject W) (PresignPutObject W) (PresignGetObject W)
    (fun _ => r) (Now W) (NewUUID W) (ToUpper W) (ToLower W).

(** The builder [UploadTicket] makes for a validated request. *)
Definition ticket_builder (W : World) (req : models.UploadTicketRequest)
  : keys.Builder :=
  keys.NewBuilder (Now W) (models.Project req) (models.Env req) (NewUUID W).

(** The attachment slots of a request, with their content types. *)
Definition file_slots (kb : keys.Builder) (files : list models.FileInfo)
  : list (string * string) :=
  map (fun f => (keys.File kb (models.Filename f),
                 handlers.orDefault (models.FileContentType f))) files.

(** The slots [generatePresignedURLs] requests a write-authorization for,
    with their content types, in request order. *)
Definition ticket_slots (kb : keys.Builder) (req : models.UploadTicketRequest)
  : list (string * string) :=
  [ (keys.Envelope kb, "application/json");
    (keys.RequestRaw kb,
     handlers.orDefault (models.ContentType (models.Request req)));
    (keys.RequestHeaders kb, "application/json");
    (keys.ResponseRaw kb, "application/octet-stream");
    (keys.Checksums kb, "application/json") ]
  ++ file_slots kb (models.Files (models.Request req)).

(** The answer of the Storage Authority for a slot. *)
Definition authority (W : World) (p : s3client.Presigner)
    (slot : string * string) : string + error :=
  PresignPutObject W (s3client.bucket p) (fst slot) (snd slot)
    (s3client.ttl p).

(** The error of the first slot, in order, that is refused. *)
Fixpoint first_refusal (W : World) (p : s3client.Presigner)
    (slots : list (string * string)) : option error :=
  match slots with
  | [] => None
  | slot :: rest =>
      match authority W p slot with
      | inr err => Some err
      | inl _ => first_refusal W p rest
      end
  end.

(** The write-authorization granted for a slot. *)
Definition grant (W : World) (p : s3client.Presigner)
    (slot : string * string) : models.PresignedUpload :=
  models.mkPresignedUpload (fst slot)
    (match authority W p slot with inl url => url | inr _ => "" end).

(** [uploads] with more entries appended to its [Files]. *)
Definition add_files (uploads : models.UploadURLs)
    (more : list models.PresignedUpload) : models.UploadURLs :=
  models.mkUploadURLs (models.UEnvelope uploads) (models.URequestRaw uploads)
    (models.URequestHeaders uploads) (models.UResponseRaw uploads)
    (models.UFiles uploads ++ more) (models.UChecksums uploads).

(** The Storage Authority refuses the write-authorization of a slot. *)
Definition refused (W : World) (p : s3client.Presigner)
    (slot : string * string) : bool :=
  match authority W p slot with
  | inr _ => true
  | inl _ => false
  end.

End Spec.

(* ================================================================== *)
(** * Sample worlds and requests *)
(* ================================================================== *)

Module Samples.
Import models.

Definition mem (k : string) (l : list string) : bool :=
  existsb (String.eqb k) l.

Definition march15 : time.Time := time.mkTime 2024 3 15 10 30 0.
Definition december1 : time.Time := time.mkTime 2024 12 1 0 0 0.

(** A bucket holding exactly [present]; [HeadObject] on a key of
    [unreachable] fails in transport; presigning a PUT fails for the keys
    of [refused]; SES accepts mail iff [mail_ok]. *)
Definition world (present unreachable refused : list string)
    (mail_ok : bool) : World :=
  mkWorld
    (fun _ key =>
       if mem key unreachable then Some (ErrOther "RequestTimeout")
       else if mem key present then None else Some ErrNotFound)
    (fun bucket key _ _ =>
       if mem key refused then inr (ErrOther "ExpiredToken")
       else inl ("https://" ++ bucket ++ ".s3/" ++ key ++ "?put")%string)
    (fun bucket key _ =>
       inl ("https://" ++ bucket ++ ".s3/" ++ key ++ "?get")%string)
    (fun _ => if mail_ok then None else Some (ErrOther "MessageRejected"))
    march15
    "550e8400-e29b-41d4-a716-446655440000"
    (fun s => s)
    (fun s => s).

Definition the_cfg : config.Config :=
  config.mkConfig 900000000000 10485760 52428800 104857600.

Definition the_presigner : s3client.Presigner :=
  s3client.mkPresigner "failure-uploads" 900000000000.

Definition with_mail : handlers.Handler :=
  handlers.mkHandler the_cfg the_presigner
    (Some (email.mkSender "noreply@example.com" "owner@example.com")).

Definition without_mail : handlers.Handler :=
  handlers.mkHandler the_cfg the_presigner None.

Definition builder : keys.Builder :=
  keys.WithDate (keys.NewBuilder december1 "myapp" "prod" "abc-123") march15.

Definition k_envelope := "failures/myapp/prod/2024/03/15/abc-123/envelope.json".
Definition k_request := "failures/myapp/prod/2024/03/15/abc-123/request.raw".
Definition k_headers :=
  "failures/myapp/prod/2024/03/15/abc-123/request.headers.json".
Definition k_checksums :=
  "failures/myapp/prod/2024/03/15/abc-123/checksums.json".

Definition four_keys : list string :=
  [k_envelope; k_request; k_headers; k_checksums].

Definition claim (id project env : string) (ks : list string)
  : UploadCompleteRequest :=
  mkUploadCompleteRequest id project env ks [].

Definition ticket_request (files : list FileInfo) : UploadTicketRequest :=
  mkUploadTicketRequest "myapp" "prod"
    (mkRequestInfo "POST" "https://api.example.com/v1/submit"
       "application/json" 1024 files)
    (mkClientInfo "1.2.3" "ios").

Definition photo (filename : string) : FileInfo :=
  mkFileInfo "photo" filename "image/jpeg" 345678.

End Samples.

(* ================================================================== *)
(** * Further notions about keys *)
(* ================================================================== *)

Module Notions.

(** A file name none of whose elements is [..]. *)
Definition no_dotdot (filename : string) : bool :=
  List.forallb (fun e => negb (String.eqb e ".."))
    (Str.split_on Str.slash filename).

(** The builder of another bundle of the same project, environment and
    day. *)
Definition with_failureID (b : keys.Builder) (id : string) : keys.Builder :=
  keys.mkBuilder (keys.project b) (keys.env b) id (keys.date b).

(** What the loop over the files checks of one file. *)
Definition file_ok (cfg : config.Config) (f : models.FileInfo) : bool :=
  negb (String.eqb (models.Filename f) "")
  && (0 <=? models.Bytes f)%Z
  && (models.Bytes f <=? config.MaxFileBytes cfg)%Z.

(** [totalFileBytes] as the loop computes it, in [int64]. *)
Definition running_total (files : list models.FileInfo) (start : Z) : Z :=
  fold_left (fun t f => validation.wrap64 (t + models.Bytes f)) files start.

(** The sum of the declared file sizes, as a number. *)
Definition declared_file_bytes (files : list models.FileInfo) : Z :=
  fold_right (fun f s => models.Bytes f + s)%Z 0%Z files.

(** Everything [ValidateUploadTicketRequest] requires of a request. *)
Definition ticket_request_ok (W : World) (cfg : config.Config)
    (req : models.UploadTicketRequest) : bool :=
  let r := models.Request req in
  validation.projectRegex (models.Project req)
  && validation.envRegex (models.Env req)
  && negb (String.eqb (models.Method r) "")
  && validation.methodRegex (ToUpper W (models.Method r))
  && (Str.HasPrefix (models.URL r) "http://"
      || Str.HasPrefix (models.URL r) "https://")
  && (0 <=? models.BodyBytes r)%Z
  && (models.BodyBytes r <=? config.MaxBodyBytes cfg)%Z
  && List.forallb (file_ok cfg) (models.Files r)
  && (validation.wrap64
        (models.BodyBytes r + running_total (models.Files r) 0)
      <=? config.MaxTotalBytes cfg)%Z
  && (String.eqb (models.Platform (models.Client req)) ""
      || validation.platformRegex
           (ToLower W (models.Platform (models.Client req)))).

(** Everything [ValidateUploadCompleteRequest] requires of a claim. *)
Definition complete_request_ok (req : models.UploadCompleteRequest) : bool :=
  negb (String.eqb (models.FailureID req) "")
  && validation.projectRegex (models.CProject req)
  && validation.envRegex (models.CEnv req)
  && negb (Nat.eqb (List.length (models.UploadedKeys req)) 0).

(** The responses [UploadComplete] has a [writeJSON] or [writeError] call
    for, apart from [verification_failed]. *)
Definition invalid_json (msg : string) : handlers.Response :=
  handlers.mkResponse 400
    (handlers.ErrorJSON
       (models.mkErrorResponse "Failed to parse request body" "invalid_json"
          msg)).

Definition validation_error : handlers.Response :=
  Spec.failure 400 "validation_error" "Validation failed".

(** The write-authorization requests of a trace: key and content type,
    in order. *)
Fixpoint presign_put_calls (t : list Eff.Event) : list (string * string) :=
  match t with
  | [] => []
  | Eff.CallPresignPut _ key contentType _ :: rest =>
      (key, contentType) :: presign_put_calls rest
  | _ :: rest => presign_put_calls rest
  end.

(** The keys a read-authorization was requested for. *)
Fixpoint presign_get_keys (t : list Eff.Event) : list string :=
  match t with
  | [] => []
  | Eff.CallPresignGet _ key _ :: rest => key :: presign_get_keys rest
  | _ :: rest => presign_get_keys rest
  end.

(** The mails handed to SES. *)
Fixpoint sent_mails (t : list Eff.Event) : list email_types.SendEmailInput :=
  match t with
  | [] => []
  | Eff.CallSendEmail input :: rest => input :: sent_mails rest
  | _ :: rest => sent_mails rest
  end.

(** The slots up to and including the first one that is refused. *)
Fixpoint attempted (W : World) (p : s3client.Presigner)
    (slots : list (string * string)) : list (string * string) :=
  match slots with
  | [] => []
  | slot :: rest =>
      slot :: (if Spec.refused W p slot then [] else attempted W p rest)
  end.

(** The read URL that [UploadComplete] obtains for a claim's envelope, or
    the empty string. *)
Definition envelope_url (W : World) (h : handlers.Handler)
    (req : models.UploadCompleteRequest) : string :=
  match PresignGetObject W (s3client.bucket (handlers.presigner h))
          (keys.Envelope
             (keys.NewBuilder (Now W) (models.CProject req)
                (models.CEnv req) (models.FailureID req)))
          (s3client.ttl (handlers.presigner h)) with
  | inl url => url
  | inr _ => ""
  end.

(** The mail [UploadComplete] sends for a claim. *)
Definition completion_mail (W : World) (h : handlers.Handler)
    (sender : email.Sender) (req : models.UploadCompleteRequest)
  : email_types.SendEmailInput :=
  email_types.mkSendEmailInput (email.from sender) (email.to sender)
    ("[" ++ models.CProject req ++ "/" ++ models.CEnv req
       ++ "] Failed Request Captured: " ++ models.FailureID req)
    (email_types.mkFailureNotification (models.FailureID req)
       (models.CProject req) (models.CEnv req) "" "" "" ""
       (envelope_url W h req)).

(** The names of the five fixed slots, in the order of the requests. *)
Definition slot_names : list string :=
  ["envelope.json"; "request.raw"; "request.headers.json"; "response.raw";
   "checksums.json"].

End Notions.

(* ================================================================== *)
(** * Package [strconv]: parsing decimal integers *)
(* ================================================================== *)

Module strconv_parse.

Definition is_digit (c : ascii) : bool :=
  (48 <=? nat_of_ascii c)%nat && (nat_of_ascii c <=? 57)%nat.

(** The digits of an unsigned decimal number; [None] is a syntax error. *)
Fixpoint parse_digits (s : string) (acc : Z) : option Z :=
  match s with
  | EmptyString => Some acc
  | String c s' =>
      if is_digit c
      then parse_digits s' (10 * acc + (Z.of_nat (nat_of_ascii c) - 48))
      else None
  end.

(** [strconv.ParseInt(s, 10, 64)]; [None] stands for a non-nil error
    (syntax or range).  An optional sign, then at least one digit, and the
    value must fit [int64]. *)
Definition ParseInt (s : string) : option Z :=
  match s with
  | EmptyString => None
  | String c rest =>
      let neg := Ascii.eqb c "-" in
      let digits :=
        if Ascii.eqb c "+" || Ascii.eqb c "-" then rest else s in
      if String.eqb digits "" then None
      else
        match parse_digits digits 0 with
        | None => None
        | Some un =>
            if neg then (if (un >? 2 ^ 63)%Z then None else Some (- un)%Z)
            else (if (un >=? 2 ^ 63)%Z then None else Some un)
        end
  end.

(** [strconv.Atoi], [int] being 64 bits wide on the platform the Makefile
    builds for ([GOARCH=amd64]). *)
Definition Atoi (s : string) : option Z := ParseInt s.

End strconv_parse.

(* ================================================================== *)
(** * Package [config]: loading from the environment *)
(* ================================================================== *)

(** [config.Config] above holds the fields the handlers and the validators
    read; [settings.Config] is the whole struct as [Load] fills it. *)
Module settings.

Record Config := mkConfig {
  BucketName : string;
  AWSRegion : string;
  SESFrom : string;
  SESTo : string;
  PresignTTL : Z;               (* time.Duration, nanoseconds *)
  APIKey : string;
  Stage : string;
  MaxBodyBytes : Z;
  MaxFileBytes : Z;
  MaxTotalBytes : Z;
  AuthEnabled : bool
}.

Section WithEnvironment.
(** [os.Getenv]: the empty string for a variable that is not set. *)
Variable Getenv : string -> string.

Definition getEnv (key defaultVal : string) : string :=
  let val := Getenv key in
  if negb (String.eqb val "") then val else defaultVal.

Definition getEnvInt (key : string) (defaultVal : Z) : Z :=
  let val := Getenv key in
  if negb (String.eqb val "") then
    match strconv_parse.Atoi val with
    | Some i => i
    | None => defaultVal
    end
  else defaultVal.

Definition getEnvInt64 (key : string) (defaultVal : Z) : Z :=
  let val := Getenv key in
  if negb (String.eqb val "") then
    match strconv_parse.ParseInt val with
    | Some i => i
    | None => defaultVal
    end
  else defaultVal.

Definition Load : Config :=
  let presignTTL := getEnvInt "PRESIGN_TTL_SECONDS" 900 in
  let apiKey := Getenv "API_KEY" in
  mkConfig
    (getEnv "BUCKET_NAME" "failure-uploads")
    (getEnv "AWS_REGION" "us-east-1")
    (getEnv "SES_FROM" "noreply@example.com")
    (getEnv "SES_TO" "owner@example.com")
    (validation.wrap64 (presignTTL * 1000000000))
    apiKey
    (getEnv "STAGE" "dev")
    (getEnvInt64 "MAX_BODY_BYTES" (10 * 1024 * 1024))
    (getEnvInt64 "MAX_FILE_BYTES" (50 * 1024 * 1024))
    (getEnvInt64 "MAX_TOTAL_BYTES" (100 * 1024 * 1024))
    (negb (String.eqb apiKey "")
     && negb (String.eqb (getEnv "STAGE" "dev") "dev")).

End WithEnvironment.

(** The part of the configuration the handlers read. *)
Definition for_handlers (c : Config) : config.Config :=
  config.mkConfig (PresignTTL c) (MaxBodyBytes c) (MaxFileBytes c)
    (MaxTotalBytes c).

End settings.

(* ================================================================== *)
(** * Package [middleware] *)
(* ================================================================== *)

Module http.

(** What the middleware reads of an [http.Request]; [HeaderGet] is
    [r.Header.Get]. *)
Record Request := mkRequest {
  Method : string;
  Path : string;
  RemoteAddr : string;
  UserAgent : string;
  HeaderGet : string -> string
}.

(** What a handler does to its [http.ResponseWriter] and to the logger,
    in order. *)
Inductive Action :=
| HeaderSet (key value : string)          (* w.Header().Set(key, value) *)
| WriteHeader (status : Z)                (* w.WriteHeader(status) *)
| Error (body : string) (code : Z)        (* http.Error(w, body, code) *)
| Logged (lvl : Eff.Level) (fields : list Eff.Field) (msg : string).

Definition Handler : Type := Request -> list Action.

End http.

Module middleware.
Import http.

Definition APIKeyHeader : string := "X-Api-Key".

Definition quote : string := String (ascii_of_nat 34) "".

(** The body [{"error":<message>,"code":"unauthorized"}]. *)
Definition unauthorized (message : string) : string :=
  "{" ++ quote ++ "error" ++ quote ++ ":" ++ quote ++ message ++ quote
    ++ "," ++ quote ++ "code" ++ quote ++ ":" ++ quote ++ "unauthorized"
    ++ quote ++ "}".

Definition APIKeyAuth (apiKey : string) (enabled : bool) (next : Handler)
  : Handler :=
  fun r =>
    (* Skip auth if disabled *)
    if negb enabled then next r
    else
      let providedKey := HeaderGet r APIKeyHeader in
      if String.eqb providedKey "" then
        [Logged Eff.WarnLevel
           [Eff.Str "path" (Path r); Eff.Str "method" (Method r)]
           "missing API key";
         Error (unauthorized "Missing API key") 401]
      else if negb (String.eqb providedKey apiKey) then
        [Logged Eff.WarnLevel
           [Eff.Str "path" (Path r); Eff.Str "method" (Method r)]
           "invalid API key";
         Error (unauthorized "Invalid API key") 401]
      else next r.

Definition RequestLogger (next : Handler) : Handler :=
  fun r =>
    Logged Eff.InfoLevel
      [Eff.Str "method" (Method r); Eff.Str "path" (Path r);
       Eff.Str "remote" (RemoteAddr r); Eff.Str "userAgent" (UserAgent r)]
      "incoming request"
    :: next r.

Definition JSONContentType (next : Handler) : Handler :=
  fun r => HeaderSet "Content-Type" "application/json" :: next r.

Definition CORS (next : Handler) : Handler :=
  fun r =>
    [HeaderSet "Access-Control-Allow-Origin" "*";
     HeaderSet "Access-Control-Allow-Methods" "GET, POST, OPTIONS";
     HeaderSet "Access-Control-Allow-Headers" "Content-Type, X-Api-Key"]
    ++ (if String.eqb (Method r) "OPTIONS" then [WriteHeader 200]
        else next r).

(** The middleware of this repository around a route under [/v1], in the
    order [router.New] installs it: the request logger and CORS for every
    route, then the API key check of the [/v1] group. *)
Definition v1_chain (cfg : settings.Config) (next : Handler) : Handler :=
  RequestLogger
    (CORS (APIKeyAuth (settings.APIKey cfg) (settings.AuthEnabled cfg) next)).

(** Whether the API key check lets a request through. *)
Definition admitted (apiKey : string) (enabled : bool) (r : Request) : bool :=
  negb enabled
  || (negb (String.eqb (HeaderGet r APIKeyHeader) "")
      && String.eqb (HeaderGet r APIKeyHeader) apiKey).

End middleware.

(* ================================================================== *)
(** * Command [lambda]: the request body reader and the response writer *)
(* ================================================================== *)

Module lambda.

Record stringReader := mkStringReader {
  s : string;
  i : nat
}.

(** [Read(p)] with [len(p) = size]: the bytes copied into [p], the error
    returned, and the reader afterwards.  The count [n] is the length of
    the bytes copied. *)
Definition Read (sr : stringReader) (size : nat)
  : string * option error * stringReader :=
  if (String.length (s sr) <=? i sr)%nat then ("", None, sr)
  else
    let data :=
      String.substring (i sr) (Nat.min size (String.length (s sr) - i sr))
        (s sr) in
    (data, None, mkStringReader (s sr) (i sr + String.length data)).

(** [count] calls of [Read] with buffers of [size] bytes: everything
    copied, in order, and the reader afterwards. *)
Fixpoint read_times (count size : nat) (sr : stringReader)
  : string * stringReader :=
  match count with
  | O => ("", sr)
  | S k =>
      let '(data, _, sr') := Read sr size in
      let '(more, sr'') := read_times k size sr' in
      ((data ++ more)%string, sr'')
  end.

Record responseWriter := mkResponseWriter {
  headers : list (string * list string);   (* http.Header *)
  body : string;
  status : Z
}.

(** The writer [handler] starts from. *)
Definition fresh : responseWriter := mkResponseWriter [] "" 200.

Definition Write (rw : responseWriter) (b : string) : responseWriter :=
  mkResponseWriter (headers rw) (body rw ++ b) (status rw).

Definition WriteHeader (rw : responseWriter) (code : Z) : responseWriter :=
  mkResponseWriter (headers rw) (body rw) code.

(** What a handler may do with the writer. *)
Inductive Call :=
| DoWrite (b : string)
| DoWriteHeader (code : Z).

Definition apply (rw : responseWriter) (c : Call) : responseWriter :=
  match c with
  | DoWrite b => Write rw b
  | DoWriteHeader code => WriteHeader rw code
  end.

(** Everything written, in order. *)
Fixpoint written (calls : list Call) : string :=
  match calls with
  | [] => ""
  | DoWrite b :: rest => (b ++ written rest)%string
  | DoWriteHeader _ :: rest => written rest
  end.

(** The status of the last [WriteHeader], if any. *)
Fixpoint last_status (calls : list Call) (current : Z) : Z :=
  match calls with
  | [] => current
  | DoWrite _ :: rest => last_status rest current
  | DoWriteHeader code :: rest => last_status rest code
  end.

End lambda.

(* ================================================================== *)
(** * More sample worlds *)
(* ================================================================== *)

Module MoreSamples.

(** The four keys of [abc-123] are in the bucket, SES accepts mail, and
    no read URL can be presigned. *)
Definition world_without_read_url : World :=
  mkWorld (HeadObject (Samples.world Samples.four_keys [] [] true))
    (PresignPutObject (Samples.world Samples.four_keys [] [] true))
    (fun _ _ _ => inr (ErrOther "ExpiredToken"))
    (fun _ => None) Samples.march15 "550e8400-e29b-41d4-a716-446655440000"
    (fun s => s) (fun s => s).

(** The same bucket a second after midnight of the next day. *)
Definition world_next_day : World :=
  mkWorld (HeadObject (Samples.world Samples.four_keys [] [] true))
    (PresignPutObject (Samples.world Samples.four_keys [] [] true))
    (PresignGetObject (Samples.world Samples.four_keys [] [] true))
    (fun _ => None) (time.mkTime 2024 3 16 0 0 1)
    "550e8400-e29b-41d4-a716-446655440000" (fun s => s) (fun s => s).

(** An environment that sets the validity of tickets to five minutes. *)
Definition five_minutes (key : string) : string :=
  if String.eqb key "PRESIGN_TTL_SECONDS" then "300" else "".

(** A handler configured from that environment, without email sender. *)
Definition loaded_handler : handlers.Handler :=
  handlers.mkHandler (settings.for_handlers (settings.Load five_minutes))
    Samples.the_presigner None.

(** An environment of a production stage with an API key. *)
Definition production (key : string) : string :=
  if String.eqb key "API_KEY" then "secret"
  else if String.eqb key "STAGE" then "prod" else "".

End MoreSamples.

(* ================================================================== *)
(** * Facts about byte strings *)
(* ================================================================== *)

Module StrFacts.
Import Str.

Lemma append_assoc (a b c : string) : ((a ++ b) ++ c = a ++ (b ++ c))%string.
Proof. induction a as [|x a IH]; simpl; [reflexivity | now rewrite IH]. Qed.

Lemma append_nil_r (a : string) : (a ++ "" = a)%string.
Proof. induction a as [|x a IH]; simpl; [reflexivity | now rewrite IH]. Qed.

Lemma append_inv_head (a b c : string) :
  (a ++ b = a ++ c)%string -> b = c.
Proof.
  induction a as [|x a IH]; simpl; intros H; [exact H|].
  injection H as H. now apply IH.
Qed.

Lemma length_append (a b : string) :
  String.length (a ++ b) = String.length a + String.length b.
Proof. induction a as [|x a IH]; simpl; [reflexivity | now rewrite IH]. Qed.

Lemma mem_append (c : ascii) (a b : string) :
  mem c (a ++ b) = mem c a || mem c b.
Proof.
  induction a as [|x a IH]; simpl; [reflexivity|].
  now rewrite IH, orb_assoc.
Qed.

Lemma forallb_append (p : ascii -> bool) (a b : string) :
  Str.forallb p (a ++ b) = Str.forallb p a && Str.forallb p b.
Proof.
  induction a as [|x a IH]; simpl; [reflexivity|].
  now rewrite IH, andb_assoc.
Qed.

Lemma forallb_impl (p q : ascii -> bool) (s : string) :
  (forall c, p c = true -> q c = true) ->
  Str.forallb p s = true -> Str.forallb q s = true.
Proof.
  intros Hpq. induction s as [|x s IH]; simpl; [reflexivity|].
  rewrite !andb_true_iff. intros [Hx Hs]. split; auto.
Qed.

(** A byte that fails [p] does not occur in a string whose bytes all
    satisfy [p]. *)
Lemma forallb_not_mem (p : ascii -> bool) (c : ascii) (s : string) :
  p c = false -> Str.forallb p s = true -> mem c s = false.
Proof.
  intros Hc. induction s as [|x s IH]; simpl; [reflexivity|].
  rewrite andb_true_iff. intros [Hx Hs].
  rewrite (IH Hs), orb_false_r.
  destruct (Ascii.eqb_spec x c) as [->|]; [congruence | reflexivity].
Qed.

Lemma split_on_not_nil (c : ascii) (s : string) : split_on c s <> [].
Proof.
  destruct s as [|a s]; simpl; [discriminate|].
  destruct (Ascii.eqb a c); [discriminate|].
  destruct (split_on c s); discriminate.
Qed.

(** A string without separator is its own single element. *)
Lemma split_on_no_sep (c : ascii) (s : string) :
  mem c s = false -> split_on c s = [s].
Proof.
  induction s as [|a s IH]; simpl; [reflexivity|].
  rewrite orb_false_iff. intros [Ha Hs].
  now rewrite Ha, (IH Hs).
Qed.

(** Splitting stops the first element at the first separator. *)
Lemma split_on_append (c : ascii) (a b : string) :
  mem c a = false ->
  split_on c (a ++ String c b) = a :: split_on c b.
Proof.
  induction a as [|x a IH]; simpl.
  - intros _. now rewrite Ascii.eqb_refl.
  - rewrite orb_false_iff. intros [Hx Ha].
    now rewrite Hx, (IH Ha).
Qed.

Lemma join_slash_cons (e : string) (rest : list string) :
  rest <> [] ->
  join_slash (e :: rest) = (e ++ String slash (join_slash rest))%string.
Proof. destruct rest; [congruence | reflexivity]. Qed.

Lemma join_slash_app (l1 l2 : list string) :
  l1 <> [] -> l2 <> [] ->
  join_slash (l1 ++ l2)
  = (join_slash l1 ++ String slash (join_slash l2))%string.
Proof.
  induction l1 as [|e l1 IH]; [congruence|]. intros _ H2.
  destruct l1 as [|e' l1].
  - simpl app. now rewrite join_slash_cons.
  - change ((e :: e' :: l1) ++ l2) with (e :: ((e' :: l1) ++ l2)).
    rewrite join_slash_cons by discriminate.
    rewrite IH by (discriminate || assumption).
    rewrite (join_slash_cons e (e' :: l1)) by discriminate.
    now rewrite append_assoc.
Qed.

(** Joining the elements of a string gives the string back. *)
Lemma join_split (s : string) : join_slash (split_on slash s) = s.
Proof.
  induction s as [|a s IH]; [reflexivity|]. simpl split_on.
  destruct (Ascii.eqb_spec a slash) as [->|Hne].
  - rewrite join_slash_cons by apply split_on_not_nil.
    now rewrite IH.
  - destruct (split_on slash s) as [|seg rest] eqn:E.
    + now destruct (split_on_not_nil slash s).
    + destruct rest as [|r rest]; simpl in *; now rewrite <- IH.
Qed.

(** Elements without slashes are what splitting their join returns. *)
Lemma split_join (l : list string) :
  l <> [] -> Forall (fun e => mem slash e = false) l ->
  split_on slash (join_slash l) = l.
Proof.
  induction l as [|e l IH]; [congruence|]. intros _ Hall.
  inversion Hall as [|? ? He Hl]; subst.
  destruct l as [|e' l].
  - simpl. now apply split_on_no_sep.
  - rewrite join_slash_cons by discriminate.
    rewrite split_on_append by assumption.
    now rewrite IH by (discriminate || assumption).
Qed.

Lemma HasPrefix_spec (s p : string) :
  HasPrefix s p = true <-> exists rest, s = (p ++ rest)%string.
Proof.
  unfold HasPrefix. revert s.
  induction p as [|a p IH]; intros s.
  - destruct s; simpl; split; eauto.
  - destruct s as [|b s]; simpl.
    + split; [discriminate | intros [r Hr]; discriminate].
    + destruct (ascii_dec a b) as [->|Hab].
      * rewrite IH. split; intros [r Hr]; exists r; congruence.
      * split; [discriminate|]. intros [r Hr]. congruence.
Qed.

End StrFacts.

(* ================================================================== *)
(** * Facts about [path.Clean] and [path.Join] *)
(* ================================================================== *)

Module PathFacts.
Import Str path StrFacts.

Lemma plain_inv (seg : string) :
  plain seg = true ->
  seg <> "" /\ mem slash seg = false /\ seg <> "." /\ seg <> "..".
Proof.
  unfold plain. rewrite !andb_true_iff, !negb_true_iff.
  intros [[[H1 H2] H3] H4].
  rewrite String.eqb_neq in H1, H3, H4. tauto.
Qed.

Lemma clean_step_plain (rooted : bool) (out : list string) (seg : string) :
  plain seg = true -> clean_step rooted out seg = seg :: out.
Proof.
  intros H. apply plain_inv in H. destruct H as (H1 & _ & H3 & H4).
  unfold clean_step.
  apply String.eqb_neq in H1, H3, H4. now rewrite H1, H3, H4.
Qed.

(** On elements that are empty or plain, cleaning only drops the empty
    ones. *)
Lemma fold_clean_step (rooted : bool) (segs out : list string) :
  Forall (fun e => e = "" \/ plain e = true) segs ->
  fold_left (clean_step rooted) segs out
  = rev (filter nonempty segs) ++ out.
Proof.
  intros Hall. revert out.
  induction Hall as [|e segs He _ IH]; intros out; [reflexivity|].
  simpl fold_left. simpl filter. destruct He as [->|He].
  - change (clean_step rooted out "") with out. simpl. apply IH.
  - rewrite clean_step_plain by assumption.
    destruct (plain_inv _ He) as (Hne & _).
    unfold nonempty at 1. apply String.eqb_neq in Hne. rewrite Hne.
    simpl. rewrite IH, <- app_assoc. reflexivity.
Qed.

Lemma filter_nonempty_plain (l : list string) :
  Forall (fun e => plain e = true) l -> filter nonempty l = l.
Proof.
  induction 1 as [|e l He _ IH]; [reflexivity|]. simpl.
  destruct (plain_inv _ He) as (Hne & _).
  unfold nonempty at 1. apply String.eqb_neq in Hne.
  now rewrite Hne, IH.
Qed.

Lemma join_slash_head (a : ascii) (f : string) (rest : list string) :
  exists tail, join_slash (String a f :: rest) = String a tail.
Proof. destruct rest; simpl; eauto. Qed.

(** [Clean] on a relative path whose first element is plain and whose
    other elements are plain or empty: the empty elements go, the rest
    stays. *)
Lemma Clean_join (first : string) (rest : list string) :
  plain first = true ->
  Forall (fun e => e = "" \/ plain e = true) rest ->
  Clean (join_slash (first :: rest))
  = join_slash (first :: filter nonempty rest).
Proof.
  intros Hf Hrest.
  destruct (plain_inv _ Hf) as (Hne & Hns & _).
  destruct first as [|a f]; [congruence|].
  simpl in Hns. apply orb_false_iff in Hns. destruct Hns as [Ha Hns'].
  assert (Hsplit : split_on slash (join_slash (String a f :: rest))
                   = String a f :: rest).
  { apply split_join; [discriminate|]. constructor.
    - simpl. now rewrite Ha, Hns'.
    - eapply Forall_impl; [|exact Hrest]. intros e [->|He]; [reflexivity|].
      now destruct (plain_inv _ He) as (_ & ? & _). }
  unfold Clean. rewrite Hsplit.
  destruct (join_slash_head a f rest) as [tail Et].
  destruct (join_slash_head a f (filter nonempty rest)) as [tail' Et'].

  assert (Hroot : HasPrefix (String a tail) "/" = false).
  { destruct (HasPrefix (String a tail) "/") eqn:E; [|reflexivity].
    apply HasPrefix_spec in E. destruct E as [r Er].
    injection Er as -> _. discriminate. }
  assert (Hfil : filter nonempty (String a f :: rest)
                 = String a f :: filter nonempty rest) by reflexivity.
  rewrite Et. change (String a tail =? "")%string with false. cbv iota.
  rewrite Hroot.
  rewrite (fold_clean_step false (String a f :: rest) [])
    by (constructor; [right; exact Hf | exact Hrest]).
  rewrite app_nil_r, rev_involutive, Hfil, Et'. reflexivity.
Qed.

(** What [Join] cleans when its first element is not empty. *)
Lemma join_buf_nonempty (buf : string) (elem : list string) :
  buf <> "" ->
  join_buf buf elem
  = fold_left (fun b e => (b ++ String slash e)%string) elem buf.
Proof.
  revert buf. induction elem as [|e elem IH]; intros buf Hb; [reflexivity|].
  simpl. apply String.eqb_neq in Hb. rewrite Hb. simpl.
  apply IH. destruct buf; [discriminate | discriminate].
Qed.

(** A directory path (plain elements and a trailing slash) joined with a
    clean relative path: [Clean] only removes the doubled slash. *)
Lemma Clean_under_dir (segs sub : list string) :
  segs <> [] -> sub <> [] ->
  Forall (fun e => plain e = true) segs ->
  Forall (fun e => plain e = true) sub ->
  Clean (join_slash (segs ++ [""]) ++ String slash (join_slash sub))
  = (join_slash (segs ++ [""]) ++ join_slash sub)%string.
Proof.
  intros Hs Hsub Hsegs Hsubs.
  rewrite <- join_slash_app
    by (try assumption; destruct segs; discriminate).
  destruct segs as [|s0 rest]; [congruence|].
  inversion Hsegs as [|? ? H0 Hrest]; subst.
  change (((s0 :: rest) ++ [""]) ++ sub)
    with (s0 :: ((rest ++ [""]) ++ sub)).
  rewrite Clean_join; [|assumption|].
  - rewrite !filter_app. simpl filter at 2.
    rewrite !filter_nonempty_plain by assumption.
    rewrite app_nil_r.
    change (s0 :: rest ++ sub) with ((s0 :: rest) ++ sub).
    rewrite !join_slash_app by (assumption || discriminate).
    simpl join_slash at 3. now rewrite append_assoc.
  - rewrite !Forall_app. repeat split.
    + eapply Forall_impl; [|exact Hrest]. auto.
    + constructor; auto.
    + eapply Forall_impl; [|exact Hsubs]. auto.
Qed.

(** Cleaning keeps the shape: plain elements above a run of [..]. *)
Lemma clean_step_shape (out : list string) (seg : string) :
  mem slash seg = false -> kept_shape out = true ->
  kept_shape (clean_step false out seg) = true.
Proof.
  intros Hs Hout. unfold clean_step.
  destruct (String.eqb_spec seg "") as [E0|N0]; [exact Hout|].
  destruct (String.eqb_spec seg ".") as [E1|N1]; [exact Hout|].
  destruct (String.eqb_spec seg "..") as [E2|N2].
  - subst seg. destruct out as [|top rest]; [reflexivity|].
    cbn [kept_shape] in Hout.
    destruct (String.eqb_spec top "..") as [Et|Nt].
    + subst top. cbn [kept_shape]. rewrite String.eqb_refl.
      cbn [List.forallb]. now rewrite String.eqb_refl.
    + now apply andb_true_iff in Hout.
  - cbn [kept_shape]. apply String.eqb_neq in N2. rewrite N2.
    rewrite Hout, andb_true_r. unfold plain.
    apply String.eqb_neq in N0, N1. now rewrite N0, N1, N2, Hs.
Qed.

Lemma fold_clean_step_shape (segs out : list string) :
  Forall (fun e => mem slash e = false) segs -> kept_shape out = true ->
  kept_shape (fold_left (clean_step false) segs out) = true.
Proof.
  intros Hall. revert out.
  induction Hall as [|e segs He _ IH]; intros out Hout; [exact Hout|].
  cbn [fold_left]. apply IH. now apply clean_step_shape.
Qed.

(** A shaped stack whose oldest element is plain holds plain elements
    only. *)
Lemma kept_shape_plain (out : list string) :
  kept_shape out = true ->
  forall l x, out = l ++ [x] -> plain x = true ->
  Forall (fun e => plain e = true) out.
Proof.
  induction out as [|top rest IH]; intros Hs l x E Hx; [constructor|].
  cbn [kept_shape] in Hs.
  destruct (String.eqb_spec top "..") as [Et|Nt].
  - exfalso. subst top.
    assert (Hall : forall y, In y (".." :: rest) -> y = "..").
    { intros y [<-|Hy]; [reflexivity|].
      rewrite forallb_forall in Hs. specialize (Hs y Hy).
      apply String.eqb_eq in Hs. now subst. }
    assert (Hin : In x (".." :: rest))
      by (rewrite E; apply in_or_app; right; now left).
    rewrite (Hall x Hin) in Hx. discriminate.
  - apply andb_true_iff in Hs. destruct Hs as [Ht Hr].
    constructor; [exact Ht|].
    destruct l as [|y l]; cbn [app] in E.
    + injection E as _ ->. constructor.
    + injection E as _ Er. exact (IH Hr l x Er Hx).
Qed.

Lemma split_on_no_slash (s : string) :
  Forall (fun e => mem slash e = false) (split_on slash s).
Proof.
  induction s as [|a s IH]; [repeat constructor|]. cbn [split_on].
  destruct (Ascii.eqb_spec a slash) as [->|Hne].
  - constructor; [reflexivity | exact IH].
  - destruct (split_on slash s) as [|seg rest]; [repeat constructor|].
    + cbn [mem]. apply Ascii.eqb_neq in Hne. now rewrite Hne.
    + inversion IH as [|? ? Hseg Hrest]; subst. constructor; [|exact Hrest].
      cbn [mem]. apply Ascii.eqb_neq in Hne. now rewrite Hne, Hseg.
Qed.

Lemma kept_shape_no_slash (out : list string) :
  kept_shape out = true -> Forall (fun e => mem slash e = false) out.
Proof.
  induction out as [|top rest IH]; intros Hs; [constructor|].
  cbn [kept_shape] in Hs.
  destruct (String.eqb_spec top "..") as [Et|Nt].
  - subst top. constructor; [reflexivity|].
    rewrite forallb_forall in Hs. apply Forall_forall. intros y Hy.
    specialize (Hs y Hy). apply String.eqb_eq in Hs. now subst.
  - apply andb_true_iff in Hs. destruct Hs as [Ht Hr].
    constructor; [|now apply IH].
    now destruct (plain_inv _ Ht) as (_ & ? & _).
Qed.

(** The elements of a cleaned relative path that begins with a plain
    element are all plain. *)
Lemma Clean_elements_plain (a : ascii) (p : string) :
  Ascii.eqb a slash = false ->
  forall first rest,
    split_on slash (Clean (String a p)) = first :: rest ->
    plain first = true ->
    Forall (fun e => plain e = true) (first :: rest).
Proof.
  intros Ha first rest Hsplit Hfirst.
  unfold Clean in Hsplit.
  change (String a p =? "")%string with false in Hsplit. cbv iota in Hsplit.
  assert (Hroot : HasPrefix (String a p) "/" = false).
  { destruct (HasPrefix (String a p) "/") eqn:E; [|reflexivity].
    apply HasPrefix_spec in E. destruct E as [r Er].
    injection Er as -> _. discriminate. }
  rewrite Hroot in Hsplit.
  set (out := fold_left (clean_step false)
                (split_on slash (String a p)) []) in *.
  assert (Hshape : kept_shape out = true)
    by (apply fold_clean_step_shape; [apply split_on_no_slash | reflexivity]).
  destruct (String.eqb_spec (join_slash (rev out)) "") as [E|N].
  - cbn in Hsplit. injection Hsplit as <- _. discriminate.
  - assert (Hrev : rev out <> []) by (intros E; rewrite E in N; now apply N).
    rewrite split_join in Hsplit.
    + assert (Hout : out = rev rest ++ [first]).
      { rewrite <- (rev_involutive out), Hsplit. reflexivity. }
      pose proof (kept_shape_plain out Hshape _ _ Hout Hfirst) as Hall.
      rewrite <- Hsplit. apply Forall_rev. exact Hall.
    + exact Hrev.
    + apply Forall_rev. now apply kept_shape_no_slash.
Qed.

End PathFacts.

(* ================================================================== *)
(** * Facts about decimal printing and the date layout *)
(* ================================================================== *)

Module TimeFacts.
Import time strconv StrFacts validation.

Lemma tag_char_digit (u : Z) : tag_char (digit_char (u mod 10)) = true.
Proof.
  assert (H : (0 <= u mod 10 < 10)%Z) by (apply Z.mod_pos_bound; lia).
  unfold digit_char.
  assert (Hn : Z.to_nat (u mod 10) < 10) by lia.
  set (n := Z.to_nat (u mod 10)) in *. clearbody n.
  do 10 (destruct n as [|n]; [reflexivity|]). lia.
Qed.

Lemma utoa_fuel_tag (fuel : nat) : forall (u : Z) (acc : string),
  Str.forallb tag_char acc = true ->
  Str.forallb tag_char (utoa_fuel fuel u acc) = true.
Proof.
  induction fuel as [|f IH]; intros u acc Hacc; cbn [utoa_fuel];
    [exact Hacc|].
  assert (H' : Str.forallb tag_char (String (digit_char (u mod 10)) acc)
               = true).
  { cbn [Str.forallb]. now rewrite tag_char_digit, Hacc. }
  destruct (u <? 10)%Z; [exact H' | now apply IH].
Qed.

Lemma utoa_fuel_length (fuel : nat) : forall (u : Z) (acc : string),
  String.length acc <= String.length (utoa_fuel fuel u acc).
Proof.
  induction fuel as [|f IH]; intros u acc; cbn [utoa_fuel]; [lia|].
  destruct (u <? 10)%Z; cbn [String.length]; [lia|].
  specialize (IH (u / 10)%Z (String (digit_char (u mod 10)) acc)).
  cbn [String.length] in IH. lia.
Qed.

Lemma utoa_length (u : Z) : 1 <= String.length (utoa u).
Proof.
  unfold utoa. cbn [utoa_fuel].
  destruct (u <? 10)%Z; cbn [String.length]; [lia|].
  pose proof (utoa_fuel_length (Z.to_nat (Z.log2 u)) (u / 10)
                (String (digit_char (u mod 10)) "")) as H.
  cbn [String.length] in H. lia.
Qed.

Lemma zeros_tag (n : nat) : Str.forallb tag_char (zeros n) = true.
Proof. induction n; simpl; [reflexivity | exact IHn]. Qed.

Lemma appendInt_tag (x : Z) (width : nat) :
  Str.forallb tag_char (appendInt x width) = true.
Proof.
  unfold appendInt. rewrite !forallb_append, zeros_tag.
  unfold utoa. rewrite utoa_fuel_tag by reflexivity.
  now destruct (x <? 0)%Z.
Qed.

Lemma appendInt_nonempty (x : Z) (width : nat) : appendInt x width <> "".
Proof.
  unfold appendInt. intros E.
  apply (f_equal String.length) in E.
  rewrite !length_append in E.
  pose proof (utoa_length (Z.abs x)) as H.
  change (String.length "") with 0 in E. lia.
Qed.

(** A non-empty run of [[a-zA-Z0-9_-]] is a plain path element. *)
Lemma tag_plain (s : string) :
  s <> "" -> Str.forallb tag_char s = true -> path.plain s = true.
Proof.
  intros Hne Htag. unfold path.plain.
  rewrite (forallb_not_mem tag_char Str.slash s) by (reflexivity || assumption).
  apply String.eqb_neq in Hne. rewrite Hne. simpl.
  rewrite andb_true_iff, !negb_true_iff, !String.eqb_neq.
  split; intros ->; discriminate.
Qed.

Lemma appendInt_plain (x : Z) (width : nat) :
  path.plain (appendInt x width) = true.
Proof. apply tag_plain; [apply appendInt_nonempty | apply appendInt_tag]. Qed.

(** The layout's year field is the four-digit zero-padded year. *)
Lemma appendInt_year (y : Z) :
  (0 <= y <= 9999)%Z -> appendInt y 4 = Spec.zero_padded 4 y.
Proof.
  intros Hy.
  assert (Hall : List.forallb
                   (fun n => String.eqb (appendInt (Z.of_nat n) 4)
                               (Spec.zero_padded 4 (Z.of_nat n)))
                   (seq 0 (Z.to_nat 10000)) = true) by (vm_compute; reflexivity).
  rewrite forallb_forall in Hall.
  specialize (Hall (Z.to_nat y)).
  rewrite Z2Nat.id in Hall by lia.
  apply String.eqb_eq, Hall, in_seq. lia.
Qed.

(** The month and day fields are two-digit zero-padded. *)
Lemma appendInt_two (m : Z) :
  (0 <= m <= 99)%Z -> appendInt m 2 = Spec.zero_padded 2 m.
Proof.
  intros Hm.
  assert (Hall : List.forallb
                   (fun n => String.eqb (appendInt (Z.of_nat n) 2)
                               (Spec.zero_padded 2 (Z.of_nat n)))
                   (seq 0 (Z.to_nat 100)) = true) by (vm_compute; reflexivity).
  rewrite forallb_forall in Hall.
  specialize (Hall (Z.to_nat m)).
  rewrite Z2Nat.id in Hall by lia.
  apply String.eqb_eq, Hall, in_seq. lia.
Qed.

Lemma digit_char_value (d : Z) :
  (0 <= d < 10)%Z -> (Z.of_nat (nat_of_ascii (digit_char d)) - 48 = d)%Z.
Proof.
  intros Hd. unfold digit_char.
  rewrite nat_ascii_embedding by lia. lia.
Qed.

(** With fuel for the binary length of [u], the digits written are those
    of [u]: read back after any [v], they continue [v] by [u]. *)
Lemma utoa_fuel_value (fuel : nat) : forall (u : Z) (acc : string) (v : Z),
  (0 <= u < 2 ^ Z.of_nat fuel)%Z ->
  exists m : Z,
    Spec.decimal_value (utoa_fuel fuel u acc) v
    = Spec.decimal_value acc (v * m + u).
Proof.
  induction fuel as [|f IH]; intros u acc v Hu.
  - exists 1%Z. cbn [utoa_fuel]. f_equal. change (2 ^ Z.of_nat 0)%Z with 1%Z in Hu.
    lia.
  - cbn [utoa_fuel].
    assert (Hmod : (0 <= u mod 10 < 10)%Z) by (apply Z.mod_pos_bound; lia).
    destruct (Z.ltb_spec u 10) as [Hlt|Hge].
    + exists 10%Z. cbn [Spec.decimal_value].
      rewrite digit_char_value by exact Hmod.
      rewrite Z.mod_small by lia. f_equal. lia.
    + assert (Hdiv : (0 <= u / 10 < 2 ^ Z.of_nat f)%Z).
      { rewrite Nat2Z.inj_succ, Z.pow_succ_r in Hu by lia.
        split; [apply Z.div_pos; lia|].
        apply Z.div_lt_upper_bound; lia. }
      destruct (IH (u / 10)%Z (String (digit_char (u mod 10)) acc) v Hdiv)
        as [m Hm].
      exists (10 * m)%Z. rewrite Hm. cbn [Spec.decimal_value].
      rewrite digit_char_value by exact Hmod. f_equal.
      pose proof (Z.div_mod u 10). lia.
Qed.

(** [utoa] never runs out of fuel: its output denotes its input. *)
Lemma utoa_value (u : Z) :
  (0 <= u)%Z -> Spec.decimal_value (utoa u) 0 = u.
Proof.
  intros Hu. unfold utoa.
  assert (Hb : (0 <= u < 2 ^ Z.of_nat (S (Z.to_nat (Z.log2 u))))%Z).
  { split; [exact Hu|].
    rewrite Nat2Z.inj_succ, Z2Nat.id by apply Z.log2_nonneg.
    destruct (Z.eq_dec u 0) as [->|Hne]; [reflexivity|].
    apply Z.log2_spec. lia. }
  destruct (utoa_fuel_value _ u "" 0%Z Hb) as [m Hm].
  rewrite Hm. cbn [Spec.decimal_value]. lia.
Qed.

End TimeFacts.

(* ================================================================== *)
(** * Key derivation *)
(* ================================================================== *)

Module KeyFacts.
Import keys Str path StrFacts PathFacts TimeFacts Spec.

Lemma Prefix_elements (b : Builder) :
  Prefix b = join_slash (elements b ++ [""]).
Proof.
  unfold Prefix, elements, time.Format_2006_01_02. cbn [app join_slash].
  repeat rewrite append_assoc. reflexivity.
Qed.

Lemma regex_plain (s : string) (n : nat) :
  Str.forallb validation.tag_char s && (1 <=? String.length s)%nat
  && (String.length s <=? n)%nat = true ->
  plain s = true.
Proof.
  rewrite !andb_true_iff. intros [[Htag Hlen] _].
  apply tag_plain; [|exact Htag].
  intros ->. discriminate.
Qed.

Lemma valid_bundleID_plain (s : string) :
  valid_bundleID s = true -> plain s = true.
Proof.
  unfold valid_bundleID. rewrite andb_true_iff, negb_true_iff.
  intros [Hne Htag]. apply tag_plain; [|exact Htag].
  now apply String.eqb_neq.
Qed.

(** Every element of a valid identity's prefix is plain. *)
Lemma elements_plain (b : Builder) :
  valid_identity b = true ->
  Forall (fun e => plain e = true) (elements b).
Proof.
  unfold valid_identity. rewrite !andb_true_iff. intros [[Hp He] Hid].
  unfold elements. repeat constructor.
  - exact (regex_plain _ _ Hp).
  - exact (regex_plain _ _ He).
  - apply appendInt_plain.
  - apply appendInt_plain.
  - apply appendInt_plain.
  - exact (valid_bundleID_plain _ Hid).
Qed.

Lemma Prefix_nonempty (b : Builder) :
  exists a tail, Prefix b = String a tail.
Proof. unfold Prefix. simpl. eauto. Qed.

(** [path.Join] of the prefix and further elements cleans their
    slash-separated concatenation. *)
Lemma Join_Prefix (b : Builder) (e : string) (rest : list string) :
  Join (Prefix b :: e :: rest)
  = Clean (fold_left (fun buf x => (buf ++ String slash x)%string)
             (e :: rest) (Prefix b)).
Proof.
  destruct (Prefix_nonempty b) as (a & tail & E).
  unfold Join. rewrite E. cbn [fold_right String.length Nat.add Nat.eqb].
  cbn [join_buf String.eqb negb].
  rewrite join_buf_nonempty by discriminate. reflexivity.
Qed.

(** A fixed slot's key is the prefix followed by the slot's name. *)
Lemma Join_Prefix_name (b : Builder) (name : string) :
  valid_identity b = true -> plain name = true ->
  Join [Prefix b; name] = (Prefix b ++ name)%string.
Proof.
  intros Hb Hn. rewrite Join_Prefix. cbn [fold_left].
  rewrite Prefix_elements.
  change name with (join_slash [name]) at 1 2.
  apply Clean_under_dir.
  - discriminate.
  - discriminate.
  - now apply elements_plain.
  - now constructor.
Qed.

Lemma clean_relative_elements (f : string) :
  clean_relative f = true ->
  Forall (fun e => plain e = true) (split_on slash f).
Proof.
  unfold clean_relative. rewrite forallb_forall, Forall_forall. auto.
Qed.

(** An attachment key is the prefix, [files/] and the file name when the
    name is a clean relative path. *)
Lemma File_clean (b : Builder) (filename : string) :
  valid_identity b = true -> clean_relative filename = true ->
  File b filename = (Prefix b ++ "files/" ++ filename)%string.
Proof.
  intros Hb Hf. unfold File. rewrite Join_Prefix. cbn [fold_left].
  rewrite append_assoc.
  change (String slash "files" ++ String slash filename)%string
    with (String slash ("files" ++ String slash filename))%string.
  rewrite <- (join_split filename) at 1 2.
  rewrite <- (join_slash_cons "files" (split_on slash filename))
    by apply split_on_not_nil.
  change ("files/" ++ join_slash (split_on slash filename))%string
    with ("files" ++ String slash (join_slash (split_on slash filename)))%string.
  rewrite <- (join_slash_cons "files" (split_on slash filename))
    by apply split_on_not_nil.
  rewrite Prefix_elements.
  apply Clean_under_dir.
  - discriminate.
  - discriminate.
  - now apply elements_plain.
  - constructor; [reflexivity | now apply clean_relative_elements].
Qed.

Lemma AllKeys_map (b : Builder) (filenames : list string) :
  AllKeys b filenames
  = RequiredKeys b ++ ResponseRaw b :: map (File b) filenames.
Proof.
  unfold AllKeys.
  assert (H : forall fs acc,
             fold_left (fun ks f => ks ++ [File b f]) fs acc
             = acc ++ map (File b) fs).
  { induction fs as [|f fs IH]; intros acc; simpl.
    - now rewrite app_nil_r.
    - now rewrite IH, <- app_assoc. }
  rewrite H, <- app_assoc. reflexivity.
Qed.

(** Splitting a directory path followed by anything: the directory's
    elements come first. *)
Lemma split_on_dir (segs : list string) (rest : string) :
  Forall (fun e => mem slash e = false) segs ->
  split_on slash (join_slash (segs ++ [""]) ++ rest)
  = segs ++ split_on slash rest.
Proof.
  induction 1 as [|e segs He _ IH]; [reflexivity|].
  change ((e :: segs) ++ [""]) with (e :: (segs ++ [""])).
  rewrite join_slash_cons by (destruct segs; discriminate).
  rewrite append_assoc.
  change (String slash (join_slash (segs ++ [""])) ++ rest)%string
    with (String slash (join_slash (segs ++ [""]) ++ rest)).
  rewrite split_on_append by exact He.
  now rewrite IH.
Qed.

Lemma elements_no_slash (b : Builder) :
  valid_identity b = true ->
  Forall (fun e => mem slash e = false) (elements b).
Proof.
  intros Hb. eapply Forall_impl; [|exact (elements_plain b Hb)].
  intros e He. now destruct (plain_inv _ He) as (_ & ? & _).
Qed.

(** Two strings under the prefixes of two valid identities are equal only
    if the identities have the same bundle identifier: the key spaces of
    distinct bundles are disjoint. *)
Lemma Prefix_namespace (b1 b2 : Builder) (r1 r2 : string) :
  valid_identity b1 = true -> valid_identity b2 = true ->
  (Prefix b1 ++ r1 = Prefix b2 ++ r2)%string ->
  failureID b1 = failureID b2.
Proof.
  intros H1 H2 E.
  apply (f_equal (split_on slash)) in E.
  rewrite !Prefix_elements in E.
  rewrite !split_on_dir in E by now apply elements_no_slash.
  unfold elements in E. cbn [app] in E.
  now injection E.
Qed.

(** The keys of the fixed slots are the prefix followed by a name. *)
Lemma slot_keys_under_prefix (b : Builder) (k : string) :
  valid_identity b = true ->
  In k (RequiredKeys b ++ [ResponseRaw b]) ->
  exists name, k = (Prefix b ++ name)%string.
Proof.
  intros Hb Hin.
  unfold RequiredKeys, Envelope, RequestRaw, RequestHeaders, Checksums,
    ResponseRaw in Hin.
  rewrite !Join_Prefix_name in Hin by (exact Hb || reflexivity).
  cbn [app In] in Hin.
  repeat (destruct Hin as [<-|Hin]; [eauto|]). contradiction.
Qed.

Lemma Prefix_head (b : Builder) :
  exists tail, Prefix b = String "f"%char tail.
Proof. unfold Prefix. cbn [append]. eauto. Qed.

(** Conversely, an attachment key that is the prefix, [files/] and the
    file name verbatim comes from a clean relative name. *)
Lemma File_verbatim_clean (b : Builder) (filename : string) :
  valid_identity b = true ->
  File b filename = (Prefix b ++ "files/" ++ filename)%string ->
  clean_relative filename = true.
Proof.
  intros Hb E. unfold File in E. rewrite Join_Prefix in E.
  cbn [fold_left] in E.
  destruct (Prefix_head b) as [tail Et].
  remember (Prefix b ++ "files/" ++ filename)%string as key eqn:Ek.
  rewrite Et in E. cbn [append] in E.
  apply (f_equal (split_on slash)) in E. subst key.
  rewrite Prefix_elements in E.
  rewrite split_on_dir in E by now apply elements_no_slash.
  change ("files/" ++ filename)%string
    with ("files" ++ String slash filename)%string in E.
  rewrite split_on_append in E by reflexivity.
  unfold elements in E. cbn [app] in E.
  apply Clean_elements_plain in E; [|reflexivity|reflexivity].
  unfold clean_relative. apply forallb_forall. intros e He.
  rewrite Forall_forall in E. apply E.
  do 8 right. exact He.
Qed.

(** The keys depend on the calendar date only, not on the time of day. *)
Lemma Prefix_date_only (b : Builder) (d : time.Time) :
  time.Year d = time.Year (date b) ->
  time.Month d = time.Month (date b) ->
  time.Day d = time.Day (date b) ->
  Prefix (WithDate b d) = Prefix b.
Proof.
  intros Hy Hm Hd. unfold Prefix, WithDate, time.Format_2006_01_02.
  cbn [project env failureID date]. now rewrite Hy, Hm, Hd.
Qed.

End KeyFacts.

Module KeyClaims.
Import keys Str path StrFacts PathFacts TimeFacts KeyFacts Spec.

(** C3.  Key derivation follows the stated algorithm.  For every valid
    identity and date, [Prefix] is ["failures/" + project + "/" +
    environment + "/" + zero-padded year/month/day + "/" + bundleID + "/"]
    and the four required keys are the prefix followed by
    ["envelope.json"], ["request.raw"], ["request.headers.json"] and
    ["checksums.json"]. *)
Theorem key_derivation_follows_algorithm (b : Builder) :
  valid_identity b = true ->
  valid_date (date b) = true ->
  Prefix b = derive_prefix (project b) (env b) (failureID b) (date b)
  /\ RequiredKeys b
     = [ (Prefix b ++ "envelope.json")%string;
         (Prefix b ++ "request.raw")%string;
         (Prefix b ++ "request.headers.json")%string;
         (Prefix b ++ "checksums.json")%string ].
Proof.
  intros Hb Hd. split.
  - unfold valid_date in Hd. rewrite !andb_true_iff, !Z.leb_le in Hd.
    unfold Prefix, derive_prefix, time.Format_2006_01_02.
    rewrite appendInt_year by lia.
    rewrite !appendInt_two by lia.
    repeat rewrite append_assoc. reflexivity.
  - unfold RequiredKeys, Envelope, RequestRaw, RequestHeaders, Checksums.
    now rewrite !Join_Prefix_name by (exact Hb || reflexivity).
Qed.

(** The example of the specification: project ["myapp"], environment
    ["prod"], bundle ["abc-123"], 15 March 2024. *)
Lemma key_derivation_example :
  valid_identity Samples.builder = true
  /\ valid_date (date Samples.builder) = true
  /\ Prefix Samples.builder = "failures/myapp/prod/2024/03/15/abc-123/"
  /\ Envelope Samples.builder
     = "failures/myapp/prod/2024/03/15/abc-123/envelope.json".
Proof.
  destruct (key_derivation_follows_algorithm Samples.builder
              eq_refl eq_refl) as [Hp Hk].
  split; [reflexivity|]. split; [reflexivity|]. split.
  - exact Hp.
  - exact (f_equal (hd "") Hk).
Defined.

(** What key derivation does keep apart.  The KeySet of a valid identity
    does not depend on what the clock read when the builder was made, once
    the date is fixed, and its prefix and slot keys depend on the calendar
    day only; and for two valid identities with distinct bundle
    identifiers (whatever their projects, environments and dates) neither
    prefix is a leading part of the other, no slot key of one is a slot
    key of the other, and attachment keys of clean file names stay apart
    as well.  Attachment keys of names with [..] elements do not. *)
Theorem key_derivation_deterministic_injective
    (now1 now1' now2 : time.Time)
    (p1 e1 id1 : string) (d1 : time.Time)
    (p2 e2 id2 : string) (d2 : time.Time) :
  valid_identity (mkBuilder p1 e1 id1 d1) = true ->
  valid_identity (mkBuilder p2 e2 id2 d2) = true ->
  derive now1 p1 e1 id1 d1 = derive now1' p1 e1 id1 d1
  /\ (forall d1',
        time.Year d1' = time.Year d1 -> time.Month d1' = time.Month d1 ->
        time.Day d1' = time.Day d1 ->
        prefix (derive now1 p1 e1 id1 d1') = prefix (derive now1 p1 e1 id1 d1)
        /\ slot_keys (derive now1 p1 e1 id1 d1')
           = slot_keys (derive now1 p1 e1 id1 d1))
  /\ (id1 <> id2 ->
      ~ is_prefix_of (prefix (derive now1 p1 e1 id1 d1))
                     (prefix (derive now2 p2 e2 id2 d2))
      /\ ~ is_prefix_of (prefix (derive now2 p2 e2 id2 d2))
                        (prefix (derive now1 p1 e1 id1 d1))
      /\ (forall k, In k (slot_keys (derive now1 p1 e1 id1 d1)) ->
                    ~ In k (slot_keys (derive now2 p2 e2 id2 d2)))
      /\ (forall f1 f2,
            clean_relative f1 = true -> clean_relative f2 = true ->
            attachment (derive now1 p1 e1 id1 d1) f1
            <> attachment (derive now2 p2 e2 id2 d2) f2
            /\ ~ In (attachment (derive now1 p1 e1 id1 d1) f1)
                    (slot_keys (derive now2 p2 e2 id2 d2)))).
Proof.
  intros H1 H2. split; [reflexivity|]. split.
  { intros d1' Hy Hm Hd.
    pose proof (Prefix_date_only (mkBuilder p1 e1 id1 d1) d1' Hy Hm Hd) as E.
    unfold derive, slot_keys, NewBuilder, WithDate in *.
    cbn [prefix required response project env failureID date] in *.
    unfold RequiredKeys, Envelope, RequestRaw, RequestHeaders, Checksums,
      ResponseRaw.
    now rewrite E. }
  intros Hid. unfold derive, WithDate, NewBuilder. cbn [prefix slot_keys
    required response attachment project env failureID date].
  set (b1 := mkBuilder p1 e1 id1 d1) in *.
  set (b2 := mkBuilder p2 e2 id2 d2) in *.
  assert (Hns : forall r1 r2,
             (Prefix b1 ++ r1)%string <> (Prefix b2 ++ r2)%string).
  { intros r1 r2 E. apply Hid.
    exact (Prefix_namespace b1 b2 r1 r2 H1 H2 E). }
  repeat split.
  - intros [rest E]. apply (Hns rest ""). now rewrite append_nil_r.
  - intros [rest E]. apply (Hns "" rest). now rewrite append_nil_r.
  - intros k Hk1 Hk2.
    destruct (slot_keys_under_prefix b1 k H1 Hk1) as [n1 E1].
    destruct (slot_keys_under_prefix b2 k H2 Hk2) as [n2 E2].
    apply (Hns n1 n2). congruence.
  - rewrite !File_clean by assumption. apply Hns.
  - intros Hk2. rewrite File_clean in Hk2 by assumption.
    destruct (slot_keys_under_prefix b2 _ H2 Hk2) as [n2 E2].
    exact (Hns _ _ E2).
Qed.

(** The two identities of the key builder's tests. *)
Lemma key_derivation_injective_example :
  valid_identity (mkBuilder "myapp" "prod" "abc-123" Samples.march15) = true
  /\ valid_identity
       (mkBuilder "testapp" "staging" "xyz-789" Samples.december1) = true
  /\ "abc-123" <> "xyz-789"
  /\ ~ is_prefix_of "failures/myapp/prod/2024/03/15/abc-123/"
                    "failures/testapp/staging/2024/12/01/xyz-789/".
Proof.
  destruct (key_derivation_deterministic_injective
              Samples.december1 Samples.march15 Samples.march15
              "myapp" "prod" "abc-123" Samples.march15
              "testapp" "staging" "xyz-789" Samples.december1
              eq_refl eq_refl) as (_ & _ & Hinj).
  assert (Hne : "abc-123" <> "xyz-789") by discriminate.
  destruct (Hinj Hne) as (Hp & _).
  split; [reflexivity|]. split; [reflexivity|]. split; [exact Hne|].
  exact Hp.
Defined.

(** C4.  Derived keys of distinct bundles collide.  The bundles
    [abc-123] and [xyz-789] of one project, environment and day are both
    valid and their prefixes do not overlap, yet the attachment key that
    bundle [abc-123] derives for the file name
    ["../../xyz-789/envelope.json"] is the envelope key of bundle
    [xyz-789], one of its required slots: [path.Join] in [File] resolves
    the two [..] elements against ["files"] and the bundle identifier, so
    the key is not even under the prefix of the bundle it was derived
    for. *)
Theorem attachment_key_collides_across_bundles :
  valid_identity (mkBuilder "myapp" "prod" "abc-123" Samples.march15) = true
  /\ valid_identity (mkBuilder "myapp" "prod" "xyz-789" Samples.march15)
     = true
  /\ "abc-123" <> "xyz-789"
  /\ attachment
       (derive Samples.december1 "myapp" "prod" "abc-123" Samples.march15)
       "../../xyz-789/envelope.json"
     = "failures/myapp/prod/2024/03/15/xyz-789/envelope.json"
  /\ In (attachment
           (derive Samples.december1 "myapp" "prod" "abc-123"
              Samples.march15)
           "../../xyz-789/envelope.json")
        (slot_keys
           (derive Samples.december1 "myapp" "prod" "xyz-789"
              Samples.march15))
  /\ ~ is_prefix_of
        (prefix
           (derive Samples.december1 "myapp" "prod" "abc-123"
              Samples.march15))
        (attachment
           (derive Samples.december1 "myapp" "prod" "abc-123"
              Samples.march15)
           "../../xyz-789/envelope.json").
Proof.
  split; [reflexivity|]. split; [reflexivity|]. split; [discriminate|].
  split; [reflexivity|]. split; [left; reflexivity|].
  intros [rest E]. vm_compute in E. discriminate E.
Qed.

(** C5.  A file name with a [..] element is not used verbatim.  For the
    bundle [abc-123] the attachment key of ["../x"] is the prefix followed
    by ["x"]: it is not the prefix, ["files/"] and the name, and it is not
    under the bundle's ["files/"] at all. *)
Theorem attachment_name_rewritten :
  valid_identity Samples.builder = true
  /\ File Samples.builder "../x"
     = "failures/myapp/prod/2024/03/15/abc-123/x"
  /\ File Samples.builder "../x"
     <> (Prefix Samples.builder ++ "files/" ++ "../x")%string
  /\ ~ is_prefix_of (Prefix Samples.builder ++ "files/")%string
        (File Samples.builder "../x").
Proof.
  split; [reflexivity|]. split; [reflexivity|]. split; [discriminate|].
  intros [rest E]. vm_compute in E. discriminate E.
Qed.

Lemma count_occ_map_le (f : string -> string) (l : list string) (x : string) :
  count_occ string_dec l x <= count_occ string_dec (map f l) (f x).
Proof.
  induction l as [|y l IH]; simpl; [lia|].
  destruct (string_dec y x) as [->|Hne].
  - destruct (string_dec (f x) (f x)); [lia | congruence].
  - destruct (string_dec (f y) (f x)); lia.
Qed.

(** Which names are used verbatim.  An attachment key is
    [path.Join(prefix, "files", filename)].  For a valid identity it is
    the prefix, ["files/"] and the file name, verbatim, exactly when the
    name is a clean relative path (non-empty elements between single
    slashes, none of them [.] or [..]).  [AllKeys] has one key per
    declared name, in order, after the five fixed keys, so a name declared
    twice yields its key twice and no error. *)
Theorem attachment_keys_of_clean_names
    (b : Builder) (filenames : list string) (filename : string) :
  valid_identity b = true ->
  File b filename = path.Join [Prefix b; "files"; filename]
  /\ (clean_relative filename = true <->
      File b filename = (Prefix b ++ "files/" ++ filename)%string)
  /\ AllKeys b filenames
     = RequiredKeys b ++ ResponseRaw b :: map (File b) filenames
  /\ count_occ string_dec filenames filename
     <= count_occ string_dec (AllKeys b filenames) (File b filename).
Proof.
  intros Hb. split; [reflexivity|]. split; [|split].
  - split; [now apply File_clean | now apply File_verbatim_clean].
  - apply AllKeys_map.
  - rewrite AllKeys_map.
    change (RequiredKeys b ++ ResponseRaw b :: map (File b) filenames)
      with ((RequiredKeys b ++ [ResponseRaw b]) ++ map (File b) filenames)
      || rewrite (app_assoc (RequiredKeys b) [ResponseRaw b]).
    pose proof (count_occ_map_le (File b) filenames filename) as H.
    rewrite count_occ_app. lia.
Qed.

Lemma attachment_keys_example :
  valid_identity Samples.builder = true
  /\ File Samples.builder "photo.jpg"
     = "failures/myapp/prod/2024/03/15/abc-123/files/photo.jpg"
  /\ 2 <= count_occ string_dec
            (AllKeys Samples.builder ["a.jpg"; "a.jpg"])
            (File Samples.builder "a.jpg").
Proof.
  destruct (attachment_keys_of_clean_names Samples.builder
              ["a.jpg"; "a.jpg"] "a.jpg" eq_refl) as (_ & _ & _ & Hc).
  destruct (attachment_keys_of_clean_names Samples.builder
              [] "photo.jpg" eq_refl) as (_ & Hf & _ & _).
  split; [reflexivity|]. split; [exact (proj1 Hf eq_refl) | exact Hc].
Defined.

End KeyClaims.

(* ================================================================== *)
(** * Completion: existence checks, failure responses, notification *)
(* ================================================================== *)

Module CompletionFacts.
Import Eff models handlers Spec.

Lemma ObjectExists_run (W : World) (p : s3client.Presigner) (key : string) :
  s3client.ObjectExists W p key
  = ((present W p key, None), [CallHeadObject (s3client.bucket p) key]).
Proof.
  unfold s3client.ObjectExists, present.
  destruct (HeadObject W (s3client.bucket p) key); reflexivity.
Qed.

(** [ObjectExists] never reports an error of its own. *)
Lemma ObjectExists_no_error (W : World) (p : s3client.Presigner)
    (key : string) :
  snd (value (s3client.ObjectExists W p key)) = None.
Proof. now rewrite ObjectExists_run. Qed.

(** The loop checks every key, in order, and collects all that are not
    found. *)
Lemma verify_loop_run (W : World) (p : s3client.Presigner)
    (keys : list string) : forall missing,
  s3client.verify_loop W p keys missing
  = ((missing ++ not_found W p keys, None),
     map (CallHeadObject (s3client.bucket p)) keys).
Proof.
  induction keys as [|key keys IH]; intros missing.
  - simpl. now rewrite app_nil_r.
  - cbn [s3client.verify_loop]. rewrite ObjectExists_run.
    unfold bind. cbn [snd fst]. unfold not_found. cbn [filter map].
    destruct (present W p key); cbn [negb]; rewrite IH.
    + reflexivity.
    + unfold not_found. now rewrite <- app_assoc.
Qed.

Lemma VerifyObjectsExist_run (W : World) (p : s3client.Presigner)
    (keys : list string) :
  s3client.VerifyObjectsExist W p keys
  = ((not_found W p keys, None),
     map (CallHeadObject (s3client.bucket p)) keys).
Proof. unfold s3client.VerifyObjectsExist. now rewrite verify_loop_run. Qed.

Lemma not_found_nil_iff (W : World) (p : s3client.Presigner)
    (keys : list string) :
  not_found W p keys = [] <-> List.forallb (present W p) keys = true.
Proof.
  unfold not_found. induction keys as [|k keys IH]; simpl; [tauto|].
  destruct (present W p k); simpl; [exact IH|].
  split; discriminate.
Qed.

Lemma send_attempts_app (t1 t2 : list Event) :
  send_attempts (t1 ++ t2) = send_attempts t1 + send_attempts t2.
Proof. unfold send_attempts. now rewrite filter_app, length_app. Qed.

Lemma send_attempts_heads (bucket : string) (keys : list string) :
  send_attempts (map (CallHeadObject bucket) keys) = 0.
Proof.
  unfold send_attempts. induction keys; simpl; [reflexivity | assumption].
Qed.

(** A validated claim with a key that is not found: the missing-objects
    response, the warning listing every such key, and nothing else. *)
Lemma UploadComplete_missing (W : World) (h : Handler)
    (req : UploadCompleteRequest) :
  validation.ValidateUploadCompleteRequest req = [] ->
  not_found W (presigner h) (UploadedKeys req) <> [] ->
  UploadComplete W h (DecodeOK req)
  = (missing_objects,
     checked h req
       ++ [missing_warning (FailureID req)
             (not_found W (presigner h) (UploadedKeys req))]).
Proof.
  intros Hv Hm. unfold UploadComplete. rewrite Hv.
  rewrite VerifyObjectsExist_run.
  destruct (not_found W (presigner h) (UploadedKeys req)) as [|k m] eqn:E;
    [congruence|].
  unfold bind, log, emit, checked. cbn [fst snd List.length Nat.ltb Nat.leb].
  unfold writeError, writeJSON, ret. cbn [app]. reflexivity.
Qed.

(** A validated claim whose keys are all found is acknowledged, whatever
    the presigner and SES answer. *)
Lemma UploadComplete_present (W : World) (h : Handler)
    (req : UploadCompleteRequest) :
  validation.ValidateUploadCompleteRequest req = [] ->
  not_found W (presigner h) (UploadedKeys req) = [] ->
  value (UploadComplete W h (DecodeOK req)) = acknowledged
  /\ send_attempts (trace (UploadComplete W h (DecodeOK req)))
     = match emailer h with Some _ => 1 | None => 0 end.
Proof.
  intros Hv Hm. unfold UploadComplete. rewrite Hv.
  rewrite VerifyObjectsExist_run, Hm.
  unfold s3client.PresignGet, email.SendFailureNotification.
  destruct (PresignGetObject W _ _ _) as [url|err];
    cbn [bind log emit ret writeJSON value trace fst snd app
           List.length Nat.ltb Nat.leb];
    destruct (emailer h) as [sender|];
    try destruct (SendEmail W _) as [err'|];
    cbn [bind log emit ret writeJSON value trace fst snd app
           List.length Nat.ltb Nat.leb];
    (split; [reflexivity|]);
    rewrite ?app_nil_r;
    match goal with
    | |- send_attempts (?x :: ?l ++ ?t) = _ =>
        change (x :: l ++ t) with ([x] ++ l ++ t)
    end;
    rewrite !send_attempts_app, send_attempts_heads; reflexivity.
Qed.

(** The response to a validated claim is decided by the existence of the
    claimed keys alone. *)
Lemma UploadComplete_value (W : World) (h : Handler)
    (req : UploadCompleteRequest) :
  validation.ValidateUploadCompleteRequest req = [] ->
  value (UploadComplete W h (DecodeOK req))
  = if List.forallb (present W (presigner h)) (UploadedKeys req)
    then acknowledged else missing_objects.
Proof.
  intros Hv.
  destruct (List.forallb (present W (presigner h)) (UploadedKeys req)) eqn:E.
  - apply not_found_nil_iff in E.
    now destruct (UploadComplete_present W h req Hv E).
  - assert (Hne : not_found W (presigner h) (UploadedKeys req) <> []).
    { intros Hn. apply not_found_nil_iff in Hn. congruence. }
    now rewrite (UploadComplete_missing W h req Hv Hne).
Qed.

(** When SES refuses the mail, the handler logs the failure. *)
Lemma UploadComplete_send_failure_logged (W : World) (h : Handler)
    (req : UploadCompleteRequest) (sender : email.Sender) (err : error) :
  validation.ValidateUploadCompleteRequest req = [] ->
  not_found W (presigner h) (UploadedKeys req) = [] ->
  emailer h = Some sender ->
  (forall input, SendEmail W input = Some err) ->
  In (Log ErrorLevel [Err err] "failed to send email notification")
     (trace (UploadComplete W h (DecodeOK req))).
Proof.
  intros Hv Hm Hs Hfail. unfold UploadComplete. rewrite Hv.
  rewrite VerifyObjectsExist_run, Hm, Hs.
  unfold s3client.PresignGet, email.SendFailureNotification.
  destruct (PresignGetObject W _ _ _) as [url|err0];
    cbn [bind log emit ret writeJSON value trace fst snd app
           List.length Nat.ltb Nat.leb];
    rewrite Hfail;
    cbn [bind log emit ret writeJSON value trace fst snd app
           List.length Nat.ltb Nat.leb];
    right; apply in_or_app; right;
    repeat (first [left; reflexivity | right]).
Qed.

End CompletionFacts.

Module CompletionClaims.
Import Eff models handlers Spec CompletionFacts.

Lemma not_found_absent (W : World) (p : s3client.Presigner)
    (keys : list string) :
  (forall k, In k keys -> check_errored W p k = false) ->
  not_found W p keys = filter (absent W p) keys.
Proof.
  intros Hclean. unfold not_found. apply filter_ext_in.
  intros k Hk. specialize (Hclean k Hk).
  unfold present, absent, check_errored in *.
  destruct (HeadObject W (s3client.bucket p) k) as [[|msg]|];
    [reflexivity | discriminate | reflexivity].
Qed.

(** C1, as stated, fails: the missing-objects response is the same
    whichever key is absent, and its [Details] are empty, so the failure
    returned to the caller names no key. *)
Lemma missing_objects_response_names_no_key :
  value (UploadComplete (Samples.world [] [] [] true) Samples.with_mail
           (DecodeOK (Samples.claim "abc-123" "myapp" "prod"
                        [Samples.k_envelope])))
  = value (UploadComplete (Samples.world [] [] [] true) Samples.with_mail
             (DecodeOK (Samples.claim "abc-123" "myapp" "prod"
                          [Samples.k_request])))
  /\ value (UploadComplete (Samples.world [] [] [] true) Samples.with_mail
              (DecodeOK (Samples.claim "abc-123" "myapp" "prod"
                           [Samples.k_envelope])))
     = mkResponse 400
         (ErrorJSON (mkErrorResponse "Some objects were not found in S3"
                       "missing_objects" ""))
  /\ filter (absent (Samples.world [] [] [] true) Samples.the_presigner)
       [Samples.k_envelope]
     <> filter (absent (Samples.world [] [] [] true) Samples.the_presigner)
          [Samples.k_request].
Proof.
  split; [reflexivity|]. split; [reflexivity|]. discriminate.
Qed.

(** C1, amended.  When every existence check of a validated claim answers
    cleanly and at least one claimed key is absent, [UploadComplete]
    answers 400 [missing_objects] with empty details;
    [VerifyObjectsExist] returns every absent claimed key (all of them, in
    claim order), and that full list is what the warning log line
    carries.  Nothing is presigned or sent. *)
Theorem missing_objects_collected_and_logged
    (W : World) (h : Handler) (req : UploadCompleteRequest) :
  validation.ValidateUploadCompleteRequest req = [] ->
  (forall k, In k (UploadedKeys req) ->
             check_errored W (presigner h) k = false) ->
  (exists k, In k (UploadedKeys req) /\ absent W (presigner h) k = true) ->
  value (UploadComplete W h (DecodeOK req)) = missing_objects
  /\ value (s3client.VerifyObjectsExist W (presigner h) (UploadedKeys req))
     = (filter (absent W (presigner h)) (UploadedKeys req), None)
  /\ trace (UploadComplete W h (DecodeOK req))
     = checked h req
         ++ [missing_warning (FailureID req)
               (filter (absent W (presigner h)) (UploadedKeys req))]
  /\ (forall k, In k (filter (absent W (presigner h)) (UploadedKeys req))
                <-> In k (UploadedKeys req)
                    /\ absent W (presigner h) k = true).
Proof.
  intros Hv Hclean (k & Hk & Habs).
  pose proof (not_found_absent W (presigner h) _ Hclean) as Hnf.
  assert (Hne : not_found W (presigner h) (UploadedKeys req) <> []).
  { rewrite Hnf. intros E.
    assert (Hin : In k (filter (absent W (presigner h)) (UploadedKeys req)))
      by (apply filter_In; auto).
    rewrite E in Hin. contradiction. }
  rewrite (UploadComplete_missing W h req Hv Hne).
  rewrite VerifyObjectsExist_run, Hnf.
  split; [reflexivity|]. split; [reflexivity|]. split; [reflexivity|].
  intros k'. apply filter_In.
Qed.

(** Three of the four required keys uploaded: the one absent key is the
    one collected and logged. *)
Lemma missing_objects_example :
  validation.ValidateUploadCompleteRequest
    (Samples.claim "abc-123" "myapp" "prod" Samples.four_keys) = []
  /\ value (UploadComplete
              (Samples.world
                 [Samples.k_envelope; Samples.k_request; Samples.k_headers]
                 [] [] true)
              Samples.with_mail
              (DecodeOK (Samples.claim "abc-123" "myapp" "prod"
                           Samples.four_keys)))
     = missing_objects
  /\ value (s3client.VerifyObjectsExist
              (Samples.world
                 [Samples.k_envelope; Samples.k_request; Samples.k_headers]
                 [] [] true)
              Samples.the_presigner Samples.four_keys)
     = ([Samples.k_checksums], None).
Proof.
  destruct (missing_objects_collected_and_logged
              (Samples.world
                 [Samples.k_envelope; Samples.k_request; Samples.k_headers]
                 [] [] true)
              Samples.with_mail
              (Samples.claim "abc-123" "myapp" "prod" Samples.four_keys))
    as (Hr & Hm & _).
  - reflexivity.
  - intros k Hk. cbn in Hk.
    repeat (destruct Hk as [<-|Hk]; [reflexivity|]). contradiction.
  - exists Samples.k_checksums. split; [|reflexivity].
    cbn. tauto.
  - split; [reflexivity|]. split; [exact Hr | exact Hm].
Defined.

(** [VerifyObjectsExist] never returns an error, so [UploadComplete]
    never answers [verification_failed]. *)
Lemma VerifyObjectsExist_never_errors (W : World) (p : s3client.Presigner)
    (keys : list string) :
  snd (value (s3client.VerifyObjectsExist W p keys)) = None.
Proof. now rewrite VerifyObjectsExist_run. Qed.

(** A key whose existence check errors is collected with the absent
    ones. *)
Lemma errored_check_counted_missing (W : World) (p : s3client.Presigner)
    (keys : list string) (k : string) :
  In k keys -> check_errored W p k = true ->
  In k (fst (value (s3client.VerifyObjectsExist W p keys))).
Proof.
  intros Hk He. rewrite VerifyObjectsExist_run. cbn [value fst].
  apply filter_In. split; [exact Hk|].
  unfold present, check_errored in *.
  destruct (HeadObject W (s3client.bucket p) k) as [[|msg]|];
    [discriminate | reflexivity | discriminate].
Qed.

(** C2 on the code.  All four objects are in the bucket, but the
    existence check of [request.raw] times out: the request is answered
    400 [missing_objects], not 500 [verification_failed], and the warning
    lists the key as missing. *)
Theorem existence_check_error_reported_as_missing :
  check_errored (Samples.world Samples.four_keys [Samples.k_request] [] true)
    Samples.the_presigner Samples.k_request = true
  /\ value (UploadComplete
              (Samples.world Samples.four_keys [Samples.k_request] [] true)
              Samples.with_mail
              (DecodeOK (Samples.claim "abc-123" "myapp" "prod"
                           Samples.four_keys)))
     = missing_objects
  /\ missing_objects <> verification_failed
  /\ In (missing_warning "abc-123" [Samples.k_request])
       (trace (UploadComplete
                 (Samples.world Samples.four_keys [Samples.k_request] [] true)
                 Samples.with_mail
                 (DecodeOK (Samples.claim "abc-123" "myapp" "prod"
                              Samples.four_keys)))).
Proof.
  split; [reflexivity|]. split; [reflexivity|]. split; [discriminate|].
  vm_compute. repeat (first [left; reflexivity | right]).
Qed.

(** C8, as stated, fails: a handler built without an email sender
    acknowledges a complete bundle and makes no notification attempt. *)
Lemma completion_without_sender_sends_nothing :
  validation.ValidateUploadCompleteRequest
    (Samples.claim "abc-123" "myapp" "prod" Samples.four_keys) = []
  /\ List.forallb
       (present (Samples.world Samples.four_keys [] [] true)
          Samples.the_presigner) Samples.four_keys = true
  /\ value (UploadComplete (Samples.world Samples.four_keys [] [] true)
              Samples.without_mail
              (DecodeOK (Samples.claim "abc-123" "myapp" "prod"
                           Samples.four_keys)))
     = acknowledged
  /\ send_attempts
       (trace (UploadComplete (Samples.world Samples.four_keys [] [] true)
                 Samples.without_mail
                 (DecodeOK (Samples.claim "abc-123" "myapp" "prod"
                              Samples.four_keys))))
     = 0.
Proof. repeat split; reflexivity. Qed.

(** C8, amended.  For every validated completion claim whose claimed keys
    are all present, [UploadComplete] returns the success acknowledgment
    and invokes the Notifier's send operation exactly once when the handler
    has an email sender, and not at all when it has none. *)
Theorem complete_bundle_acknowledged_and_notified
    (W : World) (h : Handler) (req : UploadCompleteRequest) :
  validation.ValidateUploadCompleteRequest req = [] ->
  List.forallb (present W (presigner h)) (UploadedKeys req) = true ->
  value (UploadComplete W h (DecodeOK req)) = acknowledged
  /\ send_attempts (trace (UploadComplete W h (DecodeOK req)))
     = match emailer h with Some _ => 1 | None => 0 end.
Proof.
  intros Hv Hp. apply UploadComplete_present; [exact Hv|].
  now apply not_found_nil_iff.
Qed.

Lemma complete_bundle_example :
  validation.ValidateUploadCompleteRequest
    (Samples.claim "abc-123" "myapp" "prod" Samples.four_keys) = []
  /\ value (UploadComplete (Samples.world Samples.four_keys [] [] true)
              Samples.with_mail
              (DecodeOK (Samples.claim "abc-123" "myapp" "prod"
                           Samples.four_keys)))
     = acknowledged
  /\ send_attempts
       (trace (UploadComplete (Samples.world Samples.four_keys [] [] true)
                 Samples.with_mail
                 (DecodeOK (Samples.claim "abc-123" "myapp" "prod"
                              Samples.four_keys))))
     = 1.
Proof.
  split; [reflexivity|].
  exact (complete_bundle_acknowledged_and_notified
           (Samples.world Samples.four_keys [] [] true) Samples.with_mail
           (Samples.claim "abc-123" "myapp" "prod" Samples.four_keys)
           eq_refl eq_refl).
Defined.

(** C9.  A Notifier failure is not fatal.  For every validated completion
    claim whose claimed keys are all present, when SES refuses the mail
    the response is the success acknowledgment, the same as when SES
    accepts it; with an email sender configured the one attempt is made
    and its failure is logged. *)
Theorem notifier_failure_is_not_fatal
    (W : World) (h : Handler) (req : UploadCompleteRequest) (err : error) :
  validation.ValidateUploadCompleteRequest req = [] ->
  List.forallb (present W (presigner h)) (UploadedKeys req) = true ->
  value (UploadComplete (with_mail_answer W (Some err)) h (DecodeOK req))
  = acknowledged
  /\ value (UploadComplete (with_mail_answer W (Some err)) h (DecodeOK req))
     = value (UploadComplete (with_mail_answer W None) h (DecodeOK req))
  /\ (forall sender, emailer h = Some sender ->
        send_attempts
          (trace (UploadComplete (with_mail_answer W (Some err)) h
                    (DecodeOK req))) = 1
        /\ In (Log ErrorLevel [Err err] "failed to send email notification")
              (trace (UploadComplete (with_mail_answer W (Some err)) h
                        (DecodeOK req)))).
Proof.
  intros Hv Hp. apply not_found_nil_iff in Hp.
  assert (Hf : not_found (with_mail_answer W (Some err)) (presigner h)
                 (UploadedKeys req) = []) by exact Hp.
  assert (Hs : not_found (with_mail_answer W None) (presigner h)
                 (UploadedKeys req) = []) by exact Hp.
  destruct (UploadComplete_present _ h req Hv Hf) as [Hvf Haf].
  destruct (UploadComplete_present _ h req Hv Hs) as [Hvs _].
  split; [exact Hvf|]. split; [congruence|].
  intros sender Hsender. split.
  - now rewrite Haf, Hsender.
  - now apply (UploadComplete_send_failure_logged _ h req sender err).
Qed.

Lemma notifier_failure_example :
  validation.ValidateUploadCompleteRequest
    (Samples.claim "abc-123" "myapp" "prod" Samples.four_keys) = []
  /\ value (UploadComplete (Samples.world Samples.four_keys [] [] false)
              Samples.with_mail
              (DecodeOK (Samples.claim "abc-123" "myapp" "prod"
                           Samples.four_keys)))
     = acknowledged.
Proof.
  split; [reflexivity|].
  exact (proj1 (notifier_failure_is_not_fatal
                  (Samples.world Samples.four_keys [] [] false)
                  Samples.with_mail
                  (Samples.claim "abc-123" "myapp" "prod" Samples.four_keys)
                  (ErrOther "MessageRejected") eq_refl eq_refl)).
Defined.

(** C10.  [UploadComplete] never checks that the claimed keys belong to
    the claimed bundle.  The response to a validated claim is the
    acknowledgment when every literal key of its list exists and
    [missing_objects] otherwise, so two validated claims with the same key
    list get the same response whatever their bundle identifiers, projects
    and environments. *)
Theorem completion_outcome_depends_on_keys_only
    (W : World) (h : Handler) (req1 req2 : UploadCompleteRequest) :
  validation.ValidateUploadCompleteRequest req1 = [] ->
  validation.ValidateUploadCompleteRequest req2 = [] ->
  UploadedKeys req1 = UploadedKeys req2 ->
  value (UploadComplete W h (DecodeOK req1))
  = value (UploadComplete W h (DecodeOK req2))
  /\ value (UploadComplete W h (DecodeOK req1))
     = if List.forallb (present W (presigner h)) (UploadedKeys req1)
       then acknowledged else missing_objects.
Proof.
  intros H1 H2 Hk.
  rewrite !UploadComplete_value by assumption.
  now rewrite Hk.
Qed.

(** A claim for bundle ["another-bundle"] of project ["otherapp"] that
    lists the four keys of bundle ["abc-123"] of project ["myapp"] is
    acknowledged, although none of the keys lies under a prefix derived
    for the claimed identity, whatever the date. *)
Lemma foreign_keys_accepted :
  validation.ValidateUploadCompleteRequest
    (Samples.claim "abc-123" "myapp" "prod" Samples.four_keys) = []
  /\ validation.ValidateUploadCompleteRequest
       (Samples.claim "another-bundle" "otherapp" "staging"
          Samples.four_keys) = []
  /\ value (UploadComplete (Samples.world Samples.four_keys [] [] true)
              Samples.with_mail
              (DecodeOK (Samples.claim "another-bundle" "otherapp" "staging"
                           Samples.four_keys)))
     = acknowledged
  /\ (forall d k, In k Samples.four_keys ->
        ~ is_prefix_of
            (keys.Prefix
               (keys.mkBuilder "otherapp" "staging" "another-bundle" d))
            k).
Proof.
  destruct (completion_outcome_depends_on_keys_only
              (Samples.world Samples.four_keys [] [] true) Samples.with_mail
              (Samples.claim "another-bundle" "otherapp" "staging"
                 Samples.four_keys)
              (Samples.claim "abc-123" "myapp" "prod" Samples.four_keys)
              eq_refl eq_refl eq_refl) as [_ Hv].
  split; [reflexivity|]. split; [reflexivity|]. split; [exact Hv|].
  intros d k Hk [rest E]. cbn in Hk.
  repeat (destruct Hk as [<-|Hk]; [discriminate E|]). contradiction.
Defined.

End CompletionClaims.

(* ================================================================== *)
(** * Ticket issuance *)
(* ================================================================== *)

Module TicketFacts.
Import Eff models handlers Spec.

Lemma PresignPut_run (W : World) (p : s3client.Presigner)
    (key contentType : string) :
  s3client.PresignPut W p key contentType
  = match authority W p (key, contentType) with
    | inl url =>
        ((url, None),
         [CallPresignPut (s3client.bucket p) key contentType (s3client.ttl p)])
    | inr err =>
        (("", Some err),
         [CallPresignPut (s3client.bucket p) key contentType (s3client.ttl p);
          Log ErrorLevel [Err err; Str "key" key]
            "failed to presign PUT URL"])
    end.
Proof.
  unfold s3client.PresignPut, authority. cbn [fst snd].
  destruct (PresignPutObject W _ _ _ _); reflexivity.
Qed.

Lemma first_refusal_iff (W : World) (p : s3client.Presigner)
    (slots : list (string * string)) :
  (exists slot, In slot slots /\ refused W p slot = true)
  <-> first_refusal W p slots <> None.
Proof.
  unfold refused. induction slots as [|s slots IH]; cbn [first_refusal].
  - split; [intros (x & [] & _) | congruence].
  - destruct (authority W p s) as [url|err] eqn:E.
    + rewrite <- IH. split.
      * intros (x & [<-|Hx] & Hr); [rewrite E in Hr; discriminate|eauto].
      * intros (x & Hx & Hr). exists x. split; [now right | exact Hr].
    + split; [discriminate|]. intros _. exists s.
      split; [now left | now rewrite E].
Qed.

Lemma presign_put_requests_app (t1 t2 : list Event) :
  presign_put_requests (t1 ++ t2)
  = presign_put_requests t1 + presign_put_requests t2.
Proof. unfold presign_put_requests. now rewrite filter_app, length_app. Qed.

(** The loop over the files: the first refusal ends it without uploads;
    otherwise every file gets its authorization, in order. *)
Lemma presign_files_run (W : World) (h : Handler) (kb : keys.Builder)
    (files : list FileInfo) : forall uploads,
  match first_refusal W (presigner h) (file_slots kb files) with
  | Some err =>
      value (presign_files W h kb files uploads) = (None, Some err)
  | None =>
      value (presign_files W h kb files uploads)
      = (Some (add_files uploads
                 (map (grant W (presigner h)) (file_slots kb files))),
         None)
      /\ presign_put_requests (trace (presign_files W h kb files uploads))
         = List.length files
  end.
Proof.
  induction files as [|file files IH]; intros uploads.
  - cbn. unfold add_files. rewrite app_nil_r. destruct uploads.
    split; reflexivity.
  - cbn [file_slots map first_refusal presign_files].
    rewrite PresignPut_run. unfold grant at 1.
    destruct (authority W (presigner h) _) as [url|err] eqn:E.
    + cbn [bind fst snd value trace].
      match goal with
      | |- context [presign_files W h kb files ?u] => specialize (IH u)
      end.
      fold (file_slots kb files).
      destruct (first_refusal W (presigner h) (file_slots kb files)).
      * destruct (presign_files W h kb files _) as [v t].
        cbn [value fst] in *. exact IH.
      * destruct (presign_files W h kb files _) as [v t].
        cbn [value trace fst snd] in *. destruct IH as [IHv IHt].
        split.
        -- rewrite IHv. unfold add_files. cbn [UEnvelope URequestRaw
             URequestHeaders UResponseRaw UFiles UChecksums].
           now rewrite <- app_assoc.
        -- cbn [app]. change (?x :: t) with ([x] ++ t).
           rewrite presign_put_requests_app, IHt. reflexivity.
    + reflexivity.
Qed.

(** [generatePresignedURLs]: the first refusal, in request order, ends it
    with that error and no uploads; without a refusal the uploads hold
    the authorization granted for every slot, and that many requests were
    made. *)
Lemma generatePresignedURLs_run (W : World) (h : Handler)
    (kb : keys.Builder) (req : UploadTicketRequest) :
  match first_refusal W (presigner h) (ticket_slots kb req) with
  | Some err =>
      value (generatePresignedURLs W h kb req) = (None, Some err)
  | None =>
      exists uploads,
        value (generatePresignedURLs W h kb req) = (Some uploads, None)
        /\ authorizations uploads
           = map (grant W (presigner h)) (ticket_slots kb req)
        /\ presign_put_requests (trace (generatePresignedURLs W h kb req))
           = List.length (ticket_slots kb req)
  end.
Proof.
  unfold generatePresignedURLs, ticket_slots.
  cbn [app first_refusal].
  rewrite !PresignPut_run.
  destruct (authority W (presigner h) (keys.Envelope kb, _))
    as [u1|e1] eqn:E1; [|reflexivity].
  cbn [bind fst snd value trace].
  destruct (authority W (presigner h) (keys.RequestRaw kb, _))
    as [u2|e2] eqn:E2; [|reflexivity].
  cbn [bind fst snd value trace].
  destruct (authority W (presigner h) (keys.RequestHeaders kb, _))
    as [u3|e3] eqn:E3; [|reflexivity].
  cbn [bind fst snd value trace].
  destruct (authority W (presigner h) (keys.ResponseRaw kb, _))
    as [u4|e4] eqn:E4; [|reflexivity].
  cbn [bind fst snd value trace].
  destruct (authority W (presigner h) (keys.Checksums kb, _))
    as [u5|e5] eqn:E5; [|reflexivity].
  cbn [bind fst snd value trace].
  match goal with
  | |- context [presign_files W h kb ?fs ?u] =>
      pose proof (presign_files_run W h kb fs u) as Hf
  end.
  destruct (first_refusal W (presigner h)
              (file_slots kb (Files (Request req)))) as [err|].
  - destruct (presign_files W h kb _ _) as [v t]. exact Hf.
  - destruct (presign_files W h kb _ _) as [v t].
    cbn [value trace fst snd] in *. destruct Hf as [Hv Ht].
    eexists. split; [exact Hv|]. split.
    + unfold authorizations, add_files, grant.
      cbn [UEnvelope URequestRaw URequestHeaders UResponseRaw UFiles
             UChecksums app map fst].
      rewrite E1, E2, E3, E4, E5. reflexivity.
    + cbn [app]. change (?a :: ?b :: ?c :: ?d :: ?e :: t)
        with ([a; b; c; d; e] ++ t).
      rewrite presign_put_requests_app, Ht.
      unfold file_slots. cbn [List.length]. now rewrite length_map.
Qed.

(** [UploadTicket] on a validated request: 500 [presign_failed] at the
    first refusal, otherwise the 200 ticket with the authorization granted
    for every slot. *)
Lemma UploadTicket_run (W : World) (h : Handler) (req : UploadTicketRequest) :
  validation.ValidateUploadTicketRequest W req (cfg h) = [] ->
  match first_refusal W (presigner h)
          (ticket_slots (ticket_builder W req) req) with
  | Some err => value (UploadTicket W h (DecodeOK req)) = presign_failed
  | None =>
      exists uploads,
        value (UploadTicket W h (DecodeOK req))
        = mkResponse 200
            (TicketJSON
               (mkUploadTicketResponse (NewUUID W)
                  (keys.Prefix (ticket_builder W req)) uploads
                  (Z.quot (config.PresignTTL (cfg h)) 1000000000)))
        /\ authorizations uploads
           = map (grant W (presigner h))
               (ticket_slots (ticket_builder W req) req)
        /\ presign_put_requests (trace (UploadTicket W h (DecodeOK req)))
           = List.length (ticket_slots (ticket_builder W req) req)
  end.
Proof.
  intros Hv. unfold UploadTicket. rewrite Hv.
  fold (ticket_builder W req).
  pose proof (generatePresignedURLs_run W h (ticket_builder W req) req) as Hg.
  destruct (first_refusal W (presigner h)
              (ticket_slots (ticket_builder W req) req)) as [err|].
  - destruct (generatePresignedURLs W h _ req) as [v t].
    cbn [value trace fst snd] in *. subst v. reflexivity.
  - destruct Hg as (uploads & Hval & Hauth & Hcount).
    destruct (generatePresignedURLs W h _ req) as [v t].
    cbn [value trace fst snd] in *. subst v.
    exists uploads. split; [reflexivity|]. split; [exact Hauth|].
    cbn [bind log emit writeJSON ret fst snd trace app].
    rewrite app_nil_r. exact Hcount.
Qed.

End TicketFacts.

Module TicketClaims.
Import Eff models handlers Spec TicketFacts.

(** C6.  [UploadTicket] is all-or-nothing.  For every validated bundle
    description, if the Storage Authority refuses the write-authorization
    of any single slot, [generatePresignedURLs] returns no uploads and an
    error, and the response is 500 [presign_failed], which carries no
    authorization at all. *)
Theorem ticket_is_all_or_nothing
    (W : World) (h : Handler) (req : UploadTicketRequest)
    (slot : string * string) :
  validation.ValidateUploadTicketRequest W req (cfg h) = [] ->
  In slot (ticket_slots (ticket_builder W req) req) ->
  refused W (presigner h) slot = true ->
  value (UploadTicket W h (DecodeOK req)) = presign_failed
  /\ fst (value (generatePresignedURLs W h (ticket_builder W req) req)) = None
  /\ snd (value (generatePresignedURLs W h (ticket_builder W req) req))
     <> None
  /\ (forall t, Payload (value (UploadTicket W h (DecodeOK req)))
                <> TicketJSON t).
Proof.
  intros Hv Hin Hr.
  assert (Hne : first_refusal W (presigner h)
                  (ticket_slots (ticket_builder W req) req) <> None)
    by (apply first_refusal_iff; eauto).
  pose proof (UploadTicket_run W h req Hv) as Ht.
  pose proof (generatePresignedURLs_run W h (ticket_builder W req) req) as Hg.
  destruct (first_refusal W (presigner h)
              (ticket_slots (ticket_builder W req) req)) as [err|];
    [|congruence].
  rewrite Ht, Hg. cbn [fst snd]. repeat split; discriminate.
Qed.

(** Two attachments declared, the second one refused: no ticket. *)
Lemma ticket_refused_example :
  validation.ValidateUploadTicketRequest
    (Samples.world [] []
       ["failures/myapp/prod/2024/03/15/550e8400-e29b-41d4-a716-446655440000/files/b.png"]
       true)
    (Samples.ticket_request [Samples.photo "a.jpg"; Samples.photo "b.png"])
    Samples.the_cfg = []
  /\ value (UploadTicket
              (Samples.world [] []
                 ["failures/myapp/prod/2024/03/15/550e8400-e29b-41d4-a716-446655440000/files/b.png"]
                 true)
              Samples.with_mail
              (DecodeOK (Samples.ticket_request
                           [Samples.photo "a.jpg"; Samples.photo "b.png"])))
     = presign_failed.
Proof.
  split; [reflexivity|].
  refine (proj1 (ticket_is_all_or_nothing
                   (Samples.world [] []
                      ["failures/myapp/prod/2024/03/15/550e8400-e29b-41d4-a716-446655440000/files/b.png"]
                      true)
                   Samples.with_mail
                   (Samples.ticket_request
                      [Samples.photo "a.jpg"; Samples.photo "b.png"])
                   ("failures/myapp/prod/2024/03/15/550e8400-e29b-41d4-a716-446655440000/files/b.png",
                    "image/jpeg")
                   eq_refl _ eq_refl)).
  vm_compute. repeat (first [left; reflexivity | right]).
Defined.

Lemma AllKeys_length (kb : keys.Builder) (filenames : list string) :
  List.length (keys.AllKeys kb filenames) = 4 + 1 + List.length filenames.
Proof.
  rewrite KeyFacts.AllKeys_map, length_app. cbn [List.length keys.RequiredKeys].
  rewrite length_map. lia.
Qed.

(** C7.  Every ticket issued carries 4 + 1 + (number of declared files)
    write-authorizations: one per slot, for the keys of the slots in
    request order, each requested exactly once; [AllKeys] of the same
    builder and file names has the same number of keys. *)
Theorem ticket_has_one_authorization_per_slot
    (W : World) (h : Handler) (req : UploadTicketRequest)
    (t : UploadTicketResponse) :
  value (UploadTicket W h (DecodeOK req)) = mkResponse 200 (TicketJSON t) ->
  List.length (authorizations (Uploads t))
  = 4 + 1 + List.length (Files (Request req))
  /\ map Key (authorizations (Uploads t))
     = map fst (ticket_slots (ticket_builder W req) req)
  /\ presign_put_requests (trace (UploadTicket W h (DecodeOK req)))
     = 4 + 1 + List.length (Files (Request req))
  /\ List.length
       (keys.AllKeys (ticket_builder W req)
          (map Filename (Files (Request req))))
     = List.length (authorizations (Uploads t)).
Proof.
  intros Hok.
  assert (Hlen : List.length (ticket_slots (ticket_builder W req) req)
                 = 4 + 1 + List.length (Files (Request req))).
  { unfold ticket_slots, file_slots. rewrite length_app, length_map.
    reflexivity. }
  destruct (validation.ValidateUploadTicketRequest W req (cfg h))
    as [|e errs] eqn:Hv.
  - pose proof (UploadTicket_run W h req Hv) as Ht.
    destruct (first_refusal W (presigner h)
                (ticket_slots (ticket_builder W req) req)) as [err|].
    + rewrite Ht in Hok. discriminate.
    + destruct Ht as (uploads & Hval & Hauth & Hcount).
      rewrite Hval in Hok. injection Hok as <-.
      cbn [Uploads]. rewrite Hauth, Hcount, AllKeys_length.
      rewrite !length_map, Hlen.
      repeat split; try reflexivity.
      rewrite map_map. apply map_ext. reflexivity.
  - unfold UploadTicket in Hok. rewrite Hv in Hok. discriminate.
Qed.

(** The README's request with two attachments: seven authorizations. *)
Lemma ticket_count_example :
  exists t,
    value (UploadTicket (Samples.world [] [] [] true) Samples.with_mail
             (DecodeOK (Samples.ticket_request
                          [Samples.photo "a.jpg"; Samples.photo "b.png"])))
    = mkResponse 200 (TicketJSON t)
    /\ List.length (authorizations (Uploads t)) = 7.
Proof.
  eexists. split; [vm_compute; reflexivity|].
  refine (proj1 (ticket_has_one_authorization_per_slot
                   (Samples.world [] [] [] true) Samples.with_mail
                   (Samples.ticket_request
                      [Samples.photo "a.jpg"; Samples.photo "b.png"])
                   _ _)).
  vm_compute. reflexivity.
Defined.

End TicketClaims.

(* ================================================================== *)
(** * More about key derivation *)
(* ================================================================== *)

Module KeyExtras.
Import keys Str path StrFacts PathFacts TimeFacts KeyFacts Spec Notions.

Lemma decimal_value_append (a b : string) : forall acc,
  decimal_value (a ++ b) acc = decimal_value b (decimal_value a acc).
Proof.
  induction a as [|c a IH]; intros acc; [reflexivity|].
  cbn [append decimal_value]. apply IH.
Qed.

Lemma decimal_value_zeros (n : nat) : decimal_value (time.zeros n) 0 = 0%Z.
Proof. induction n as [|n IH]; [reflexivity|]. exact IH. Qed.

(** Reading a printed non-negative field gives the field back. *)
Lemma appendInt_value (x : Z) (width : nat) :
  (0 <= x)%Z -> decimal_value (time.appendInt x width) 0 = x.
Proof.
  intros Hx. unfold time.appendInt.
  destruct (Z.ltb_spec x 0) as [Hneg|_]; [lia|].
  cbn [append]. rewrite decimal_value_append, decimal_value_zeros.
  rewrite Z.abs_eq by exact Hx. now apply utoa_value.
Qed.

Lemma appendInt_inj (x y : Z) (width : nat) :
  (0 <= x)%Z -> (0 <= y)%Z ->
  time.appendInt x width = time.appendInt y width -> x = y.
Proof.
  intros Hx Hy E. apply (f_equal (fun s => decimal_value s 0)) in E.
  now rewrite !appendInt_value in E.
Qed.

Lemma Prefix_fields_inj
    (b1 b2 : Builder) (r1 r2 : string) :
  valid_identity b1 = true -> valid_identity b2 = true ->
  valid_date (date b1) = true -> valid_date (date b2) = true ->
  (Prefix b1 ++ r1 = Prefix b2 ++ r2)%string ->
  project b1 = project b2 /\ env b1 = env b2
  /\ failureID b1 = failureID b2
  /\ time.Year (date b1) = time.Year (date b2)
  /\ time.Month (date b1) = time.Month (date b2)
  /\ time.Day (date b1) = time.Day (date b2).
Proof.
  intros H1 H2 D1 D2 E.
  unfold valid_date in D1, D2.
  rewrite !andb_true_iff, !Z.leb_le in D1, D2.
  apply (f_equal (split_on slash)) in E.
  rewrite !Prefix_elements in E.
  rewrite !split_on_dir in E by now apply elements_no_slash.
  unfold elements in E. cbn [app] in E.
  injection E as Ep Ee Ey Em Ed Ei _.
  repeat split; try assumption.
  - apply (appendInt_inj _ _ 4); [lia | lia | exact Ey].
  - apply (appendInt_inj _ _ 2); [lia | lia | exact Em].
  - apply (appendInt_inj _ _ 2); [lia | lia | exact Ed].
Qed.

(** X1.  Key derivation is injective in every field: two strings under the
    prefixes of valid identities with valid dates are equal only if
    project, environment, bundle identifier and calendar day all agree. *)
Theorem prefix_determines_identity
    (b1 b2 : Builder) (r1 r2 : string) :
  valid_identity b1 = true -> valid_identity b2 = true ->
  valid_date (date b1) = true -> valid_date (date b2) = true ->
  (Prefix b1 ++ r1 = Prefix b2 ++ r2)%string ->
  project b1 = project b2 /\ env b1 = env b2
  /\ failureID b1 = failureID b2
  /\ time.Year (date b1) = time.Year (date b2)
  /\ time.Month (date b1) = time.Month (date b2)
  /\ time.Day (date b1) = time.Day (date b2).
Proof. exact (Prefix_fields_inj b1 b2 r1 r2). Qed.

Lemma prefix_determines_identity_example :
  valid_identity Samples.builder = true
  /\ valid_date (date Samples.builder) = true
  /\ time.Day (date Samples.builder) = 15%Z.
Proof.
  split; [reflexivity|]. split; [reflexivity|].
  exact (proj2 (proj2 (proj2 (proj2 (proj2
    (prefix_determines_identity Samples.builder
       (mkBuilder "myapp" "prod" "abc-123" (time.mkTime 2024 3 15 23 59 59))
       "envelope.json" "envelope.json"
       eq_refl eq_refl eq_refl eq_refl eq_refl)))))).
Defined.

Lemma clean_step_empty (rooted : bool) (out : list string) :
  clean_step rooted out "" = out.
Proof. reflexivity. Qed.

Lemma clean_step_dotdot (rooted : bool) (top : string) (rest : list string) :
  plain top = true -> clean_step rooted (top :: rest) ".." = rest.
Proof.
  intros Ht. destruct (plain_inv _ Ht) as (_ & _ & _ & Hdd).
  unfold clean_step. cbn [String.eqb Ascii.eqb Bool.eqb].
  apply String.eqb_neq in Hdd. now rewrite Hdd.
Qed.

(** Elements that are not [..]: cleaning keeps exactly the plain ones. *)
Lemma fold_clean_no_dotdot (rooted : bool) (segs : list string) :
  Forall (fun e => mem slash e = false /\ e <> "..") segs ->
  forall out,
    fold_left (clean_step rooted) segs out = rev (filter plain segs) ++ out.
Proof.
  induction 1 as [|e segs [Hs Hdd] _ IH]; intros out; [reflexivity|].
  cbn [fold_left filter]. rewrite IH.
  destruct (plain e) eqn:Hp.
  - rewrite clean_step_plain by exact Hp. cbn [rev].
    now rewrite <- app_assoc.
  - unfold clean_step.
    destruct (String.eqb_spec e "") as [E0|N0]; [reflexivity|].
    destruct (String.eqb_spec e ".") as [E1|N1]; [reflexivity|].
    exfalso. unfold plain in Hp.
    apply String.eqb_neq in N0, N1, Hdd.
    rewrite N0, N1, Hdd, Hs in Hp. discriminate.
Qed.

Lemma filter_plain_all (l : list string) :
  Forall (fun e => plain e = true) l -> filter plain l = l.
Proof.
  induction 1 as [|e l He _ IH]; [reflexivity|].
  cbn [filter]. now rewrite He, IH.
Qed.

Lemma kept_shape_nonempty (out : list string) :
  kept_shape out = true -> Forall (fun e => e <> "") out.
Proof.
  induction out as [|top rest IH]; intros Hs; [constructor|].
  cbn [kept_shape] in Hs.
  destruct (String.eqb_spec top "..") as [Et|Nt].
  - subst top. constructor; [discriminate|].
    rewrite forallb_forall in Hs. apply Forall_forall. intros y Hy.
    specialize (Hs y Hy). apply String.eqb_eq in Hs. subst y. discriminate.
  - apply andb_true_iff in Hs. destruct Hs as [Ht Hr].
    constructor; [|now apply IH].
    now destruct (plain_inv _ Ht) as (? & _).
Qed.

Lemma join_slash_nonempty (e : string) (l : list string) :
  e <> "" -> join_slash (e :: l) <> "".
Proof.
  intros He. destruct e as [|a e]; [congruence|].
  destruct (join_slash_head a e l) as [tail ->]. discriminate.
Qed.

(** [Clean] of a relative path that starts with a plain element, in terms
    of the elements it keeps. *)
Lemma Clean_relative (first : string) (rest : list string) :
  plain first = true ->
  Forall (fun e => mem slash e = false) rest ->
  Clean (join_slash (first :: rest))
  = match rev (fold_left (clean_step false) rest [first]) with
    | [] => "."
    | kept => join_slash kept
    end.
Proof.
  intros Hf Hrest.
  destruct (plain_inv _ Hf) as (Hne & Hns & _).
  destruct first as [|a f]; [congruence|].
  assert (Ha : Ascii.eqb a slash = false).
  { cbn [mem] in Hns. now apply orb_false_iff in Hns. }
  assert (Hsplit : split_on slash (join_slash (String a f :: rest))
                   = String a f :: rest)
    by (apply split_join; [discriminate | now constructor]).
  unfold Clean. rewrite Hsplit.
  destruct (join_slash_head a f rest) as [tail Et].
  assert (Hroot : HasPrefix (String a tail) "/" = false).
  { destruct (HasPrefix (String a tail) "/") eqn:E; [|reflexivity].
    apply HasPrefix_spec in E. destruct E as [r Er].
    injection Er as -> _. discriminate. }
  rewrite Et. change (String a tail =? "")%string with false. cbv iota.
  rewrite Hroot. cbn [fold_left]. rewrite clean_step_plain by exact Hf.
  set (out := fold_left (clean_step false) rest [String a f]).
  assert (Hshape : kept_shape out = true).
  { apply fold_clean_step_shape; [exact Hrest|].
    cbn [kept_shape]. rewrite Hf.
    destruct (plain_inv _ Hf) as (_ & _ & _ & Hdd).
    apply String.eqb_neq in Hdd. now rewrite Hdd. }
  pose proof (Forall_rev (kept_shape_nonempty out Hshape)) as Hall.
  destruct (rev out) as [|e kept]; [reflexivity|].
  inversion Hall as [|? ? He _]; subst.
  pose proof (join_slash_nonempty e kept He) as Hj.
  apply String.eqb_neq in Hj. now rewrite Hj.
Qed.

Lemma elements_plain_each (b : Builder) :
  valid_identity b = true ->
  plain (project b) = true /\ plain (env b) = true
  /\ plain (time.appendInt (time.Year (date b)) 4) = true
  /\ plain (time.appendInt (time.Month (date b)) 2) = true
  /\ plain (time.appendInt (time.Day (date b)) 2) = true
  /\ plain (failureID b) = true.
Proof.
  intros Hb. pose proof (elements_plain b Hb) as H. unfold elements in H.
  repeat match goal with
         | H : Forall _ (_ :: _) |- _ => inversion H; subst; clear H
         end.
  repeat split; assumption.
Qed.

(** An attachment key as the cleaning of the prefix's elements, an empty
    element, [files] and the elements of the file name. *)
Lemma File_as_Clean (b : Builder) (filename : string) :
  File b filename
  = Clean (join_slash ((elements b ++ [""])
                         ++ "files" :: split_on slash filename)).
Proof.
  unfold File. rewrite Join_Prefix. cbn [fold_left].
  rewrite join_slash_app by (discriminate || (unfold elements; discriminate)).
  rewrite join_slash_cons by apply split_on_not_nil.
  rewrite join_split, <- Prefix_elements.
  rewrite append_assoc. reflexivity.
Qed.

Lemma join_under (segs l : list string) :
  segs <> [] -> l <> [] ->
  join_slash (segs ++ l)
  = (join_slash (segs ++ [""]) ++ join_slash l)%string.
Proof.
  intros Hs Hl. rewrite !join_slash_app by (assumption || discriminate).
  change (join_slash [""]) with "". rewrite append_assoc. reflexivity.
Qed.

(** X2.  A file name without [..] elements cannot leave [files/]: for a
    valid identity the attachment key is the prefix, [files] and the plain
    elements of the name (empty and [.] elements dropped). *)
Theorem attachment_without_dotdot_stays_under_files
    (b : Builder) (filename : string) :
  valid_identity b = true ->
  no_dotdot filename = true ->
  File b filename
  = (Prefix b
       ++ join_slash ("files" :: filter plain (split_on slash filename)))%string
  /\ is_prefix_of (Prefix b ++ "files")%string (File b filename).
Proof.
  intros Hb Hnd.
  destruct (elements_plain_each b Hb) as (Hp & He & Hy & Hm & Hd & Hi).
  assert (E : File b filename
              = (Prefix b
                   ++ join_slash
                        ("files" :: filter plain (split_on slash filename)))%string).
  { rewrite File_as_Clean. unfold elements. cbn [app].
    rewrite Clean_relative.
    - rewrite fold_clean_no_dotdot.
      + cbn [filter]. rewrite Hp, He, Hy, Hm, Hd, Hi.
        cbn [plain String.eqb negb andb filter].
        change (plain "files") with true. cbv iota.
        rewrite rev_app_distr, rev_involutive. cbn [rev app].
        transitivity
          (join_slash
             (elements b
                ++ "files" :: filter plain (split_on slash filename)));
          [reflexivity|].
        rewrite join_under by (discriminate || (unfold elements; discriminate)).
        now rewrite <- Prefix_elements.
      + repeat (constructor;
                [split; [first [now apply plain_inv | reflexivity]
                        | first [now apply plain_inv | discriminate]]|]).
        unfold no_dotdot in Hnd. rewrite forallb_forall in Hnd.
        pose proof (split_on_no_slash filename) as Hns.
        rewrite Forall_forall in *. intros e Hin. split; [now apply Hns|].
        specialize (Hnd e Hin). apply negb_true_iff in Hnd.
        now apply String.eqb_neq.
    - reflexivity.
    - repeat (constructor; [first [now apply plain_inv | reflexivity]|]).
      apply split_on_no_slash. }
  split; [exact E|]. rewrite E.
  destruct (filter plain (split_on slash filename)) as [|e l].
  - exists "". cbn [join_slash]. now rewrite append_nil_r.
  - exists (String slash (join_slash (e :: l))).
    rewrite join_slash_cons by discriminate. now rewrite append_assoc.
Qed.

Lemma attachment_without_dotdot_example :
  valid_identity Samples.builder = true
  /\ no_dotdot "a//b/./c/" = true
  /\ File Samples.builder "a//b/./c/"
     = "failures/myapp/prod/2024/03/15/abc-123/files/a/b/c".
Proof.
  split; [reflexivity|]. split; [reflexivity|].
  exact (proj1 (attachment_without_dotdot_stays_under_files
                  Samples.builder "a//b/./c/" eq_refl eq_refl)).
Defined.

Lemma valid_with_failureID (b : Builder) (other : string) :
  valid_identity b = true -> valid_bundleID other = true ->
  valid_identity (with_failureID b other) = true.
Proof.
  unfold valid_identity, with_failureID. cbn [project env failureID].
  rewrite !andb_true_iff. tauto.
Qed.

Lemma File_reaches_other (b : Builder) (other n : string) :
  valid_identity b = true ->
  valid_bundleID other = true ->
  plain n = true ->
  File b ("../../" ++ other ++ "/" ++ n)
  = (Prefix (with_failureID b other) ++ n)%string.
Proof.
  intros Hb Ho Hn.
  { destruct (elements_plain_each b Hb) as (Hp & He & Hy & Hm & Hd & Hi).
    pose proof (valid_bundleID_plain other Ho) as Hop.
    assert (Hsplit : split_on slash ("../../" ++ other ++ "/" ++ n)
                     = [".."; ".."; other; n]).
    { change ("../../" ++ other ++ "/" ++ n)%string
        with (".." ++ String slash
                (".." ++ String slash (other ++ String slash n)))%string.
      rewrite !split_on_append
        by (reflexivity || now apply plain_inv).
      rewrite split_on_no_sep by now apply plain_inv. reflexivity. }
    rewrite File_as_Clean, Hsplit. unfold elements. cbn [app].
    rewrite Clean_relative.
    - change [project b; env b; time.appendInt (time.Year (date b)) 4;
              time.appendInt (time.Month (date b)) 2;
              time.appendInt (time.Day (date b)) 2; failureID b; "";
              "files"; ".."; ".."; other; n]
        with ([project b; env b; time.appendInt (time.Year (date b)) 4;
               time.appendInt (time.Month (date b)) 2;
               time.appendInt (time.Day (date b)) 2; failureID b; "";
               "files"] ++ [".."; ".."; other; n]).
      rewrite fold_left_app.
      rewrite (fold_clean_no_dotdot false
                 [project b; env b; time.appendInt (time.Year (date b)) 4;
                  time.appendInt (time.Month (date b)) 2;
                  time.appendInt (time.Day (date b)) 2; failureID b; "";
                  "files"]).
      + cbn [filter]. rewrite Hp, He, Hy, Hm, Hd, Hi.
        change (plain "") with false. change (plain "files") with true.
        cbv iota. cbn [rev app fold_left].
        rewrite (clean_step_dotdot false "files") by reflexivity.
        rewrite (clean_step_dotdot false (failureID b)) by exact Hi.
        rewrite !clean_step_plain by assumption.
        cbn [rev app].
        transitivity
          (join_slash (elements (with_failureID b other) ++ [n]));
          [reflexivity|].
        rewrite join_under
          by (discriminate || (unfold elements; discriminate)).
        now rewrite <- Prefix_elements.
      + repeat (constructor;
                [split; [first [now apply plain_inv | reflexivity]
                        | first [now apply plain_inv | discriminate]]|]).
        constructor.
    - reflexivity.
    - repeat (constructor; [first [now apply plain_inv | reflexivity]|]).
      constructor. }
Qed.

(** X3.  A file name with [..] elements reaches the keys of another
    bundle: for a valid identity, the attachment named
    ["../../" + other + "/" + name] has the key that [name] has directly
    under the prefix of bundle [other]; with [name] the envelope's, it is
    that bundle's envelope key. *)
Theorem attachment_name_reaches_other_bundle
    (b : Builder) (other name : string) :
  valid_identity b = true ->
  valid_bundleID other = true ->
  plain name = true ->
  File b ("../../" ++ other ++ "/" ++ name)
  = (Prefix (with_failureID b other) ++ name)%string
  /\ File b ("../../" ++ other ++ "/" ++ "envelope.json")
     = Envelope (with_failureID b other).
Proof.
  intros Hb Ho Hn. split; [now apply File_reaches_other|].
  rewrite File_reaches_other by (assumption || reflexivity). unfold Envelope.
  rewrite Join_Prefix_name;
    [reflexivity | now apply valid_with_failureID | reflexivity].
Qed.

Lemma attachment_name_reaches_other_bundle_example :
  valid_identity Samples.builder = true
  /\ valid_bundleID "xyz-789" = true
  /\ File Samples.builder "../../xyz-789/envelope.json"
     = "failures/myapp/prod/2024/03/15/xyz-789/envelope.json".
Proof.
  split; [reflexivity|]. split; [reflexivity|].
  exact (proj1 (attachment_name_reaches_other_bundle
                  Samples.builder "xyz-789" "envelope.json"
                  eq_refl eq_refl eq_refl)).
Defined.

(** X4.  Within one bundle keys collide only when file names do: for a
    valid identity and clean relative file names without repetition, the
    keys of [AllKeys] are pairwise distinct. *)
Theorem keys_of_one_bundle_distinct
    (b : Builder) (filenames : list string) :
  valid_identity b = true ->
  Forall (fun f => clean_relative f = true) filenames ->
  NoDup filenames ->
  NoDup (AllKeys b filenames).
Proof.
  intros Hb Hclean Hnd. rewrite AllKeys_map.
  unfold RequiredKeys, Envelope, RequestRaw, RequestHeaders, Checksums,
    ResponseRaw.
  rewrite !Join_Prefix_name by (exact Hb || reflexivity).
  assert (Hmap : map (File b) filenames
                 = map (append (Prefix b))
                     (map (append "files/") filenames)).
  { rewrite map_map. apply map_ext_in. intros f Hf.
    rewrite Forall_forall in Hclean. now apply File_clean; auto. }
  rewrite Hmap.
  change ([(Prefix b ++ "envelope.json")%string;
           (Prefix b ++ "request.raw")%string;
           (Prefix b ++ "request.headers.json")%string;
           (Prefix b ++ "checksums.json")%string]
            ++ (Prefix b ++ "response.raw")%string
               :: map (append (Prefix b)) (map (append "files/") filenames))
    with (map (append (Prefix b))
            (["envelope.json"; "request.raw"; "request.headers.json";
              "checksums.json"; "response.raw"]
               ++ map (append "files/") filenames)).
  apply NoDup_map_NoDup_ForallPairs.
  - intros x y _ _ E. exact (append_inv_head _ _ _ E).
  - apply NoDup_app.
    + repeat (constructor;
              [cbn [In]; intros H;
               repeat (destruct H as [H|H]; [discriminate H|]);
               exact H|]).
      constructor.
    + apply NoDup_map_NoDup_ForallPairs; [|exact Hnd].
      intros x y _ _ E. exact (append_inv_head _ _ _ E).
    + intros a Ha Hin. apply in_map_iff in Hin. destruct Hin as (f & <- & _).
      cbn [In] in Ha.
      repeat (destruct Ha as [Ha|Ha]; [discriminate Ha|]). exact Ha.
Qed.

Lemma keys_of_one_bundle_distinct_example :
  valid_identity Samples.builder = true
  /\ NoDup (AllKeys Samples.builder ["a.jpg"; "b.png"; "docs/a.jpg"]).
Proof.
  split; [reflexivity|].
  apply (keys_of_one_bundle_distinct Samples.builder
           ["a.jpg"; "b.png"; "docs/a.jpg"] eq_refl).
  - repeat (constructor; [reflexivity|]). constructor.
  - repeat (constructor;
            [cbn [In]; intros H;
             repeat (destruct H as [H|H]; [discriminate H|]); exact H|]).
    constructor.
Defined.

End KeyExtras.

(* ================================================================== *)
(** * More about validation *)
(* ================================================================== *)

Module ValidationExtras.
Import models validation Notions.

Lemma app_nil_iff {A : Type} (l l' : list A) :
  l ++ l' = [] <-> l = [] /\ l' = [].
Proof.
  split; [apply app_eq_nil | intros [-> ->]; reflexivity].
Qed.

Lemma required_then_nil (field value : string) (ok : bool) (msg : string) :
  required_then field value ok msg = []
  <-> negb (String.eqb value "") && ok = true.
Proof.
  unfold required_then.
  destruct (String.eqb value ""); cbn [negb andb];
    [split; discriminate|].
  destruct ok; cbn [negb]; split; (reflexivity || discriminate).
Qed.

Lemma regex_nonempty (s : string) (n : nat) :
  Str.forallb tag_char s && (1 <=? String.length s)%nat
  && (String.length s <=? n)%nat = true ->
  String.eqb s "" = false.
Proof.
  rewrite !andb_true_iff. intros [[_ Hlen] _].
  destruct s; [discriminate | reflexivity].
Qed.

Lemma HasPrefix_nonempty (s p : string) :
  p <> "" -> Str.HasPrefix s p = true -> String.eqb s "" = false.
Proof.
  intros Hp H. apply StrFacts.HasPrefix_spec in H. destruct H as [r ->].
  destruct p; [congruence | reflexivity].
Qed.

(** The loop over the files: its errors are none exactly when every file
    passes, and its total is the running [int64] sum. *)
Lemma validate_files_run (cfg : config.Config) (files : list FileInfo) :
  forall i total,
    snd (validate_files cfg i files total) = running_total files total
    /\ (fst (validate_files cfg i files total) = []
        <-> List.forallb (file_ok cfg) files = true).
Proof.
  induction files as [|f files IH]; intros i total.
  - split; [reflexivity | split; reflexivity].
  - cbn [validate_files running_total fold_left List.forallb].
    specialize (IH (i + 1)%Z (wrap64 (total + Bytes f))).
    destruct (validate_files cfg (i + 1) files (wrap64 (total + Bytes f)))
      as [es total'].
    cbn [fst snd] in *. destruct IH as [IHt IHe].
    split; [exact IHt|].
    unfold file_ok.
    destruct (String.eqb (Filename f) ""); cbn [negb andb app];
      [split; discriminate|].
    destruct (Z.ltb_spec (Bytes f) 0) as [Hneg|Hpos].
    + assert (E : (0 <=? Bytes f)%Z = false) by (apply Z.leb_gt; lia).
      rewrite E. cbn [andb app]. split; discriminate.
    + assert (E : (0 <=? Bytes f)%Z = true) by (apply Z.leb_le; lia).
      rewrite E. cbn [andb].
      destruct (Z.gtb_spec (Bytes f) (config.MaxFileBytes cfg)) as [Hgt|Hle].
      * assert (E' : (Bytes f <=? config.MaxFileBytes cfg)%Z = false)
          by (apply Z.leb_gt; lia).
        rewrite E'. cbn [andb app]. split; discriminate.
      * assert (E' : (Bytes f <=? config.MaxFileBytes cfg)%Z = true)
          by (apply Z.leb_le; lia).
        rewrite E'. cbn [andb app]. exact IHe.
Qed.

Lemma ticket_validation_iff
    (W : World) (cfg : config.Config) (req : UploadTicketRequest) :
  ValidateUploadTicketRequest W req cfg = []
  <-> ticket_request_ok W cfg req = true.
Proof.
  unfold ValidateUploadTicketRequest, ticket_request_ok.
  destruct (validate_files_run cfg (Files (Request req)) 0%Z 0%Z)
    as [Ht He].
  destruct (validate_files cfg 0 (Files (Request req)) 0) as [eFiles total].
  cbn [fst snd] in *. subst total. cbv zeta.
  set (r := Request req) in *.
  rewrite !andb_true_iff.
  repeat rewrite app_nil_iff.
  rewrite !required_then_nil, He. rewrite !andb_true_iff.
  assert (Hbody :
    (if (BodyBytes r <? 0)%Z
     then [mkValidationError "request.bodyBytes" "cannot be negative"]
     else if (BodyBytes r >? config.MaxBodyBytes cfg)%Z
          then [mkValidationError "request.bodyBytes"
                  ("exceeds maximum allowed size ("
                     ++ strconv.Itoa (config.MaxBodyBytes cfg)
                     ++ " bytes)")%string]
          else []) = []
    <-> (0 <=? BodyBytes r)%Z = true
        /\ (BodyBytes r <=? config.MaxBodyBytes cfg)%Z = true).
  { rewrite !Z.leb_le.
    destruct (Z.ltb_spec (BodyBytes r) 0);
      [split; [discriminate | lia]|].
    destruct (Z.gtb_spec (BodyBytes r) (config.MaxBodyBytes cfg));
      [split; [discriminate | lia]|].
    split; [lia | reflexivity]. }
  assert (Htotal :
    (if (wrap64 (BodyBytes r + running_total (Files r) 0)
         >? config.MaxTotalBytes cfg)%Z
     then [mkValidationError "totalBytes"
             ("total upload size exceeds maximum ("
                ++ strconv.Itoa (config.MaxTotalBytes cfg)
                ++ " bytes)")%string]
     else []) = []
    <-> (wrap64 (BodyBytes r + running_total (Files r) 0)
         <=? config.MaxTotalBytes cfg)%Z = true).
  { rewrite Z.leb_le.
    destruct (Z.gtb_spec (wrap64 (BodyBytes r + running_total (Files r) 0))
                (config.MaxTotalBytes cfg));
      [split; [discriminate | lia] | split; [lia | reflexivity]]. }
  assert (Hplat :
    (if negb (String.eqb (Platform (Client req)) "")
        && negb (platformRegex (ToLower W (Platform (Client req))))
     then [mkValidationError "client.platform"
             "must be one of: ios, android, web, desktop"]
     else []) = []
    <-> String.eqb (Platform (Client req)) ""
        || platformRegex (ToLower W (Platform (Client req))) = true).
  { destruct (String.eqb (Platform (Client req)) "");
      destruct (platformRegex (ToLower W (Platform (Client req))));
      cbn; split; (reflexivity || discriminate). }
  rewrite Hbody, Htotal, Hplat. rewrite !negb_true_iff.
  split.
  - intros (Hp & He' & (Hm1 & Hm2) & (Hu1 & Hu2) & (Hb1 & Hb2) & Hf & Htot
            & Hpl).
    destruct Hp as [_ Hp]. destruct He' as [_ He'].
    repeat split; assumption.
  - intros (((((((((Hp & He') & Hm1) & Hm2) & Hu) & Hb1) & Hb2) & Hf) & Htot)
            & Hpl).
    repeat split; try assumption.
    + exact (regex_nonempty _ _ Hp).
    + exact (regex_nonempty _ _ He').
    + apply orb_true_iff in Hu.
      destruct Hu as [Hu|Hu].
      * apply (HasPrefix_nonempty _ "http://"); [discriminate | exact Hu].
      * apply (HasPrefix_nonempty _ "https://"); [discriminate | exact Hu].
Qed.

(** X5.  [ValidateUploadTicketRequest] returns no error exactly for the
    requests with a project and an environment of the allowed form, a
    non-empty method that is an HTTP method once upper-cased, an http(s)
    URL, a body size within [0, MaxBodyBytes], files that each have a name
    and a size within [0, MaxFileBytes], an [int64] total within
    [MaxTotalBytes], and a platform that is empty or, lower-cased, one of
    the four known. *)
Theorem ticket_validation_accepts_exactly
    (W : World) (cfg : config.Config) (req : UploadTicketRequest) :
  ValidateUploadTicketRequest W req cfg = []
  <-> ticket_request_ok W cfg req = true.
Proof. exact (ticket_validation_iff W cfg req). Qed.

Lemma wrap64_small (z : Z) :
  (- 2 ^ 63 <= z < 2 ^ 63)%Z -> wrap64 z = z.
Proof.
  intros Hz. unfold wrap64. rewrite Z.mod_small; lia.
Qed.

(** Without overflow the running total is the sum. *)
Lemma running_total_exact (cfg : config.Config) (files : list FileInfo) :
  List.forallb (file_ok cfg) files = true ->
  forall start,
    (0 <= start)%Z ->
    (start + Z.of_nat (List.length files) * config.MaxFileBytes cfg
     < 2 ^ 63)%Z ->
    running_total files start = (start + declared_file_bytes files)%Z
    /\ (0 <= declared_file_bytes files)%Z.
Proof.
  induction files as [|f files IH]; intros Hok start Hs Hb.
  - cbn [running_total fold_left declared_file_bytes fold_right]. lia.
  - cbn [List.forallb] in Hok. apply andb_true_iff in Hok.
    destruct Hok as [Hf Hfs]. unfold file_ok in Hf.
    rewrite !andb_true_iff, !Z.leb_le in Hf. destruct Hf as [[_ Hf0] Hf1].
    cbn [List.length] in Hb. rewrite Nat2Z.inj_succ in Hb.
    assert (Hlen : (0 <= Z.of_nat (List.length files))%Z) by lia.
    cbn [running_total fold_left declared_file_bytes fold_right].
    fold (running_total files (wrap64 (start + Bytes f))).
    fold (declared_file_bytes files).
    assert (Hw : wrap64 (start + Bytes f) = (start + Bytes f)%Z)
      by (apply wrap64_small; nia).
    rewrite Hw.
    destruct (IH Hfs (start + Bytes f)%Z) as [IHt IHp]; [lia | nia |].
    rewrite IHt. lia.
Qed.

(** X6.  When the configured ceilings leave no room for [int64] overflow,
    a request that passes validation declares, body and files together,
    no more than [MaxTotalBytes]. *)
Theorem validated_total_within_limit
    (W : World) (cfg : config.Config) (req : UploadTicketRequest) :
  ValidateUploadTicketRequest W req cfg = [] ->
  (Z.of_nat (List.length (Files (Request req))) * config.MaxFileBytes cfg
   + config.MaxBodyBytes cfg < 2 ^ 63)%Z ->
  (BodyBytes (Request req) + declared_file_bytes (Files (Request req))
   <= config.MaxTotalBytes cfg)%Z.
Proof.
  intros Hv Hroom. apply ticket_validation_iff in Hv.
  unfold ticket_request_ok in Hv. cbv zeta in Hv.
  rewrite !andb_true_iff, !Z.leb_le in Hv.
  destruct Hv as [[[[[_ Hb0] Hb1] Hf] Htot] _].
  destruct (running_total_exact cfg _ Hf 0%Z) as [Ert Hpos]; [lia | |].
  - assert (Hpf : (0 <= Z.of_nat (List.length (Files (Request req)))
                        * config.MaxFileBytes cfg)%Z).
    { destruct (Files (Request req)) as [|f fs]; [cbn; lia|].
      cbn [List.forallb] in Hf. apply andb_true_iff in Hf.
      destruct Hf as [Hf _]. unfold file_ok in Hf.
      rewrite !andb_true_iff, !Z.leb_le in Hf. nia. }
    lia.
  - rewrite Ert in Htot. rewrite wrap64_small in Htot; [lia|].
    assert (Hpf : (declared_file_bytes (Files (Request req))
                   <= Z.of_nat (List.length (Files (Request req)))
                      * config.MaxFileBytes cfg)%Z).
    { clear - Hf. induction (Files (Request req)) as [|f fs IH];
        [cbn; lia|].
      cbn [List.forallb] in Hf. apply andb_true_iff in Hf.
      destruct Hf as [Hf Hfs]. unfold file_ok in Hf.
      rewrite !andb_true_iff, !Z.leb_le in Hf.
      cbn [declared_file_bytes fold_right List.length].
      fold (declared_file_bytes fs). specialize (IH Hfs).
      rewrite Nat2Z.inj_succ. nia. }
    lia.
Qed.

Lemma validated_total_example :
  ValidateUploadTicketRequest (Samples.world [] [] [] true)
    (Samples.ticket_request [Samples.photo "a.jpg"; Samples.photo "b.png"])
    Samples.the_cfg = []
  /\ (1024 + declared_file_bytes
               [Samples.photo "a.jpg"; Samples.photo "b.png"]
      <= 104857600)%Z.
Proof.
  split; [reflexivity|].
  apply (validated_total_within_limit (Samples.world [] [] [] true)
           Samples.the_cfg
           (Samples.ticket_request
              [Samples.photo "a.jpg"; Samples.photo "b.png"]));
    reflexivity.
Defined.

(** With ceilings near the [int64] range the total wraps: four files of
    2^62 bytes pass a 100 MB total ceiling. *)
Lemma total_check_wraps :
  ValidateUploadTicketRequest (Samples.world [] [] [] true)
    (Samples.ticket_request
       [mkFileInfo "a" "a" "" (2 ^ 62); mkFileInfo "b" "b" "" (2 ^ 62);
        mkFileInfo "c" "c" "" (2 ^ 62); mkFileInfo "d" "d" "" (2 ^ 62)])
    (config.mkConfig 900000000000 10485760 (2 ^ 62) 104857600) = [].
Proof. vm_compute. reflexivity. Qed.

(** [ValidateUploadCompleteRequest] returns no error exactly for the
    claims that are [complete_request_ok]. *)
Lemma complete_validation_iff (req : UploadCompleteRequest) :
  ValidateUploadCompleteRequest req = []
  <-> complete_request_ok req = true.
Proof.
  unfold ValidateUploadCompleteRequest, complete_request_ok. cbv zeta.
  rewrite !andb_true_iff. repeat rewrite app_nil_iff.
  rewrite !required_then_nil.
  assert (Hp : negb (String.eqb (CProject req) "")
               && projectRegex (CProject req) = true
               <-> projectRegex (CProject req) = true).
  { rewrite andb_true_iff. split; [tauto|]. intros H. split; [|exact H].
    unfold projectRegex in H. now rewrite (regex_nonempty _ _ H). }
  assert (He : negb (String.eqb (CEnv req) "") && envRegex (CEnv req) = true
               <-> envRegex (CEnv req) = true).
  { rewrite andb_true_iff. split; [tauto|]. intros H. split; [|exact H].
    unfold envRegex in H. now rewrite (regex_nonempty _ _ H). }
  rewrite Hp, He.
  destruct (String.eqb (FailureID req) "");
    destruct (Nat.eqb (List.length (UploadedKeys req)) 0);
    cbn [negb]; intuition discriminate.
Qed.

End ValidationExtras.

(* ================================================================== *)
(** * More about the handlers *)
(* ================================================================== *)

Module HandlerExtras.
Import Eff models handlers Spec Notions CompletionFacts TicketFacts.

Lemma trace_after_log {A : Type} (e : Event) (k : unit -> M A) :
  trace (bind (emit e) k) = e :: trace (k tt).
Proof. unfold bind, emit, trace. now destruct (k tt). Qed.

(** X7.  A decoded request that violates a condition of its validator is
    answered 400 [validation_error] with empty details, and nothing else
    happens: no call to S3 or SES and no log line.  A decoded request
    that meets the conditions is logged before anything else, so an empty
    trace belongs to rejected requests only. *)
Theorem invalid_requests_touch_nothing (W : World) (h : Handler) :
  (forall req,
     ticket_request_ok W (cfg h) req = false ->
     UploadTicket W h (DecodeOK req) = (validation_error, []))
  /\ (forall req,
        complete_request_ok req = false ->
        UploadComplete W h (DecodeOK req) = (validation_error, []))
  /\ (forall req,
        ticket_request_ok W (cfg h) req = true ->
        hd_error (trace (UploadTicket W h (DecodeOK req)))
        = Some (Log InfoLevel
                  [Str "failureId" (NewUUID W); Str "project" (Project req);
                   Str "env" (Env req)] "creating upload ticket"))
  /\ (forall req,
        complete_request_ok req = true ->
        hd_error (trace (UploadComplete W h (DecodeOK req)))
        = Some (Log InfoLevel
                  [Str "failureId" (FailureID req);
                   Str "project" (CProject req); Str "env" (CEnv req);
                   Int "uploadedKeys"
                     (Z.of_nat (List.length (UploadedKeys req)))]
                  "processing upload complete")).
Proof.
  split; [|split; [|split]].
  - intros req Hno. unfold UploadTicket.
    destruct (validation.ValidateUploadTicketRequest W req (cfg h)) eqn:Hv;
      [|reflexivity].
    apply ValidationExtras.ticket_validation_iff in Hv. congruence.
  - intros req Hno. unfold UploadComplete.
    destruct (validation.ValidateUploadCompleteRequest req) eqn:Hv;
      [|reflexivity].
    apply ValidationExtras.complete_validation_iff in Hv. congruence.
  - intros req Hok. apply ValidationExtras.ticket_validation_iff in Hok.
    unfold UploadTicket. rewrite Hok. cbv zeta. unfold log.
    now rewrite trace_after_log.
  - intros req Hok. apply ValidationExtras.complete_validation_iff in Hok.
    unfold UploadComplete. rewrite Hok. unfold log at 1.
    now rewrite trace_after_log.
Qed.

Lemma invalid_requests_example :
  UploadComplete (Samples.world [] [] [] true) Samples.with_mail
    (DecodeOK (Samples.claim "abc-123" "myapp" "prod" []))
  = (validation_error, []).
Proof.
  apply (proj1 (proj2 (invalid_requests_touch_nothing
                         (Samples.world [] [] [] true) Samples.with_mail))).
  reflexivity.
Defined.

Lemma send_attempts_missing (h : Handler) (req : UploadCompleteRequest)
    (missing : list string) :
  send_attempts (checked h req ++ [missing_warning (FailureID req) missing])
  = 0.
Proof.
  unfold checked. rewrite send_attempts_app.
  change (?x :: map ?f ?l) with ([x] ++ map f l).
  now rewrite send_attempts_app, send_attempts_heads.
Qed.

(** X8.  Once [Decode] has returned, with an error or with a claim,
    [UploadComplete] writes one of four responses, whatever S3 and SES
    answer: the acknowledgment, [missing_objects], [validation_error] or
    [invalid_json]; the first has status 200 and the others 400.  The
    handler never writes a 500: its [verification_failed] branch is never
    taken. *)
Theorem UploadComplete_responses (W : World) (h : Handler)
    (body : Decoded UploadCompleteRequest) :
  (value (UploadComplete W h body) = acknowledged
   \/ value (UploadComplete W h body) = missing_objects
   \/ value (UploadComplete W h body) = validation_error
   \/ exists msg, value (UploadComplete W h body) = invalid_json msg)
  /\ value (UploadComplete W h body) <> verification_failed
  /\ (StatusCode (value (UploadComplete W h body)) = 200%Z
      \/ StatusCode (value (UploadComplete W h body)) = 400%Z).
Proof.
  destruct body as [msg|req].
  - split; [right; right; right; now exists msg|].
    split; [discriminate | right; reflexivity].
  - destruct (validation.ValidateUploadCompleteRequest req) as [|e errs] eqn:Hv.
    + rewrite (UploadComplete_value W h req Hv).
      destruct (List.forallb _ _).
      * split; [now left|]. split; [discriminate | left; reflexivity].
      * split; [right; now left|].
        split; [discriminate | right; reflexivity].
    + unfold UploadComplete. rewrite Hv.
      split; [right; right; now left|].
      split; [discriminate | right; reflexivity].
Qed.

(** X9.  A notification is attempted at most once, and only for a
    decoded, validated claim all of whose keys were found, by a handler
    that has an email sender. *)
Theorem notification_only_after_verification (W : World) (h : Handler)
    (body : Decoded UploadCompleteRequest) :
  send_attempts (trace (UploadComplete W h body)) <= 1
  /\ (send_attempts (trace (UploadComplete W h body)) = 1
      <-> exists req sender,
            body = DecodeOK req
            /\ validation.ValidateUploadCompleteRequest req = []
            /\ List.forallb (present W (presigner h)) (UploadedKeys req)
               = true
            /\ emailer h = Some sender).
Proof.
  destruct body as [msg|req].
  - split; [cbn; lia|]. split; [discriminate|].
    intros (r & s & E & _). discriminate.
  - destruct (validation.ValidateUploadCompleteRequest req) as [|e errs] eqn:Hv.
    + destruct (List.forallb (present W (presigner h)) (UploadedKeys req))
        eqn:Hp.
      * pose proof Hp as Hnf. apply not_found_nil_iff in Hnf.
        destruct (UploadComplete_present W h req Hv Hnf) as [_ Hs].
        rewrite Hs. destruct (emailer h) as [sender|] eqn:He.
        -- split; [lia|]. split; [|reflexivity].
           intros _. exists req, sender. auto.
        -- split; [lia|]. split; [discriminate|].
           intros (r & s & _ & _ & _ & E). discriminate.
      * assert (Hne : not_found W (presigner h) (UploadedKeys req) <> []).
        { intros Hn. apply not_found_nil_iff in Hn. congruence. }
        rewrite (UploadComplete_missing W h req Hv Hne).
        cbn [trace snd]. rewrite send_attempts_missing.
        split; [lia|]. split; [discriminate|].
        intros (r & s & E & _ & Hp' & _). injection E as <-. congruence.
    + unfold UploadComplete. rewrite Hv.
      split; [cbn; lia|]. split; [discriminate|].
      intros (r & s & E & Hv' & _). injection E as <-. congruence.
Qed.

Lemma sent_mails_app (t1 t2 : list Event) :
  sent_mails (t1 ++ t2) = sent_mails t1 ++ sent_mails t2.
Proof.
  induction t1 as [|e t1 IH]; [reflexivity|].
  destruct e; cbn [app sent_mails]; now rewrite IH.
Qed.

Lemma presign_get_keys_app (t1 t2 : list Event) :
  presign_get_keys (t1 ++ t2) = presign_get_keys t1 ++ presign_get_keys t2.
Proof.
  induction t1 as [|e t1 IH]; [reflexivity|].
  destruct e; cbn [app presign_get_keys]; now rewrite IH.
Qed.

Lemma presign_put_calls_app (t1 t2 : list Event) :
  presign_put_calls (t1 ++ t2)
  = presign_put_calls t1 ++ presign_put_calls t2.
Proof.
  induction t1 as [|e t1 IH]; [reflexivity|].
  destruct e; cbn [app presign_put_calls]; now rewrite IH.
Qed.

Lemma heads_silent (bucket : string) (keys : list string) :
  sent_mails (map (CallHeadObject bucket) keys) = []
  /\ presign_get_keys (map (CallHeadObject bucket) keys) = [].
Proof. induction keys as [|k keys IH]; [split; reflexivity | exact IH]. Qed.

(** The run of a validated claim all of whose keys are found, as far as
    reads and mails go. *)
Lemma UploadComplete_present_calls (W : World) (h : Handler)
    (req : UploadCompleteRequest) :
  validation.ValidateUploadCompleteRequest req = [] ->
  not_found W (presigner h) (UploadedKeys req) = [] ->
  presign_get_keys (trace (UploadComplete W h (DecodeOK req)))
  = [keys.Envelope
       (keys.NewBuilder (Now W) (CProject req) (CEnv req) (FailureID req))]
  /\ sent_mails (trace (UploadComplete W h (DecodeOK req)))
     = match emailer h with
       | Some sender => [completion_mail W h sender req]
       | None => []
       end.
Proof.
  intros Hv Hm. unfold UploadComplete. rewrite Hv.
  rewrite VerifyObjectsExist_run, Hm.
  unfold completion_mail, envelope_url.
  unfold s3client.PresignGet, email.SendFailureNotification.
  destruct (heads_silent (s3client.bucket (presigner h)) (UploadedKeys req))
    as [Hsm Hpg].
  destruct (PresignGetObject W _ _ _) as [url|err];
    cbn [bind log emit ret writeJSON value trace fst snd app
           List.length Nat.ltb Nat.leb];
    destruct (emailer h) as [sender|];
    try destruct (SendEmail W _) as [err'|];
    cbn [bind log emit ret writeJSON value trace fst snd app
           List.length Nat.ltb Nat.leb presign_get_keys sent_mails];
    rewrite ?app_nil_r, presign_get_keys_app, sent_mails_app, Hsm, Hpg;
    split; reflexivity.
Qed.

(** X10.  A claim that is complete is acknowledged and mailed even when
    the envelope's read URL cannot be presigned: the one mail goes out
    with the URL obtained, or with an empty one, and always with empty
    request method, request URL, app version and platform. *)
Theorem completion_mail_content (W : World) (h : Handler)
    (req : UploadCompleteRequest) (sender : email.Sender) :
  validation.ValidateUploadCompleteRequest req = [] ->
  List.forallb (present W (presigner h)) (UploadedKeys req) = true ->
  emailer h = Some sender ->
  value (UploadComplete W h (DecodeOK req)) = acknowledged
  /\ sent_mails (trace (UploadComplete W h (DecodeOK req)))
     = [completion_mail W h sender req].
Proof.
  intros Hv Hp Hs. apply not_found_nil_iff in Hp.
  destruct (UploadComplete_present W h req Hv Hp) as [Hval _].
  destruct (UploadComplete_present_calls W h req Hv Hp) as [_ Hm].
  rewrite Hs in Hm. split; assumption.
Qed.

Lemma completion_mail_example :
  validation.ValidateUploadCompleteRequest
    (Samples.claim "abc-123" "myapp" "prod" Samples.four_keys) = []
  /\ map (fun m => email_types.EnvelopeURL (email_types.Rendered m))
       (sent_mails
          (trace (UploadComplete
                    MoreSamples.world_without_read_url
                    Samples.with_mail
                    (DecodeOK (Samples.claim "abc-123" "myapp" "prod"
                                 Samples.four_keys)))))
     = [""].
Proof.
  split; [reflexivity|].
  rewrite (proj2 (completion_mail_content
                    MoreSamples.world_without_read_url Samples.with_mail
                    (Samples.claim "abc-123" "myapp" "prod" Samples.four_keys)
                    (email.mkSender "noreply@example.com" "owner@example.com")
                    eq_refl eq_refl eq_refl)).
  reflexivity.
Defined.

Lemma complete_validation_inv (req : UploadCompleteRequest) :
  validation.ValidateUploadCompleteRequest req = [] ->
  validation.projectRegex (CProject req) = true
  /\ validation.envRegex (CEnv req) = true.
Proof.
  unfold validation.ValidateUploadCompleteRequest. intros H.
  repeat (apply app_eq_nil in H; destruct H as [? H]).
  match goal with
  | Hp : validation.required_then "project" _ _ _ = [],
    He : validation.required_then "env" _ _ _ = [] |- _ =>
      apply ValidationExtras.required_then_nil in Hp, He;
      apply andb_true_iff in Hp, He
  end.
  tauto.
Qed.

(** X11.  The read URL mailed for the envelope is requested for the key
    that today's date gives, not for a key of the claim: for a validated
    complete claim with a well-formed bundle identifier the one key is
    today's prefix followed by ["envelope.json"], and it differs from the
    envelope key of the same bundle derived on any other day. *)
Theorem envelope_link_uses_todays_date (W : World) (h : Handler)
    (req : UploadCompleteRequest) (d : time.Time) :
  validation.ValidateUploadCompleteRequest req = [] ->
  List.forallb (present W (presigner h)) (UploadedKeys req) = true ->
  valid_bundleID (FailureID req) = true ->
  valid_date (Now W) = true -> valid_date d = true ->
  ~ (time.Year d = time.Year (Now W) /\ time.Month d = time.Month (Now W)
     /\ time.Day d = time.Day (Now W)) ->
  presign_get_keys (trace (UploadComplete W h (DecodeOK req)))
  = [(keys.Prefix
        (keys.mkBuilder (CProject req) (CEnv req) (FailureID req) (Now W))
        ++ "envelope.json")%string]
  /\ (keys.Prefix
        (keys.mkBuilder (CProject req) (CEnv req) (FailureID req) (Now W))
        ++ "envelope.json")%string
     <> keys.Envelope
          (keys.mkBuilder (CProject req) (CEnv req) (FailureID req) d).
Proof.
  intros Hv Hp Hid Hnow Hd Hdiff. apply not_found_nil_iff in Hp.
  destruct (complete_validation_inv req Hv) as [Hpr Hen].
  assert (Hb : forall t,
             valid_identity
               (keys.mkBuilder (CProject req) (CEnv req) (FailureID req) t)
             = true).
  { intros t. unfold valid_identity. cbn [keys.project keys.env keys.failureID].
    now rewrite Hpr, Hen, Hid. }
  destruct (UploadComplete_present_calls W h req Hv Hp) as [Hk _].
  rewrite Hk. unfold keys.NewBuilder, keys.Envelope.
  rewrite !KeyFacts.Join_Prefix_name by (apply Hb || reflexivity).
  split; [reflexivity|].
  intros E.
  destruct (KeyExtras.Prefix_fields_inj _ _ _ _ (Hb (Now W)) (Hb d) Hnow Hd E)
    as (_ & _ & _ & Hy & Hm & Hdy).
  cbn [keys.date] in Hy, Hm, Hdy. apply Hdiff. auto.
Qed.

Lemma envelope_link_example :
  validation.ValidateUploadCompleteRequest
    (Samples.claim "abc-123" "myapp" "prod" Samples.four_keys) = []
  /\ presign_get_keys
       (trace (UploadComplete
                 MoreSamples.world_next_day
                 Samples.with_mail
                 (DecodeOK (Samples.claim "abc-123" "myapp" "prod"
                              Samples.four_keys))))
     = ["failures/myapp/prod/2024/03/16/abc-123/envelope.json"]
  /\ ~ In "failures/myapp/prod/2024/03/16/abc-123/envelope.json"
         Samples.four_keys.
Proof.
  split; [reflexivity|]. split.
  - refine (proj1 (envelope_link_uses_todays_date
                     MoreSamples.world_next_day Samples.with_mail
                     (Samples.claim "abc-123" "myapp" "prod" Samples.four_keys)
                     Samples.march15
                     eq_refl eq_refl eq_refl eq_refl eq_refl _)).
    cbn. intros (_ & _ & E). discriminate E.
  - cbn [In Samples.four_keys]. intros H.
    repeat (destruct H as [H|H]; [discriminate H|]). exact H.
Defined.

(** X12.  [generatePresignedURLs] returns either the uploads and no error
    or an error and no uploads, never both and never neither; so
    [UploadTicket] never dereferences nil, and it answers 200, 400 or
    500. *)
Theorem ticket_result_is_uploads_or_error (W : World) (h : Handler) :
  (forall kb req,
     (exists uploads,
        value (generatePresignedURLs W h kb req) = (Some uploads, None))
     \/ (exists err,
          value (generatePresignedURLs W h kb req) = (None, Some err)))
  /\ (forall body,
        Payload (value (UploadTicket W h body)) <> Recovered
        /\ (StatusCode (value (UploadTicket W h body)) = 200%Z
            \/ StatusCode (value (UploadTicket W h body)) = 400%Z
            \/ StatusCode (value (UploadTicket W h body)) = 500%Z)).
Proof.
  split.
  - intros kb req. pose proof (generatePresignedURLs_run W h kb req) as H.
    destruct (first_refusal W (presigner h) (ticket_slots kb req)) as [err|].
    + right. eauto.
    + left. destruct H as (u & Hu & _). eauto.
  - intros [msg|req].
    + split; [discriminate | right; left; reflexivity].
    + destruct (validation.ValidateUploadTicketRequest W req (cfg h))
        as [|e errs] eqn:Hv.
      * pose proof (UploadTicket_run W h req Hv) as H.
        destruct (first_refusal W (presigner h)
                    (ticket_slots (ticket_builder W req) req)) as [err|].
        -- rewrite H. split; [discriminate | right; right; reflexivity].
        -- destruct H as (u & -> & _).
           split; [discriminate | left; reflexivity].
      * unfold UploadTicket. rewrite Hv.
        split; [discriminate | right; left; reflexivity].
Qed.

Lemma attempted_files_run (W : World) (h : Handler) (kb : keys.Builder)
    (files : list FileInfo) : forall uploads,
  presign_put_calls (trace (presign_files W h kb files uploads))
  = attempted W (presigner h) (file_slots kb files).
Proof.
  induction files as [|file files IH]; intros uploads; [reflexivity|].
  cbn [file_slots map attempted presign_files].
  rewrite PresignPut_run. unfold refused.
  destruct (authority W (presigner h) _) as [url|err] eqn:E.
  - cbn [bind fst snd value trace].
    match goal with
    | |- context [presign_files W h kb files ?u] => specialize (IH u)
    end.
    destruct (presign_files W h kb files _) as [v t].
    cbn [trace snd app presign_put_calls] in *. now rewrite IH.
  - reflexivity.
Qed.

(** X13.  The write-authorizations are requested slot by slot in a fixed
    order (envelope, raw request with the declared content type or
    [application/octet-stream], request headers, raw response, checksums,
    then each file with its declared type or the same default), and
    nothing is requested after the first refusal. *)
Theorem presign_requests_stop_at_first_refusal (W : World) (h : Handler)
    (kb : keys.Builder) (req : UploadTicketRequest) :
  presign_put_calls (trace (generatePresignedURLs W h kb req))
  = attempted W (presigner h) (ticket_slots kb req).
Proof.
  unfold generatePresignedURLs, ticket_slots.
  cbn [app attempted]. unfold refused.
  rewrite !PresignPut_run.
  destruct (authority W (presigner h) (keys.Envelope kb, _))
    as [u1|e1]; [|reflexivity].
  cbn [bind fst snd value trace].
  destruct (authority W (presigner h) (keys.RequestRaw kb, _))
    as [u2|e2]; [|reflexivity].
  cbn [bind fst snd value trace].
  destruct (authority W (presigner h) (keys.RequestHeaders kb, _))
    as [u3|e3]; [|reflexivity].
  cbn [bind fst snd value trace].
  destruct (authority W (presigner h) (keys.ResponseRaw kb, _))
    as [u4|e4]; [|reflexivity].
  cbn [bind fst snd value trace].
  destruct (authority W (presigner h) (keys.Checksums kb, _))
    as [u5|e5]; [|reflexivity].
  cbn [bind fst snd value trace].
  match goal with
  | |- context [presign_files W h kb ?fs ?u] =>
      pose proof (attempted_files_run W h kb fs u) as Hf
  end.
  destruct (presign_files W h kb _ _) as [v t].
  cbn [trace snd app presign_put_calls] in *.
  fold (refused W (presigner h)) in Hf. now rewrite Hf.
Qed.

Lemma ticket_validation_identity (W : World) (cfg : config.Config)
    (req : UploadTicketRequest) :
  validation.ValidateUploadTicketRequest W req cfg = [] ->
  validation.projectRegex (Project req) = true
  /\ validation.envRegex (Env req) = true.
Proof.
  intros Hv. apply ValidationExtras.ticket_validation_iff in Hv.
  unfold ticket_request_ok in Hv. cbv zeta in Hv.
  rewrite !andb_true_iff in Hv. tauto.
Qed.

Lemma ticket_builder_valid (W : World) (cfg : config.Config)
    (req : UploadTicketRequest) :
  validation.ValidateUploadTicketRequest W req cfg = [] ->
  valid_bundleID (NewUUID W) = true ->
  valid_identity (ticket_builder W req) = true.
Proof.
  intros Hv Hid. destruct (ticket_validation_identity W cfg req Hv) as [Hp He].
  unfold valid_identity, ticket_builder, keys.NewBuilder.
  cbn [keys.project keys.env keys.failureID]. now rewrite Hp, He, Hid.
Qed.

(** What a 200 ticket holds. *)
Lemma issued_ticket_inv (W : World) (h : Handler)
    (req : UploadTicketRequest) (t : UploadTicketResponse) :
  value (UploadTicket W h (DecodeOK req)) = mkResponse 200 (TicketJSON t) ->
  validation.ValidateUploadTicketRequest W req (cfg h) = []
  /\ TFailureID t = NewUUID W
  /\ S3Prefix t = keys.Prefix (ticket_builder W req)
  /\ map Key (authorizations (Uploads t))
     = map fst (ticket_slots (ticket_builder W req) req).
Proof.
  intros Hok.
  destruct (validation.ValidateUploadTicketRequest W req (cfg h))
    as [|e errs] eqn:Hv.
  - pose proof (UploadTicket_run W h req Hv) as Ht.
    destruct (first_refusal W (presigner h)
                (ticket_slots (ticket_builder W req) req)) as [err|].
    + rewrite Ht in Hok. discriminate.
    + destruct Ht as (uploads & Hval & Hauth & _).
      rewrite Hval in Hok. injection Hok as <-.
      cbn [TFailureID S3Prefix Uploads]. rewrite Hauth, map_map.
      repeat split; reflexivity.
  - unfold UploadTicket in Hok. rewrite Hv in Hok. discriminate.
Qed.

(** X14.  A ticket issued for clean file names, under a well-formed
    bundle identifier, carries the identifier, the prefix derived for it,
    and keys that are the prefix followed by the five slot names and by
    ["files/"] and each declared name. *)
Theorem ticket_keys_under_prefix (W : World) (h : Handler)
    (req : UploadTicketRequest) (t : UploadTicketResponse) :
  value (UploadTicket W h (DecodeOK req)) = mkResponse 200 (TicketJSON t) ->
  valid_bundleID (NewUUID W) = true ->
  Forall (fun f => clean_relative (Filename f) = true)
    (Files (Request req)) ->
  TFailureID t = NewUUID W
  /\ S3Prefix t = keys.Prefix (ticket_builder W req)
  /\ map Key (authorizations (Uploads t))
     = map (append (S3Prefix t))
         (slot_names
            ++ map (fun f => ("files/" ++ Filename f)%string)
                 (Files (Request req))).
Proof.
  intros Hok Hid Hclean.
  destruct (issued_ticket_inv W h req t Hok) as (Hv & Hf & Hp & Hk).
  pose proof (ticket_builder_valid W (cfg h) req Hv Hid) as Hb.
  split; [exact Hf|]. split; [exact Hp|].
  rewrite Hk, Hp. unfold ticket_slots, file_slots, slot_names.
  rewrite !map_app, !map_map. cbn [map fst].
  unfold keys.Envelope, keys.RequestRaw, keys.RequestHeaders,
    keys.ResponseRaw, keys.Checksums.
  rewrite !KeyFacts.Join_Prefix_name by (exact Hb || reflexivity).
  f_equal. apply map_ext_in. intros f Hin. cbn [fst].
  rewrite Forall_forall in Hclean.
  now apply KeyFacts.File_clean; auto.
Qed.

Lemma ticket_keys_example :
  exists t,
    value (UploadTicket (Samples.world [] [] [] true) Samples.with_mail
             (DecodeOK (Samples.ticket_request [Samples.photo "a.jpg"])))
    = mkResponse 200 (TicketJSON t)
    /\ map Key (authorizations (Uploads t))
       = map (append
                "failures/myapp/prod/2024/03/15/550e8400-e29b-41d4-a716-446655440000/")
           ["envelope.json"; "request.raw"; "request.headers.json";
            "response.raw"; "checksums.json"; "files/a.jpg"].
Proof.
  eexists. split; [vm_compute; reflexivity|].
  refine (proj2 (proj2 (ticket_keys_under_prefix
                          (Samples.world [] [] [] true) Samples.with_mail
                          (Samples.ticket_request [Samples.photo "a.jpg"])
                          _ _ eq_refl _))).
  - vm_compute. reflexivity.
  - repeat constructor.
Defined.

(** X15.  Validation does not look into file names: a ticket issued for a
    request one of whose files is named ["../../" + other + "/" + name]
    contains a write-authorization for the key [name] has under the prefix
    of bundle [other], which lies outside the ticket's own prefix. *)
Theorem ticket_grants_key_of_other_bundle (W : World) (h : Handler)
    (req : UploadTicketRequest) (t : UploadTicketResponse)
    (file : FileInfo) (other name : string) :
  value (UploadTicket W h (DecodeOK req)) = mkResponse 200 (TicketJSON t) ->
  valid_bundleID (NewUUID W) = true ->
  In file (Files (Request req)) ->
  Filename file = ("../../" ++ other ++ "/" ++ name)%string ->
  valid_bundleID other = true ->
  path.plain name = true ->
  other <> NewUUID W ->
  In (keys.Prefix (with_failureID (ticket_builder W req) other) ++ name)%string
     (map Key (authorizations (Uploads t)))
  /\ ~ is_prefix_of (S3Prefix t)
        (keys.Prefix (with_failureID (ticket_builder W req) other) ++ name).
Proof.
  intros Hok Hid Hin Hname Ho Hn Hne.
  destruct (issued_ticket_inv W h req t Hok) as (Hv & _ & Hp & Hk).
  pose proof (ticket_builder_valid W (cfg h) req Hv Hid) as Hb.
  split.
  - rewrite Hk. unfold ticket_slots. rewrite map_app. apply in_or_app. right.
    unfold file_slots. rewrite map_map. cbn [fst].
    apply in_map_iff. exists file. split; [|exact Hin].
    rewrite Hname. now apply KeyExtras.File_reaches_other.
  - rewrite Hp. intros [rest E].
    pose proof (KeyFacts.Prefix_namespace _ _ _ _
                  (KeyExtras.valid_with_failureID _ _ Hb Ho) Hb E) as Eid.
    cbn in Eid. congruence.
Qed.

Lemma ticket_grants_key_example :
  exists t,
    value (UploadTicket (Samples.world [] [] [] true) Samples.with_mail
             (DecodeOK (Samples.ticket_request
                          [Samples.photo "../../abc-123/envelope.json"])))
    = mkResponse 200 (TicketJSON t)
    /\ In "failures/myapp/prod/2024/03/15/abc-123/envelope.json"
          (map Key (authorizations (Uploads t))).
Proof.
  eexists. split; [vm_compute; reflexivity|].
  refine (proj1 (ticket_grants_key_of_other_bundle
                   (Samples.world [] [] [] true) Samples.with_mail
                   (Samples.ticket_request
                      [Samples.photo "../../abc-123/envelope.json"])
                   _ (Samples.photo "../../abc-123/envelope.json")
                   "abc-123" "envelope.json" _ eq_refl _ eq_refl eq_refl
                   eq_refl _)).
  - vm_compute. reflexivity.
  - left. reflexivity.
  - discriminate.
Defined.

(** X16.  [VerifyObjectsExist] asks S3 about every key exactly once, in
    the order given, whatever the answers; it never returns an error; and
    the keys it returns are those whose [HeadObject] did not succeed, in
    order and with repetitions, none at all exactly when every key was
    found. *)
Theorem verify_checks_every_key_once (W : World) (p : s3client.Presigner)
    (keys : list string) :
  trace (s3client.VerifyObjectsExist W p keys)
  = map (CallHeadObject (s3client.bucket p)) keys
  /\ value (s3client.VerifyObjectsExist W p keys)
     = (filter (fun k => negb (present W p k)) keys, None)
  /\ (fst (value (s3client.VerifyObjectsExist W p keys)) = []
      <-> List.forallb (present W p) keys = true)
  /\ List.length (fst (value (s3client.VerifyObjectsExist W p keys)))
     <= List.length keys.
Proof.
  rewrite VerifyObjectsExist_run. cbn [value trace fst snd].
  split; [reflexivity|]. split; [reflexivity|]. split.
  - apply not_found_nil_iff.
  - apply filter_length_le.
Qed.

End HandlerExtras.

(* ================================================================== *)
(** * Configuration from the environment *)
(* ================================================================== *)

Module SettingsExtras.
Import strconv strconv_parse settings Spec.

Lemma is_digit_digit_char (u : Z) : is_digit (digit_char (u mod 10)) = true.
Proof.
  assert (H : (0 <= u mod 10 < 10)%Z) by (apply Z.mod_pos_bound; lia).
  unfold digit_char.
  assert (Hn : Z.to_nat (u mod 10) < 10) by lia.
  set (n := Z.to_nat (u mod 10)) in *. clearbody n.
  do 10 (destruct n as [|n]; [reflexivity|]). lia.
Qed.

Lemma utoa_fuel_digits (fuel : nat) : forall (u : Z) (acc : string),
  Str.forallb is_digit acc = true ->
  Str.forallb is_digit (utoa_fuel fuel u acc) = true.
Proof.
  induction fuel as [|f IH]; intros u acc Hacc; cbn [utoa_fuel];
    [exact Hacc|].
  assert (H' : Str.forallb is_digit (String (digit_char (u mod 10)) acc)
               = true).
  { cbn [Str.forallb]. now rewrite is_digit_digit_char, Hacc. }
  destruct (u <? 10)%Z; [exact H' | now apply IH].
Qed.

Lemma utoa_digits (u : Z) : Str.forallb is_digit (utoa u) = true.
Proof. unfold utoa. now apply utoa_fuel_digits. Qed.

(** On digits, parsing computes the number the digits denote. *)
Lemma parse_digits_value (s : string) : forall acc,
  Str.forallb is_digit s = true ->
  parse_digits s acc = Some (decimal_value s acc).
Proof.
  induction s as [|c s IH]; intros acc Hd; [reflexivity|].
  cbn [Str.forallb] in Hd. apply andb_true_iff in Hd. destruct Hd as [Hc Hs].
  cbn [parse_digits decimal_value]. rewrite Hc. now apply IH.
Qed.

Lemma parse_utoa (u : Z) : (0 <= u)%Z -> parse_digits (utoa u) 0 = Some u.
Proof.
  intros Hu. rewrite parse_digits_value by apply utoa_digits.
  now rewrite TimeFacts.utoa_value.
Qed.

Lemma utoa_head (u : Z) :
  exists c rest, utoa u = String c rest /\ is_digit c = true.
Proof.
  pose proof (utoa_digits u) as Hd. pose proof (TimeFacts.utoa_length u) as Hl.
  destruct (utoa u) as [|c rest]; [cbn in Hl; lia|].
  cbn [Str.forallb] in Hd. apply andb_true_iff in Hd.
  exists c, rest. tauto.
Qed.

Lemma digit_not_sign (c : ascii) :
  is_digit c = true -> Ascii.eqb c "+" = false /\ Ascii.eqb c "-" = false.
Proof.
  intros Hc. split.
  - destruct (Ascii.eqb_spec c "+") as [->|]; [discriminate | reflexivity].
  - destruct (Ascii.eqb_spec c "-") as [->|]; [discriminate | reflexivity].
Qed.

(** Printing an [int64] and parsing it gives the number back. *)
Lemma ParseInt_Itoa (x : Z) :
  (- 2 ^ 63 <= x < 2 ^ 63)%Z -> ParseInt (Itoa x) = Some x.
Proof.
  intros Hx. unfold Itoa.
  destruct (utoa_head (Z.abs x)) as (c & rest & E & Hc).
  destruct (digit_not_sign c Hc) as [Hplus Hminus].
  destruct (Z.ltb_spec x 0) as [Hneg|Hpos].
  - change ("-" ++ utoa (Z.abs x))%string with (String "-" (utoa (Z.abs x))).
    unfold ParseInt. cbn [Ascii.eqb Bool.eqb orb andb].
    rewrite parse_utoa by lia. rewrite E at 1.
    cbn [String.eqb].
    destruct (Z.gtb_spec (Z.abs x) (2 ^ 63)); [lia|].
    f_equal. lia.
  - change ("" ++ utoa (Z.abs x))%string with (utoa (Z.abs x)).
    rewrite Z.abs_eq by lia.
    rewrite Z.abs_eq in E by lia.
    unfold ParseInt. rewrite E. rewrite Hplus, Hminus. cbn [orb].
    rewrite <- E. rewrite parse_utoa by lia. rewrite E at 1.
    cbn [String.eqb].
    destruct (Z.geb_spec x (2 ^ 63)); [lia | reflexivity].
Qed.

Lemma parse_digits_nonneg (s : string) : forall acc un,
  (0 <= acc)%Z -> parse_digits s acc = Some un -> (0 <= un)%Z.
Proof.
  induction s as [|c s IH]; intros acc un Hacc H.
  - cbn in H. injection H as <-. exact Hacc.
  - cbn [parse_digits] in H. destruct (is_digit c) eqn:Hc; [|discriminate].
    apply IH in H; [exact H|].
    unfold is_digit in Hc. apply andb_true_iff in Hc.
    rewrite !Nat.leb_le in Hc. lia.
Qed.

(** What [ParseInt] accepts fits [int64]. *)
Lemma ParseInt_range (s : string) (x : Z) :
  ParseInt s = Some x -> (- 2 ^ 63 <= x < 2 ^ 63)%Z.
Proof.
  unfold ParseInt. destruct s as [|c rest]; [discriminate|].
  cbv zeta.
  destruct (String.eqb _ ""); [discriminate|].
  destruct (parse_digits _ 0) as [un|] eqn:Hp; [|discriminate].
  apply parse_digits_nonneg in Hp; [|lia].
  destruct (Ascii.eqb c "-").
  - destruct (Z.gtb_spec un (2 ^ 63)) as [Hgt|Hle]; [discriminate|].
    intros Hs. injection Hs as <-. lia.
  - destruct (Z.geb_spec un (2 ^ 63)) as [Hge|Hlt]; [discriminate|].
    intros Hs. injection Hs as <-. lia.
Qed.

(** X17.  [getEnvInt64] returns the default when the variable is unset,
    empty or not a decimal [int64]; it returns [x] when the variable holds
    [x] printed in decimal; and its result is an [int64] whenever the
    default is. *)
Theorem getEnvInt64_reads_decimal (Getenv : string -> string)
    (key : string) (defaultVal : Z) :
  (Getenv key = "" -> getEnvInt64 Getenv key defaultVal = defaultVal)
  /\ (ParseInt (Getenv key) = None ->
      getEnvInt64 Getenv key defaultVal = defaultVal)
  /\ (forall x, (- 2 ^ 63 <= x < 2 ^ 63)%Z -> Getenv key = Itoa x ->
                getEnvInt64 Getenv key defaultVal = x)
  /\ ((- 2 ^ 63 <= defaultVal < 2 ^ 63)%Z ->
      (- 2 ^ 63 <= getEnvInt64 Getenv key defaultVal < 2 ^ 63)%Z).
Proof.
  unfold getEnvInt64. cbv zeta. split; [|split; [|split]].
  - intros ->. reflexivity.
  - intros ->. now destruct (negb _).
  - intros x Hx E. rewrite E, (ParseInt_Itoa x Hx).
    destruct (String.eqb (Itoa x) "") eqn:Ee; [|reflexivity].
    apply String.eqb_eq in Ee. rewrite Ee in E.
    pose proof (ParseInt_Itoa x Hx) as Hp. rewrite Ee in Hp. discriminate.
  - intros Hd. destruct (negb _); [|exact Hd].
    destruct (ParseInt (Getenv key)) as [v|] eqn:Hp; [|exact Hd].
    exact (ParseInt_range _ _ Hp).
Qed.

Lemma getEnvInt64_example :
  getEnvInt64 (fun k => if String.eqb k "MAX_FILE_BYTES" then "-12" else "")
    "MAX_FILE_BYTES" 52428800 = (-12)%Z.
Proof.
  apply (proj1 (proj2 (proj2 (getEnvInt64_reads_decimal
           (fun k => if String.eqb k "MAX_FILE_BYTES" then "-12" else "")
           "MAX_FILE_BYTES" 52428800))) (-12)%Z);
    [lia | reflexivity].
Defined.

Lemma issued_ticket_expiry (W : World) (h : handlers.Handler)
    (req : models.UploadTicketRequest) (t : models.UploadTicketResponse) :
  Eff.value (handlers.UploadTicket W h (handlers.DecodeOK req))
  = handlers.mkResponse 200 (handlers.TicketJSON t) ->
  models.ExpiresInSeconds t
  = Z.quot (config.PresignTTL (handlers.cfg h)) 1000000000.
Proof.
  intros Hok.
  destruct (validation.ValidateUploadTicketRequest W req (handlers.cfg h))
    as [|e errs] eqn:Hv.
  - pose proof (TicketFacts.UploadTicket_run W h req Hv) as Ht.
    destruct (first_refusal W (handlers.presigner h)
                (ticket_slots (ticket_builder W req) req)) as [err|].
    + rewrite Ht in Hok. discriminate.
    + destruct Ht as (uploads & Hval & _).
      rewrite Hval in Hok. injection Hok as <-. reflexivity.
  - unfold handlers.UploadTicket in Hok. rewrite Hv in Hok. discriminate.
Qed.

(** X18.  The validity a ticket announces is the configured number of
    seconds: with the configuration loaded from the environment,
    [ExpiresInSeconds] is 900 when [PRESIGN_TTL_SECONDS] is unset, and [n]
    when it holds [n] in decimal and [n] seconds fit a [time.Duration]. *)
Theorem ticket_expiry_from_environment (Getenv : string -> string)
    (W : World) (h : handlers.Handler)
    (req : models.UploadTicketRequest) (t : models.UploadTicketResponse) :
  handlers.cfg h = for_handlers (Load Getenv) ->
  Eff.value (handlers.UploadTicket W h (handlers.DecodeOK req))
  = handlers.mkResponse 200 (handlers.TicketJSON t) ->
  (Getenv "PRESIGN_TTL_SECONDS" = "" -> models.ExpiresInSeconds t = 900%Z)
  /\ (forall n,
        (- 2 ^ 63 <= n * 1000000000 < 2 ^ 63)%Z ->
        Getenv "PRESIGN_TTL_SECONDS" = Itoa n ->
        models.ExpiresInSeconds t = n).
Proof.
  intros Hcfg Hok. rewrite (issued_ticket_expiry W h req t Hok), Hcfg.
  unfold for_handlers, Load. cbn [config.PresignTTL PresignTTL].
  unfold getEnvInt, Atoi. cbv zeta. split.
  - intros ->. reflexivity.
  - intros n Hn E. rewrite E.
    assert (Hr : (- 2 ^ 63 <= n < 2 ^ 63)%Z) by lia.
    rewrite (ParseInt_Itoa n Hr).
    assert (Hne : String.eqb (Itoa n) "" = false).
    { destruct (String.eqb (Itoa n) "") eqn:Ee; [|reflexivity].
      apply String.eqb_eq in Ee.
      pose proof (ParseInt_Itoa n Hr) as Hp. rewrite Ee in Hp.
      discriminate. }
    rewrite Hne. cbn [negb].
    rewrite ValidationExtras.wrap64_small by exact Hn.
    apply Z.quot_mul. lia.
Qed.

Lemma ticket_expiry_example :
  exists t,
    Eff.value
      (handlers.UploadTicket (Samples.world [] [] [] true)
         MoreSamples.loaded_handler
         (handlers.DecodeOK (Samples.ticket_request [])))
    = handlers.mkResponse 200 (handlers.TicketJSON t)
    /\ models.ExpiresInSeconds t = 300%Z.
Proof.
  eexists. split; [vm_compute; reflexivity|].
  refine (proj2 (ticket_expiry_from_environment
                   MoreSamples.five_minutes
                   (Samples.world [] [] [] true) MoreSamples.loaded_handler
                   (Samples.ticket_request []) _ eq_refl _) 300%Z _ eq_refl).
  - vm_compute. reflexivity.
  - lia.
Defined.

End SettingsExtras.

(* ================================================================== *)
(** * Middleware *)
(* ================================================================== *)

Module MiddlewareExtras.
Import http middleware.

(** X19.  With the check enabled, the wrapped handler runs only for a
    request whose [X-Api-Key] header is not empty and equals the
    configured key; every other request is answered 401 after one
    warning, whatever the wrapped handler is.  An enabled check with an
    empty configured key admits no request. *)
Theorem api_key_check (apiKey : string) (enabled : bool) (next : Handler)
    (r : Request) :
  (admitted apiKey enabled r = true ->
   APIKeyAuth apiKey enabled next r = next r)
  /\ (admitted apiKey enabled r = false ->
      APIKeyAuth apiKey enabled next r
      = [Logged Eff.WarnLevel
           [Eff.Str "path" (Path r); Eff.Str "method" (Method r)]
           (if String.eqb (HeaderGet r APIKeyHeader) ""
            then "missing API key" else "invalid API key");
         Error (unauthorized
                  (if String.eqb (HeaderGet r APIKeyHeader) ""
                   then "Missing API key" else "Invalid API key")) 401])
  /\ (enabled = true -> apiKey = "" -> admitted apiKey enabled r = false).
Proof.
  unfold admitted, APIKeyAuth. cbv zeta.
  destruct enabled; cbn [negb orb].
  - destruct (String.eqb (HeaderGet r APIKeyHeader) "") eqn:E0;
      cbn [negb andb].
    + split; [discriminate|]. split; [reflexivity|]. reflexivity.
    + destruct (String.eqb (HeaderGet r APIKeyHeader) apiKey) eqn:E1;
        cbn [negb].
      * split; [reflexivity|]. split; [discriminate|].
        intros _ ->. congruence.
      * split; [discriminate|]. split; reflexivity.
  - split; [reflexivity|]. split; discriminate.
Qed.

Lemma api_key_check_example :
  APIKeyAuth "secret" true (fun _ => [WriteHeader 200])
    (mkRequest "POST" "/v1/upload-ticket" "" "" (fun _ => "guess"))
  = [Logged Eff.WarnLevel
       [Eff.Str "path" "/v1/upload-ticket"; Eff.Str "method" "POST"]
       "invalid API key";
     Error (unauthorized "Invalid API key") 401].
Proof.
  exact (proj1 (proj2 (api_key_check "secret" true
                         (fun _ => [WriteHeader 200])
                         (mkRequest "POST" "/v1/upload-ticket" "" ""
                            (fun _ => "guess")))) eq_refl).
Defined.

(** X20.  With the configuration loaded from the environment, the key
    check is skipped whenever [API_KEY] is empty or [STAGE] is unset or
    [dev]; otherwise exactly the requests whose [X-Api-Key] equals
    [API_KEY] are admitted. *)
Theorem loaded_key_check (Getenv : string -> string) (r : Request) :
  admitted (settings.APIKey (settings.Load Getenv))
    (settings.AuthEnabled (settings.Load Getenv)) r = true
  <-> (Getenv "API_KEY" = "" \/ Getenv "STAGE" = ""
       \/ Getenv "STAGE" = "dev"
       \/ HeaderGet r APIKeyHeader = Getenv "API_KEY").
Proof.
  unfold admitted, settings.Load, settings.getEnv. cbv zeta.
  cbn [settings.APIKey settings.AuthEnabled].
  destruct (String.eqb_spec (Getenv "API_KEY") "") as [Ek|Nk];
    cbn [negb andb orb]; [split; [auto | reflexivity]|].
  destruct (String.eqb_spec (Getenv "STAGE") "") as [Es|Ns]; cbn [negb].
  - cbn. split; [auto | reflexivity].
  - destruct (String.eqb_spec (Getenv "STAGE") "dev") as [Ed|Nd];
      cbn [negb orb]; [split; [auto | reflexivity]|].
    destruct (String.eqb_spec (HeaderGet r APIKeyHeader) (Getenv "API_KEY"))
      as [Eh|Nh].
    + rewrite andb_true_r. split; [auto|]. intros _.
      apply negb_true_iff, String.eqb_neq. congruence.
    + rewrite andb_false_r. split; [discriminate|].
      intros [H|[H|[H|H]]]; congruence.
Qed.

(** X21.  A preflight request is answered by CORS alone: for an [OPTIONS]
    request to a [/v1] route the chain logs the request, sets the three
    CORS headers and writes 200, without the key check and without the
    route's handler; any other request gets the same headers and goes on
    to the key check. *)
Theorem preflight_skips_key_check (cfg : settings.Config) (next : Handler)
    (r : Request) :
  (Method r = "OPTIONS" ->
   v1_chain cfg next r
   = [Logged Eff.InfoLevel
        [Eff.Str "method" (Method r); Eff.Str "path" (Path r);
         Eff.Str "remote" (RemoteAddr r); Eff.Str "userAgent" (UserAgent r)]
        "incoming request";
      HeaderSet "Access-Control-Allow-Origin" "*";
      HeaderSet "Access-Control-Allow-Methods" "GET, POST, OPTIONS";
      HeaderSet "Access-Control-Allow-Headers" "Content-Type, X-Api-Key";
      WriteHeader 200])
  /\ (Method r <> "OPTIONS" ->
      v1_chain cfg next r
      = Logged Eff.InfoLevel
          [Eff.Str "method" (Method r); Eff.Str "path" (Path r);
           Eff.Str "remote" (RemoteAddr r);
           Eff.Str "userAgent" (UserAgent r)]
          "incoming request"
        :: [HeaderSet "Access-Control-Allow-Origin" "*";
            HeaderSet "Access-Control-Allow-Methods" "GET, POST, OPTIONS";
            HeaderSet "Access-Control-Allow-Headers"
              "Content-Type, X-Api-Key"]
        ++ APIKeyAuth (settings.APIKey cfg) (settings.AuthEnabled cfg)
             next r).
Proof.
  unfold v1_chain, RequestLogger, CORS. split.
  - intros E. rewrite E. reflexivity.
  - intros N. apply String.eqb_neq in N. now rewrite N.
Qed.

Lemma preflight_example :
  List.length
    (v1_chain (settings.Load MoreSamples.production)
       (fun _ => [WriteHeader 500])
       (mkRequest "OPTIONS" "/v1/upload-ticket" "" "" (fun _ => "")))
  = 5.
Proof.
  rewrite (proj1 (preflight_skips_key_check
                    (settings.Load MoreSamples.production)
                    (fun _ => [WriteHeader 500])
                    (mkRequest "OPTIONS" "/v1/upload-ticket" "" ""
                       (fun _ => ""))) eq_refl).
  reflexivity.
Defined.

End MiddlewareExtras.

(* ================================================================== *)
(** * The Lambda adapter *)
(* ================================================================== *)

Module LambdaExtras.
Import lambda.

Lemma substring_zero (n : nat) (str : string) : String.substring n 0 str = "".
Proof.
  revert n. induction str as [|c str IH]; intros [|n]; cbn; auto.
Qed.

Lemma substring_length (str : string) : forall n m,
  n + m <= String.length str ->
  String.length (String.substring n m str) = m.
Proof.
  induction str as [|c str IH]; intros n m H; cbn [String.length] in H.
  - assert (n = 0) by lia. assert (m = 0) by lia. subst. reflexivity.
  - destruct n as [|n].
    + destruct m as [|m]; [reflexivity|].
      cbn [String.substring String.length]. f_equal. apply (IH 0 m). lia.
    + cbn [String.substring]. apply IH. lia.
Qed.

Lemma substring_append (str : string) : forall n m k,
  n + m + k <= String.length str ->
  (String.substring n m str ++ String.substring (n + m) k str)%string
  = String.substring n (m + k) str.
Proof.
  induction str as [|c str IH]; intros n m k H; cbn [String.length] in H.
  - assert (n = 0) by lia. assert (m = 0) by lia. assert (k = 0) by lia.
    subst. reflexivity.
  - destruct n as [|n].
    + destruct m as [|m].
      * cbn [Nat.add]. rewrite substring_zero. reflexivity.
      * cbn [Nat.add String.substring append]. f_equal.
        apply (IH 0 m k). lia.
    + cbn [Nat.add String.substring]. apply IH. lia.
Qed.

Lemma substring_all (str : string) :
  String.substring 0 (String.length str) str = str.
Proof.
  induction str as [|c str IH]; [reflexivity|].
  cbn [String.length String.substring]. now rewrite IH.
Qed.

(** Repeated reads deliver the bytes from the current position on. *)
Lemma read_times_run (str : string) (size count : nat) : forall pos,
  pos <= String.length str ->
  read_times count size (mkStringReader str pos)
  = (String.substring pos
       (Nat.min (count * size) (String.length str - pos)) str,
     mkStringReader str
       (pos + Nat.min (count * size) (String.length str - pos))).
Proof.
  induction count as [|k IH]; intros pos Hpos.
  - cbn [read_times Nat.mul Nat.min]. rewrite substring_zero.
    now rewrite Nat.add_0_r.
  - cbn [read_times]. unfold Read. cbn [s i].
    destruct (Nat.leb_spec (String.length str) pos) as [Hend|Hmore].
    + assert (pos = String.length str) by lia. subst pos.
      rewrite IH by lia. rewrite Nat.sub_diag, !Nat.min_0_r.
      rewrite substring_zero. reflexivity.
    + set (n := Nat.min size (String.length str - pos)).
      assert (Hn : String.length (String.substring pos n str) = n)
        by (apply substring_length; lia).
      rewrite Hn. rewrite IH by lia.
      assert (Hsum : n + Nat.min (k * size) (String.length str - (pos + n))
                     = Nat.min (S k * size) (String.length str - pos))
        by (cbn [Nat.mul]; lia).
      rewrite substring_append by lia.
      rewrite Hsum. f_equal. f_equal. lia.
Qed.

(** X22.  The body reader hands out the request body in order: enough
    reads with a non-empty buffer deliver exactly the body.  At the end it
    returns no bytes and no error (never an end-of-file), and stays
    there. *)
Theorem body_reader_delivers_body (str : string) (size count : nat) :
  0 < size ->
  String.length str <= count * size ->
  read_times count size (mkStringReader str 0)
  = (str, mkStringReader str (String.length str))
  /\ (forall n,
        Read (mkStringReader str (String.length str)) n
        = ("", None, mkStringReader str (String.length str))).
Proof.
  intros Hsize Hcount. split.
  - rewrite read_times_run by lia.
    rewrite Nat.sub_0_r, Nat.min_r by lia.
    now rewrite substring_all.
  - intros n. unfold Read. cbn [s i]. now rewrite Nat.leb_refl.
Qed.

Lemma body_reader_example :
  read_times 3 4 (mkStringReader "0123456789" 0)
  = ("0123456789", mkStringReader "0123456789" 10).
Proof.
  apply (body_reader_delivers_body "0123456789" 4 3); cbn; lia.
Defined.

Lemma apply_calls (calls : list Call) : forall rw,
  fold_left apply calls rw
  = mkResponseWriter (headers rw) (body rw ++ written calls)
      (last_status calls (status rw)).
Proof.
  induction calls as [|c calls IH]; intros rw.
  - cbn. rewrite StrFacts.append_nil_r. now destruct rw.
  - cbn [fold_left]. rewrite IH. destruct c; cbn.
    + now rewrite StrFacts.append_assoc.
    + reflexivity.
Qed.

Lemma last_status_end (calls : list Call) (b : string) (code : Z) :
  forall z,
    last_status (calls ++ [DoWrite b; DoWriteHeader code]) z = code.
Proof.
  induction calls as [|c calls IH]; intros z; [reflexivity|].
  destruct c; cbn [app last_status]; apply IH.
Qed.

(** X23.  The Lambda response writer returns, as body, everything written
    in order, and, as status, the argument of the last [WriteHeader] (200
    if there was none), also when that call comes after a [Write]. *)
Theorem response_writer_collects (calls : list Call) :
  body (fold_left apply calls fresh) = written calls
  /\ status (fold_left apply calls fresh) = last_status calls 200
  /\ (forall b code,
        status (fold_left apply (calls ++ [DoWrite b; DoWriteHeader code])
                  fresh) = code).
Proof.
  rewrite apply_calls. cbn [body status fresh append].
  split; [reflexivity|]. split; [reflexivity|].
  intros b code. rewrite apply_calls. cbn [status].
  apply last_status_end.
Qed.

End LambdaExtras.
